(** * Governance server: sync-and-cache core

    A shallow embedding of the frontmatter parser ([src/sync/parser.ts]),
    the sync workflow ([src/sync/workflow.ts]) over the D1 schema of
    [migrations/0001_initial.sql], the detail queries ([src/data/db.ts]),
    the webhook intake ([src/index.ts], [src/sync/github.ts]) and the
    KV refresh scheduler ([src/data/kv-cache.ts]).

    Conventions.
    - A JavaScript string is a Rocq [string]; each character is read as a
      UTF-16 code unit below 256.  Paths are taken without the code units
      181 and 255, the two whose capital letter lies above 255.
    - A value stored by the sync workflow is a text or the empty blob, the
      two kinds of value its statements can bind ([Db.Value]).
    - A function that can throw returns an [outcome].
    - Stateful code is written in state-passing style: every operation
      takes the store and returns the new store, together with its
      outcome when it can throw.  A store keeps the writes made before
      the throwing statement, as D1 and KV do (no transaction spans the
      statements of one step). *)

From Stdlib Require Import ZArith List Bool Ascii String Lia.
From stdpp Require Import base option list gmap strings.

Import ListNotations.
Local Open Scope string_scope.

(** ** Exceptions *)

Inductive Exn :=
| TypeError          (* JavaScript TypeError *)
| SyntaxError        (* JSON.parse on a malformed body *)
| D1TypeError        (* D1_TYPE_ERROR raised by [bind] *)
| D1ConstraintError. (* SQLITE_CONSTRAINT raised by [run] *)

Inductive outcome (A : Type) :=
| Ok (a : A)
| Throw (e : Exn).
Arguments Ok {A} a.
Arguments Throw {A} e.

Definition obind {A B} (m : outcome A) (k : A -> outcome B) : outcome B :=
  match m with
  | Ok a => k a
  | Throw e => Throw e
  end.

Notation "'let*' x ':=' m 'in' k" := (obind m (fun x => k))
  (at level 10, x name, m at level 100, k at level 200).

(** ** JavaScript strings *)

Definition LF : ascii := ascii_of_nat 10.
Definition CR : ascii := ascii_of_nat 13.

(** [\s] of a regular expression and the characters removed by [trim],
    among the code units below 256. *)
Definition is_space (c : ascii) : bool :=
  let n := nat_of_ascii c in
  (Nat.leb 9 n && Nat.leb n 13) || Nat.eqb n 32 || Nat.eqb n 160.

(** Line terminators: what [.] of a regular expression does not match. *)
Definition is_line_terminator (c : ascii) : bool :=
  let n := nat_of_ascii c in Nat.eqb n 10 || Nat.eqb n 13.

(** [\d] *)
Definition is_digit (c : ascii) : bool :=
  let n := nat_of_ascii c in Nat.leb 48 n && Nat.leb n 57.

(** [\w] *)
Definition is_word (c : ascii) : bool :=
  let n := nat_of_ascii c in
  is_digit c || (Nat.leb 65 n && Nat.leb n 90) || (Nat.leb 97 n && Nat.leb n 122)
  || Nat.eqb n 95.

(** [[\w_-]] *)
Definition is_key_char (c : ascii) : bool :=
  is_word c || Ascii.eqb c "_" || Ascii.eqb c "-".

Definition is_quote (c : ascii) : bool :=
  Ascii.eqb c "'" || Nat.eqb (nat_of_ascii c) 34.

(** [s.startsWith(p)] *)
Fixpoint startsWith (p s : string) : bool :=
  match p, s with
  | EmptyString, _ => true
  | String a p', String b s' => Ascii.eqb a b && startsWith p' s'
  | String _ _, EmptyString => false
  end.

(** [s.includes(sub)] *)
Fixpoint includes (sub s : string) : bool :=
  startsWith sub s ||
  match s with
  | EmptyString => false
  | String _ s' => includes sub s'
  end.

(** [sub] occurs somewhere in [s]. *)
Definition contains (sub s : string) : Prop := exists a b, s = a ++ sub ++ b.

(** [s.endsWith(p)] *)
Fixpoint endsWith (p s : string) : bool :=
  String.eqb p s ||
  match s with
  | EmptyString => false
  | String _ s' => endsWith p s'
  end.

(** The rest of [s] after the prefix [p], when [s] starts with [p]. *)
Fixpoint strip_prefix (p s : string) : option string :=
  match p, s with
  | EmptyString, _ => Some s
  | String a p', String b s' => if Ascii.eqb a b then strip_prefix p' s' else None
  | String _ _, EmptyString => None
  end.

(** [s] without the suffix [p], when [s] ends with [p]. *)
Fixpoint strip_suffix (p s : string) : option string :=
  if String.eqb p s then Some EmptyString
  else match s with
       | EmptyString => None
       | String c s' => option_map (String c) (strip_suffix p s')
       end.

Fixpoint take_while (f : ascii -> bool) (s : string) : string :=
  match s with
  | EmptyString => EmptyString
  | String c s' => if f c then String c (take_while f s') else EmptyString
  end.

Fixpoint drop_while (f : ascii -> bool) (s : string) : string :=
  match s with
  | EmptyString => EmptyString
  | String c s' => if f c then drop_while f s' else s
  end.

Fixpoint str_exists (f : ascii -> bool) (s : string) : bool :=
  match s with
  | EmptyString => false
  | String c s' => f c || str_exists f s'
  end.

Fixpoint str_map (f : ascii -> ascii) (s : string) : string :=
  match s with
  | EmptyString => EmptyString
  | String c s' => String (f c) (str_map f s')
  end.

(** Whitespace removed at the end of a string. *)
Fixpoint trim_end (s : string) : string :=
  match s with
  | EmptyString => EmptyString
  | String c s' =>
      match trim_end s' with
      | EmptyString => if is_space c then EmptyString else String c EmptyString
      | t => String c t
      end
  end.

(** [s.trim()] *)
Definition trim (s : string) : string := trim_end (drop_while is_space s).

(** [s.split(c)] for a one-character separator: never the empty list. *)
Fixpoint split (sep : ascii) (s : string) : list string :=
  match s with
  | EmptyString => [EmptyString]
  | String c s' =>
      if Ascii.eqb c sep then EmptyString :: split sep s'
      else match split sep s' with
           | w :: ws => String c w :: ws
           | [] => [String c EmptyString]
           end
  end.

(** [parts.join(sep)] *)
Fixpoint join (sep : string) (parts : list string) : string :=
  match parts with
  | [] => EmptyString
  | [w] => w
  | w :: ws => w ++ sep ++ join sep ws
  end.

(** [s.slice(0, -1)] *)
Fixpoint drop_last (s : string) : string :=
  match s with
  | EmptyString => EmptyString
  | String c EmptyString => EmptyString
  | String c s' => String c (drop_last s')
  end.

Fixpoint last_char (s : string) : option ascii :=
  match s with
  | EmptyString => None
  | String c EmptyString => Some c
  | String _ s' => last_char s'
  end.

(** [s.slice(1, -1)] *)
Definition slice_1_m1 (s : string) : string :=
  match s with
  | EmptyString => EmptyString
  | String _ s' => drop_last s'
  end.

(** The replacement of a leading and of a trailing quote (single or
    double) by nothing: a quote in first position goes, and so does a quote
    in last position unless it is that same character. *)
Definition strip_quotes (s : string) : string :=
  let s1 := match s with
            | String c s' => if is_quote c then s' else s
            | EmptyString => s
            end in
  match last_char s1 with
  | Some c => if is_quote c then drop_last s1 else s1
  | None => s1
  end.

(** [c.toUpperCase()] on a string of one code unit: the letters a-z and
    the Latin-1 letters 224-254 (but 247, the division sign) move down by
    32, the sharp s (223) becomes the two letters SS, every other code unit
    below 256 stays.  The capitals of the code units 181 and 255 lie above
    255, outside the code units this development represents: paths are
    taken without these two characters. *)
Definition toUpperCase_char (c : ascii) : string :=
  let n := nat_of_ascii c in
  if Nat.eqb n 223 then "SS"
  else if (Nat.leb 97 n && Nat.leb n 122)
          || (Nat.leb 224 n && Nat.leb n 254 && negb (Nat.eqb n 247))
  then String (ascii_of_nat (n - 32)) EmptyString
  else String c EmptyString.

(** [w.charAt(0).toUpperCase() + w.slice(1)] *)
Definition capitalise (w : string) : string :=
  match w with
  | EmptyString => EmptyString
  | String c w' => toUpperCase_char c ++ w'
  end.

(** *** Numbers and strings *)

Local Open Scope Z_scope.

(** The decimal digits of a natural number, least significant first. *)
Fixpoint digits_le (fuel : nat) (n : Z) : list Z :=
  match fuel with
  | O => []
  | S f => if n <? 10 then [n] else (n mod 10) :: digits_le f (n / 10)
  end.

(** The number written by digits given least significant first. *)
Definition value_le (ds : list Z) : Z := fold_right (fun d acc => d + 10 * acc) 0 ds.

Definition digit_char (d : Z) : ascii := ascii_of_nat (48 + Z.to_nat d).

Definition nat_digits (n : Z) : string :=
  string_of_list_ascii
    (rev (List.map digit_char (digits_le (S (Z.to_nat (Z.log2 n))) n))).

(** [n.toString()] for an integer [n] (below the range where JavaScript
    switches to exponent notation). *)
Definition Number_toString (n : Z) : string :=
  if n <? 0 then String "-" (nat_digits (- n)) else nat_digits n.

Fixpoint digits_value (s : string) (acc : Z) : Z :=
  match s with
  | EmptyString => acc
  | String c s' => digits_value s' (acc * 10 + (Z.of_nat (nat_of_ascii c) - 48))
  end.

(** [parseInt(s, 10)]: leading whitespace, a sign, then the longest run of
    digits; [None] is NaN.  (Exact integers: the rounding of JavaScript
    numbers above 2^53 is not modelled.) *)
Definition parseInt (s : string) : option Z :=
  let s1 := drop_while is_space s in
  let '(negative, s2) :=
    match s1 with
    | String c r =>
        if Ascii.eqb c "-" then (true, r)
        else if Ascii.eqb c "+" then (false, r)
        else (false, s1)
    | EmptyString => (false, s1)
    end in
  match take_while is_digit s2 with
  | EmptyString => None
  | ds => Some (if negative then - digits_value ds 0 else digits_value ds 0)
  end.

Local Close Scope Z_scope.

(** Truthiness of a string. *)
Definition truthy (s : string) : bool := negb (String.eqb s "").

(** ** Frontmatter parser ([src/sync/parser.ts]) *)

Module Parser.

(** The lazy capture of the frontmatter pattern: the text before the first
    place where CR LF [---] or LF [---] begins. *)
Fixpoint find_close (s : string) : option string :=
  if startsWith (String CR (String LF "---")) s || startsWith (String LF "---") s
  then Some EmptyString
  else match s with
       | EmptyString => None
       | String c s' => option_map (String c) (find_close s')
       end.

(** The first group of the frontmatter pattern: [---] at the start of the
    content, an optional CR, LF, the lazy capture, an optional CR, LF,
    [---]. *)
Definition frontmatter_block (content : string) : option string :=
  match strip_prefix "---" content with
  | None => None
  | Some r =>
      let r1 := match r with
                | String c r' => if Ascii.eqb c CR then r' else r
                | EmptyString => r
                end in
      match r1 with
      | String c r2 => if Ascii.eqb c LF then find_close r2 else None
      | EmptyString => None
      end
  end.

(** The match of a line against the list-item pattern (whitespace, a dash,
    whitespace, at the start): the rest of the line after the match, which
    is also the line with the match replaced by nothing. *)
Definition match_list_item (line : string) : option string :=
  match line with
  | String c _ =>
      if is_space c then
        match drop_while is_space line with
        | String d r =>
            if Ascii.eqb d "-" then
              match r with
              | String e _ => if is_space e then Some (drop_while is_space r) else None
              | EmptyString => None
              end
            else None
        | EmptyString => None
        end
      else None
  | EmptyString => None
  end.

(** The match of a line against the key-value pattern: a word character,
    then word characters, underscores and dashes, a colon, whitespace, and
    the rest up to a line terminator.  Returns the two groups. *)
Definition kv_match (line : string) : option (string * string) :=
  match line with
  | String c r =>
      if is_word c then
        match drop_while is_key_char r with
        | String d r2 =>
            if Ascii.eqb d ":" then
              Some (String c (take_while is_key_char r),
                    take_while (fun x => negb (is_line_terminator x))
                               (drop_while is_space r2))
            else None
        | EmptyString => None
        end
      else None
  | EmptyString => None
  end.

(** Values held by the object [result] while [parseYamlSimple] runs.  An
    array is a reference into the heap of arrays: the array [currentList]
    is stored under its key when it is created and pushed to afterwards,
    and so is an inline list that list items follow. *)
Inductive Val :=
| VStr (s : string)
| VArr (a : nat).

Record PState := mkPState {
  result : gmap string Val;       (* own properties of [result] *)
  proto : option nat;             (* its prototype, once replaced by an array *)
  heap : list (list string);      (* the arrays allocated so far *)
  currentKey : option string;
  currentList : option nat;
}.

Definition init : PState :=
  {| result := ∅; proto := None; heap := []; currentKey := None; currentList := None |}.

(** What [result[k]] reads. *)
Inductive Slot :=
| SUndefined
| SString (s : string)
| SArray (a : nat)
| SObjectPrototype.

(** [result[k]].  The key [__proto__] is the accessor of [Object.prototype]:
    it reads the prototype.  Any other key is read as an own property; the
    parser reads a key only after it has assigned it. *)
Definition obj_get (st : PState) (k : string) : Slot :=
  if String.eqb k "__proto__" then
    match proto st with
    | Some a => SArray a
    | None => SObjectPrototype
    end
  else
    match result st !! k with
    | Some (VStr s) => SString s
    | Some (VArr a) => SArray a
    | None => SUndefined
    end.

(** [result[k] = v].  Assigning a string to [__proto__] does nothing,
    assigning an array replaces the prototype. *)
Definition obj_set (k : string) (v : Val) (st : PState) : PState :=
  if String.eqb k "__proto__" then
    match v with
    | VArr a => {| result := result st; proto := Some a; heap := heap st;
                   currentKey := currentKey st; currentList := currentList st |}
    | VStr _ => st
    end
  else {| result := <[k := v]> (result st); proto := proto st; heap := heap st;
          currentKey := currentKey st; currentList := currentList st |}.

(** A new array; its address is the next free one. *)
Definition alloc (l : list string) (st : PState) : nat * PState :=
  (length (heap st),
   {| result := result st; proto := proto st; heap := (heap st ++ [l])%list;
      currentKey := currentKey st; currentList := currentList st |}).

(** [array.push(x)] on the array at address [a]. *)
Definition push (a : nat) (x : string) (st : PState) : PState :=
  {| result := result st; proto := proto st;
     heap := alter (fun l => (l ++ [x])%list) a (heap st);
     currentKey := currentKey st; currentList := currentList st |}.

Definition set_currentKey (k : option string) (st : PState) : PState :=
  {| result := result st; proto := proto st; heap := heap st;
     currentKey := k; currentList := currentList st |}.

Definition set_currentList (l : option nat) (st : PState) : PState :=
  {| result := result st; proto := proto st; heap := heap st;
     currentKey := currentKey st; currentList := l |}.

(** [if (currentList !== null && currentKey) result[currentKey] = currentList],
    at the end of [parseYamlSimple]. *)
Definition flush (st : PState) : PState :=
  match currentList st, currentKey st with
  | Some a, Some k => if truthy k then obj_set k (VArr a) st else st
  | _, _ => st
  end.

(** The same test at the head of the key-value branch, where the body also
    resets [currentList] to [null]. *)
Definition flush_and_reset (st : PState) : PState :=
  match currentList st, currentKey st with
  | Some a, Some k => if truthy k then set_currentList None (obj_set k (VArr a) st) else st
  | _, _ => st
  end.

(** [value.slice(1, -1).split(',')], each part trimmed and then stripped of
    its quotes. *)
Definition inline_list (value : string) : list string :=
  List.map (fun v => strip_quotes (trim v)) (split "," (slice_1_m1 value)).

(** The body of the loop of [parseYamlSimple], for one line. *)
Definition step (st : PState) (line : string) : outcome PState :=
  match match_list_item line with
  | Some rest =>
      let itemLine := trim rest in
      match currentList st with
      | Some a => Ok (push a itemLine st)
      | None =>
          match currentKey st with
          | Some k =>
              if truthy k then
                match obj_get st k with
                | SUndefined | SString "" =>
                    let '(a, st1) := alloc [] st in
                    Ok (push a itemLine (obj_set k (VArr a) st1))
                | SArray a => Ok (push a itemLine st)
                | SString _ | SObjectPrototype => Throw TypeError
                end
              else Ok st
          | None => Ok st
          end
      end
  | None =>
      match kv_match line with
      | Some (key, rest) =>
          let st1 := set_currentKey (Some key) (flush_and_reset st) in
          let value := trim rest in
          if String.eqb value "" || String.eqb value "|" || String.eqb value ">" then
            let '(a, st2) := alloc [] st1 in
            Ok (obj_set key (VArr a) (set_currentList (Some a) st2))
          else if startsWith "[" value && endsWith "]" value then
            let '(a, st2) := alloc (inline_list value) st1 in
            Ok (obj_set key (VArr a) st2)
          else
            Ok (set_currentList None (obj_set key (VStr (strip_quotes value)) st1))
      | None => Ok st
      end
  end.

Fixpoint run (st : PState) (lines : list string) : outcome PState :=
  match lines with
  | [] => Ok st
  | line :: rest =>
      match step st line with
      | Ok st' => run st' rest
      | Throw e => Throw e
      end
  end.

(** A value of the frontmatter record once parsing is over. *)
Inductive JsVal :=
| JStr (s : string)
| JArr (l : list string).

(** The object returned by [parseYamlSimple]: the final state, read through
    [fm_get]. *)
Definition parseYamlSimple (yaml : string) : outcome PState :=
  let* st := run init (split LF yaml) in Ok (flush st).

(** [fm.k] for one of the property names the callers read; none of them is
    [__proto__] or a property of an array, so only own properties count.
    [None] is [undefined]. *)
Definition fm_get (fm : PState) (k : string) : option JsVal :=
  match result fm !! k with
  | Some (VStr s) => Some (JStr s)
  | Some (VArr a) => Some (JArr (default [] (heap fm !! a)))
  | None => None
  end.

Definition extractFrontmatter (content : string) : outcome (option PState) :=
  match frontmatter_block content with
  | None => Ok None
  | Some yaml => let* fm := parseYamlSimple yaml in Ok (Some fm)
  end.

Inductive DocType := agreement | policy | proposal | other.
Inductive DocStatus := draft | active | superseded | retired.
Inductive EntityType := hat | address | group.

Record Relationship := mkRel { rel_type : string; targetSlug : string }.
Record ScopeEntry := mkScope { entityType : EntityType; entityId : string }.

Record ParsedDocument := mkParsed {
  p_id : JsVal;
  p_slug : string;
  p_type : DocType;
  p_title : JsVal;
  p_status : DocStatus;
  p_effectiveFrom : option JsVal;
  p_effectiveTo : option JsVal;
  p_enactedBy : option JsVal;
  p_domains : list string;
  p_relationships : list Relationship;
  p_scope : list ScopeEntry;
}.

Definition set_relationships (rels : list Relationship) (p : ParsedDocument)
  : ParsedDocument :=
  {| p_id := p_id p; p_slug := p_slug p; p_type := p_type p; p_title := p_title p;
     p_status := p_status p; p_effectiveFrom := p_effectiveFrom p;
     p_effectiveTo := p_effectiveTo p; p_enactedBy := p_enactedBy p;
     p_domains := p_domains p; p_relationships := rels; p_scope := p_scope p |}.

(** [a ?? b] *)
Definition nullish {A} (a b : option A) : option A :=
  match a with
  | Some _ => a
  | None => b
  end.

Definition normaliseType (raw : option JsVal) : DocType :=
  match raw with
  | Some (JStr "agreement") => agreement
  | Some (JStr "policy") => policy
  | Some (JStr "proposal") => proposal
  | _ => other
  end.

Definition normaliseStatus (raw : option JsVal) : DocStatus :=
  match raw with
  | Some (JStr "active") => active
  | Some (JStr "draft") => draft
  | Some (JStr "superseded") => superseded
  | Some (JStr "retired") => retired
  | _ => draft
  end.

Definition normaliseDomains (raw : JsVal) : list string :=
  match raw with
  | JStr s => if truthy s then [s] else []
  | JArr l => List.filter truthy l
  end.

(** The match of an item against the pattern word characters, colon,
    whitespace, one or more characters other than line terminators, with
    the second group trimmed.  When only whitespace follows the colon, the
    whitespace run gives characters back until the last group can take one
    that is not a line terminator; the group is then whitespace and trims
    to the empty string. *)
Definition match_relationship (item : string) : option Relationship :=
  match take_while is_word item with
  | EmptyString => None
  | ty =>
      match drop_while is_word item with
      | String d r =>
          if Ascii.eqb d ":" then
            match drop_while is_space r with
            | EmptyString =>
                if str_exists (fun c => negb (is_line_terminator c)) r
                then Some (mkRel ty EmptyString) else None
            | r' => Some (mkRel ty (trim (take_while (fun c => negb (is_line_terminator c)) r')))
            end
          else None
      | EmptyString => None
      end
  end.

(** Every element the metadata parser puts in an array is a string, so the
    object branch of the source is never taken. *)
Definition normaliseRelationships (raw : JsVal) : list Relationship :=
  match raw with
  | JStr _ => []
  | JArr l => flat_map (fun item => match match_relationship item with
                                    | Some r => [r]
                                    | None => []
                                    end) l
  end.

Definition normaliseScope (raw : JsVal) : list ScopeEntry :=
  match raw with
  | JStr _ => []
  | JArr l =>
      List.map (fun item =>
        if startsWith "0x" item then mkScope address item
        else match item with
             | String c _ => if is_digit c then mkScope hat item else mkScope group item
             | EmptyString => mkScope group item
             end) l
  end.

(** The suffix [.md] replaced by nothing. *)
Definition strip_md (s : string) : string := default s (strip_suffix ".md" s).

(** Every slash replaced by a dash. *)
Definition slashes_to_dashes (s : string) : string :=
  str_map (fun c => if Ascii.eqb c "/" then "-"%char else c) s.

(** A leading [agreements/], [policies/] or [proposals/] replaced by
    nothing. *)
Definition strip_collection (path : string) : string :=
  match strip_prefix "agreements/" path with
  | Some r => r
  | None =>
      match strip_prefix "policies/" path with
      | Some r => r
      | None => default path (strip_prefix "proposals/" path)
      end
  end.

Definition pathToSlug (path : string) : string :=
  slashes_to_dashes (strip_md (strip_collection path)).

Definition titleFromPath (path : string) : string :=
  join " " (List.map capitalise (split "-" (pathToSlug path))).

(** The guard at the head of [parseGovernanceDocument]. *)
Definition excluded (path : string) : bool :=
  includes "README" path || includes "template" path || includes "_" path.

Definition parseGovernanceDocument (path content : string)
  : outcome (option ParsedDocument) :=
  if excluded path then Ok None
  else
    let* fmo := extractFrontmatter content in
    match fmo with
    | None => Ok None
    | Some fm =>
        let slug := pathToSlug path in
        Ok (Some {|
          p_id := default (JStr slug) (fm_get fm "id");
          p_slug := slug;
          p_type := normaliseType (fm_get fm "type");
          p_title := default (JStr (titleFromPath path)) (fm_get fm "title");
          p_status := normaliseStatus (fm_get fm "status");
          p_effectiveFrom := nullish (fm_get fm "effective_from") (fm_get fm "effectiveFrom");
          p_effectiveTo := nullish (fm_get fm "effective_to") (fm_get fm "effectiveTo");
          p_enactedBy := nullish (fm_get fm "enacted_by") (fm_get fm "enactedBy");
          p_domains :=
            normaliseDomains
              (default (JArr []) (nullish (fm_get fm "domain") (fm_get fm "domains")));
          p_relationships :=
            normaliseRelationships
              (default (JArr []) (nullish (fm_get fm "related") (fm_get fm "relationships")));
          p_scope := normaliseScope (default (JArr []) (fm_get fm "scope"));
        |})
    end.

End Parser.

(** ** The relational store ([migrations/0001_initial.sql])

    A table is the list of its rows in insertion order.  The tables
    [document_versions] and [document_scope] are never read or written by
    the code modelled here and are left out.  [datetime('now')] is the
    clock reading [now] handed to the statement. *)

Module Db.

Import Parser.

(** A value stored in a column that the sync workflow fills from the
    frontmatter record.  The columns are declared TEXT; SQLite keeps a blob
    bound to such a column as a blob.  The one blob the workflow can bind is
    the empty one (see [bind_value]). *)
Inductive Value :=
  | Text (s : string)
  | EmptyBlob.

(** [a = b] of SQLite on two such values: a blob is never equal to a text. *)
Definition value_eqb (a b : Value) : bool :=
  match a, b with
  | Text x, Text y => String.eqb x y
  | EmptyBlob, EmptyBlob => true
  | _, _ => false
  end.

(** What a template literal makes of the value as D1 hands it to the
    Worker: a text is a string, the empty blob is the empty array, which
    prints as the empty string. *)
Definition js_text (v : Value) : string :=
  match v with
  | Text s => s
  | EmptyBlob => ""
  end.

Record DocumentRow := mkDocument {
  doc_id : Value;                       (* TEXT PRIMARY KEY *)
  doc_slug : string;                    (* TEXT NOT NULL UNIQUE *)
  doc_type : DocType;                   (* CHECK (type IN (...)) *)
  doc_title : Value;
  doc_status : DocStatus;               (* CHECK (status IN (...)) *)
  doc_effective_from : option Value;
  doc_effective_to : option Value;
  doc_content_hash : option string;
  doc_enacted_by : option Value;
  doc_r2_key : option string;
  doc_created_at : string;
  doc_updated_at : string;
}.

Inductive DomainType := entity | trust_zone | governance_function.

Record DomainRow := mkDomain {
  dom_id : string;                      (* TEXT PRIMARY KEY *)
  dom_slug : string;                    (* TEXT NOT NULL UNIQUE *)
  dom_name : string;
  dom_domain_type : DomainType;
  dom_parent_id : option string;
  dom_hat_id : option string;
  dom_description : option string;
  dom_created_at : string;
}.

Record DocumentDomainRow := mkDocumentDomain {
  dd_document_id : Value;               (* REFERENCES documents(id) *)
  dd_domain_id : string;                (* REFERENCES domains(id) *)
}.                                      (* PRIMARY KEY (document_id, domain_id) *)

Record RelationshipRow := mkRelationship {
  dr_id : string;                       (* TEXT PRIMARY KEY *)
  dr_from_id : Value;                   (* REFERENCES documents(id) *)
  dr_to_id : Value;                     (* REFERENCES documents(id) *)
  dr_relationship_type : string;        (* CHECK (relationship_type IN (...)) *)
  dr_created_at : string;
}.

Record D1 := mkD1 {
  documents : list DocumentRow;
  domains : list DomainRow;
  document_domains : list DocumentDomainRow;
  document_relationships : list RelationshipRow;
}.

(** The rows inserted by the seed statement of the migration. *)
Definition seed_domains (now : string) : list DomainRow :=
  [ mkDomain "dom-metagov" "metagovernance" "Metagovernance" governance_function
      None None (Some "DAO-level governance rules and amendment processes") now;
    mkDomain "dom-operations" "operations" "Operations" governance_function
      None None (Some "Day-to-day contributor and operational policies") now;
    mkDomain "dom-platforms" "platforms" "Platform Administration" governance_function
      None None (Some "Digital infrastructure and platform management") now;
    mkDomain "dom-dao-core" "dao-core" "DAO Core" entity
      None None (Some "Top-level DAO entity and agreements") now;
    mkDomain "dom-treasury" "treasury" "Treasury" governance_function
      None None (Some "Financial management and resource allocation") now ].

(** The store right after the migration. *)
Definition migrated (now : string) : D1 :=
  {| documents := []; domains := seed_domains now;
     document_domains := []; document_relationships := [] |}.

(** The CHECK constraint of [document_relationships.relationship_type]. *)
Definition valid_relationship_type (t : string) : bool :=
  String.eqb t "authorized_by" || String.eqb t "implements"
  || String.eqb t "supersedes" || String.eqb t "references"
  || String.eqb t "evaluates" || String.eqb t "fulfills".

(** [bind] of D1 on a value of the frontmatter record.  A string is sent
    as TEXT.  An array is sent as a blob when each of its elements is a
    number between 0 and 255 and is refused otherwise; the elements of the
    record's arrays are strings, so the empty array (what a key with a
    blank value parses to) is sent as the empty blob and every other array
    is refused. *)
Definition bind_value (v : JsVal) : outcome Value :=
  match v with
  | JStr s => Ok (Text s)
  | JArr [] => Ok EmptyBlob
  | JArr (_ :: _) => Throw D1TypeError
  end.

(** [bind] on [v ?? null]. *)
Definition bind_nullable (v : option JsVal) : outcome (option Value) :=
  match v with
  | None => Ok None
  | Some v => let* s := bind_value v in Ok (Some s)
  end.

Definition has_slug (slug : string) (r : DocumentRow) : bool := String.eqb (doc_slug r) slug.
Definition has_id (id : Value) (r : DocumentRow) : bool := value_eqb (doc_id r) id.

(** The SET clause of the upsert. *)
Definition overwrite (title : Value) (status : DocStatus)
    (effective_from effective_to enacted_by : option Value)
    (r2_key now : string) (r : DocumentRow) : DocumentRow :=
  {| doc_id := doc_id r; doc_slug := doc_slug r; doc_type := doc_type r;
     doc_title := title; doc_status := status;
     doc_effective_from := effective_from; doc_effective_to := effective_to;
     doc_content_hash := doc_content_hash r;
     doc_enacted_by := enacted_by; doc_r2_key := Some r2_key;
     doc_created_at := doc_created_at r; doc_updated_at := now |}.

(** INSERT INTO documents (...) VALUES (...) ON CONFLICT(slug) DO UPDATE SET
    ...: a row with that slug is updated in place; otherwise the row is
    inserted, unless its primary key is taken. *)
Definition upsert_documents (now : string) (id : Value) (slug : string) (type : DocType)
    (title : Value) (status : DocStatus)
    (effective_from effective_to enacted_by : option Value)
    (r2_key : string) (db : D1) : outcome D1 :=
  if existsb (has_slug slug) (documents db) then
    Ok {| documents :=
            List.map (fun r => if has_slug slug r
                               then overwrite title status effective_from effective_to
                                              enacted_by r2_key now r
                               else r) (documents db);
          domains := domains db;
          document_domains := document_domains db;
          document_relationships := document_relationships db |}
  else if existsb (has_id id) (documents db) then Throw D1ConstraintError
  else
    Ok {| documents :=
            (documents db ++
             [ {| doc_id := id; doc_slug := slug; doc_type := type; doc_title := title;
                  doc_status := status; doc_effective_from := effective_from;
                  doc_effective_to := effective_to; doc_content_hash := None;
                  doc_enacted_by := enacted_by; doc_r2_key := Some r2_key;
                  doc_created_at := now; doc_updated_at := now |} ])%list;
          domains := domains db;
          document_domains := document_domains db;
          document_relationships := document_relationships db |}.

(** SELECT id FROM domains WHERE slug = ?, first row. *)
Definition select_domain (slug : string) (db : D1) : option DomainRow :=
  List.find (fun d => String.eqb (dom_slug d) slug) (domains db).

(** SELECT id FROM documents WHERE slug = ?, first row. *)
Definition select_document (slug : string) (db : D1) : option DocumentRow :=
  List.find (has_slug slug) (documents db).

Definition same_link (document_id : Value) (domain_id : string) (l : DocumentDomainRow)
  : bool :=
  value_eqb (dd_document_id l) document_id && String.eqb (dd_domain_id l) domain_id.

(** INSERT OR IGNORE INTO document_domains: a row with the same primary
    key is skipped; a foreign key without its row aborts the statement. *)
Definition insert_document_domain (document_id : Value) (domain_id : string) (db : D1)
  : outcome D1 :=
  if existsb (same_link document_id domain_id) (document_domains db) then Ok db
  else if existsb (has_id document_id) (documents db)
          && existsb (fun d => String.eqb (dom_id d) domain_id) (domains db)
  then Ok {| documents := documents db; domains := domains db;
             document_domains :=
               (document_domains db ++ [mkDocumentDomain document_id domain_id])%list;
             document_relationships := document_relationships db |}
  else Throw D1ConstraintError.

(** INSERT OR IGNORE INTO document_relationships: a row that fails the
    CHECK constraint or repeats a primary key is skipped; a foreign key
    without its row aborts the statement. *)
Definition insert_relationship (now id : string) (from_id to_id : Value) (type : string)
    (db : D1) : outcome D1 :=
  if negb (valid_relationship_type type) then Ok db
  else if existsb (fun r => String.eqb (dr_id r) id) (document_relationships db) then Ok db
  else if existsb (has_id from_id) (documents db) && existsb (has_id to_id) (documents db)
  then Ok {| documents := documents db; domains := domains db;
             document_domains := document_domains db;
             document_relationships :=
               (document_relationships db ++ [mkRelationship id from_id to_id type now])%list |}
  else Throw D1ConstraintError.

Definition retire (now : string) (r : DocumentRow) : DocumentRow :=
  {| doc_id := doc_id r; doc_slug := doc_slug r; doc_type := doc_type r;
     doc_title := doc_title r; doc_status := retired;
     doc_effective_from := doc_effective_from r; doc_effective_to := doc_effective_to r;
     doc_content_hash := doc_content_hash r;
     doc_enacted_by := doc_enacted_by r; doc_r2_key := doc_r2_key r;
     doc_created_at := doc_created_at r; doc_updated_at := now |}.

(** UPDATE documents SET status = 'retired', updated_at = datetime('now')
    WHERE slug = ? *)
Definition update_retired (now slug : string) (db : D1) : D1 :=
  {| documents := List.map (fun r => if has_slug slug r then retire now r else r) (documents db);
     domains := domains db;
     document_domains := document_domains db;
     document_relationships := document_relationships db |}.

(** A row whose [updated_at] alone is set. *)
Definition touch (now : string) (r : DocumentRow) : DocumentRow :=
  {| doc_id := doc_id r; doc_slug := doc_slug r; doc_type := doc_type r;
     doc_title := doc_title r; doc_status := doc_status r;
     doc_effective_from := doc_effective_from r; doc_effective_to := doc_effective_to r;
     doc_content_hash := doc_content_hash r;
     doc_enacted_by := doc_enacted_by r; doc_r2_key := doc_r2_key r;
     doc_created_at := doc_created_at r; doc_updated_at := now |}.

(** The store with [updated_at] set on the rows of a slug. *)
Definition touch_slug (now slug : string) (db : D1) : D1 :=
  {| documents := List.map (fun r => if has_slug slug r then touch now r else r) (documents db);
     domains := domains db;
     document_domains := document_domains db;
     document_relationships := document_relationships db |}.

(** The UNIQUE constraint on [documents.slug]. *)
Definition unique_slugs (db : D1) : Prop := NoDup (List.map doc_slug (documents db)).

(** *** Detail queries ([src/data/db.ts]) *)

Definition queryDocumentDomains (db : D1) (documentId : Value) : list DomainRow :=
  List.filter (fun dom =>
      existsb (fun l => String.eqb (dd_domain_id l) (dom_id dom)
                        && value_eqb (dd_document_id l) documentId)
              (document_domains db))
    (domains db).

Definition queryDocumentRelationships (db : D1) (documentId : Value) : list RelationshipRow :=
  List.filter (fun r => value_eqb (dr_from_id r) documentId
                        || value_eqb (dr_to_id r) documentId)
    (document_relationships db).

Record DocumentWithDomains := mkDetail {
  det_doc : DocumentRow;
  det_domains : list DomainRow;
  det_relationships : list RelationshipRow;
}.

Definition is_type (t : DocType) (r : DocumentRow) : bool :=
  match t, doc_type r with
  | agreement, agreement | policy, policy | proposal, proposal | other, other => true
  | _, _ => false
  end.

(** SELECT * FROM documents WHERE (id = ? OR slug = ?) AND type = t, first
    row, with its domains and relationships.  The parameter is a string of
    the request, bound as TEXT; the id of the row found is bound as D1
    returned it. *)
Definition queryDetail (t : DocType) (db : D1) (idOrSlug : string) : option DocumentWithDomains :=
  match List.find (fun r => (has_id (Text idOrSlug) r || has_slug idOrSlug r) && is_type t r)
                  (documents db) with
  | None => None
  | Some doc =>
      Some (mkDetail doc (queryDocumentDomains db (doc_id doc))
                     (queryDocumentRelationships db (doc_id doc)))
  end.

Definition queryAgreementDetail := queryDetail agreement.
Definition queryPolicyDetail := queryDetail policy.

End Db.

(** ** Sync workflow ([src/sync/workflow.ts]) *)

Module Workflow.

Import Parser Db.

(** An object of the content mirror with its custom metadata. *)
Record R2Object := mkR2Object {
  r2_body : string;
  r2_commitSha : string;
  r2_syncedAt : string;
}.

Record Env := mkEnv {
  GOVERNANCE_CONTENT : gmap string R2Object;
  GOVERNANCE_DB : D1;
}.

(** The two readings of the clock taken by a step. *)
Record Instant := mkInstant {
  toISOString : string;   (* new Date().toISOString() *)
  datetime_now : string;  (* datetime('now') *)
}.

(** The loop over [domains]: unknown domain slugs are skipped. *)
Fixpoint link_domains (id : Value) (slugs : list string) (db : D1) : D1 * outcome unit :=
  match slugs with
  | [] => (db, Ok tt)
  | domainSlug :: rest =>
      match select_domain domainSlug db with
      | Some domain =>
          match insert_document_domain id (dom_id domain) db with
          | Ok db' => link_domains id rest db'
          | Throw e => (db, Throw e)
          end
      | None => link_domains id rest db
      end
  end.

(** The identifier of an edge: the template literal of the document's id,
    the relationship type and the id read from the target's row. *)
Definition relId (id : Value) (rel : Relationship) (target : DocumentRow) : string :=
  js_text id ++ ":" ++ rel_type rel ++ ":" ++ js_text (doc_id target).

(** The loop over [relationships]: unknown target slugs are skipped. *)
Fixpoint link_relationships (now : string) (id : Value) (rels : list Relationship) (db : D1)
  : D1 * outcome unit :=
  match rels with
  | [] => (db, Ok tt)
  | rel :: rest =>
      match select_document (targetSlug rel) db with
      | Some target =>
          match insert_relationship now (relId id rel target) id (doc_id target)
                  (rel_type rel) db with
          | Ok db' => link_relationships now id rest db'
          | Throw e => (db, Throw e)
          end
      | None => link_relationships now id rest db
      end
  end.

(** Every known domain of [slugs] is linked to the document [id]. *)
Definition domains_linked (id : Value) (slugs : list string) (db : D1) : Prop :=
  Forall (fun s => forall d, select_domain s db = Some d ->
            existsb (same_link id (dom_id d)) (document_domains db) = true) slugs.

(** Every relationship of [rels] whose target is known either has a type
    outside the vocabulary or has its edge stored. *)
Definition relationships_linked (id : Value) (rels : list Relationship) (db : D1) : Prop :=
  Forall (fun rel => forall t, select_document (targetSlug rel) db = Some t ->
            valid_relationship_type (rel_type rel) = false \/
            existsb (fun r => String.eqb (dr_id r) (relId id rel t))
                    (document_relationships db) = true) rels.

(** The parameters bound by the first statement, in the order of [bind]. *)
Definition bind_document (parsed : ParsedDocument)
  : outcome (Value * Value * option Value * option Value * option Value) :=
  let* id := bind_value (p_id parsed) in
  let* title := bind_value (p_title parsed) in
  let* effective_from := bind_nullable (p_effectiveFrom parsed) in
  let* effective_to := bind_nullable (p_effectiveTo parsed) in
  let* enacted_by := bind_nullable (p_enactedBy parsed) in
  Ok (id, title, effective_from, effective_to, enacted_by).

(** [upsertDocument].  The scope entries of the record are not stored: the
    source destructures [scope] and does not use it. *)
Definition upsertDocument (now : string) (db : D1) (parsed : option ParsedDocument)
    (r2Key : string) : D1 * outcome unit :=
  match parsed with
  | None => (db, Ok tt)
  | Some parsed =>
      match bind_document parsed with
      | Throw e => (db, Throw e)
      | Ok (id, title, effective_from, effective_to, enacted_by) =>
          match upsert_documents now id (p_slug parsed) (p_type parsed) title
                  (p_status parsed) effective_from effective_to enacted_by r2Key db with
          | Throw e => (db, Throw e)
          | Ok db1 =>
              match link_domains id (p_domains parsed) db1 with
              | (db2, Throw e) => (db2, Throw e)
              | (db2, Ok _) => link_relationships now id (p_relationships parsed) db2
              end
          end
      end
  end.

(** The slug computed on the deletion side: [proposals/] is not among the
    prefixes it removes. *)
Definition strip_collection (path : string) : string :=
  match strip_prefix "agreements/" path with
  | Some r => r
  | None => default path (strip_prefix "policies/" path)
  end.

Definition pathToSlug (path : string) : string :=
  slashes_to_dashes (strip_md (strip_collection path)).

Definition deleteDocument (now : string) (db : D1) (path : string) : D1 :=
  update_retired now (pathToSlug path) db.

(** The step [sync-file:path] of [run]. *)
Definition sync_file (commitSha : string) (t : Instant) (path content : string) (env : Env)
  : Env * outcome unit :=
  let r2Key := "governance/" ++ path in
  let mirror := <[r2Key := mkR2Object content commitSha (toISOString t)]> (GOVERNANCE_CONTENT env) in
  match parseGovernanceDocument path content with
  | Throw e => (mkEnv mirror (GOVERNANCE_DB env), Throw e)
  | Ok None => (mkEnv mirror (GOVERNANCE_DB env), Ok tt)
  | Ok (Some parsed) =>
      let '(db, r) := upsertDocument (datetime_now t) (GOVERNANCE_DB env) (Some parsed) r2Key in
      (mkEnv mirror db, r)
  end.

(** The step [delete-file:path] of [run]. *)
Definition delete_file (t : Instant) (path : string) (env : Env) : Env :=
  let r2Key := "governance/" ++ path in
  mkEnv (delete r2Key (GOVERNANCE_CONTENT env))
        (deleteDocument (datetime_now t) (GOVERNANCE_DB env) path).

End Workflow.

(** ** Sorting

    A stable sort by insertion: elements that compare equal keep the order
    they had in the list. *)

Fixpoint insert_by {A} (leb : A -> A -> bool) (x : A) (l : list A) : list A :=
  match l with
  | [] => [x]
  | y :: l' => if leb x y then x :: l else y :: insert_by leb x l'
  end.

Fixpoint order_by {A} (leb : A -> A -> bool) (l : list A) : list A :=
  match l with
  | [] => []
  | x :: l' => insert_by leb x (order_by leb l')
  end.

(** ** Workers KV

    A namespace maps a key to a value and the time at which it expires.
    Times are milliseconds since the epoch, the unit of [Date.now()]; the
    same reading serves the handler and the namespace.  Only writes with
    [expirationTtl] occur in the code. *)

Module KV.

Local Open Scope Z_scope.

Record Entry := mkEntry {
  value : string;
  expiration : Z;
}.

(** [namespace.get(key)] at time [now]: an expired key reads as [null]. *)
Definition get (now : Z) (ns : gmap string Entry) (key : string) : option string :=
  match ns !! key with
  | Some e => if now <? expiration e then Some (value e) else None
  | None => None
  end.

(** [namespace.put(key, v, { expirationTtl })], the TTL in seconds. *)
Definition put (now : Z) (key v : string) (expirationTtl : Z) (ns : gmap string Entry)
  : gmap string Entry :=
  <[key := mkEntry v (now + expirationTtl * 1000)]> ns.

End KV.

(** ** Webhook intake ([src/index.ts], [src/sync/github.ts]) *)

Module Webhook.

Record Commit := mkCommit {
  commit_id : string;
  message : string;
  added : list string;
  modified : list string;
  removed : list string;
}.

Record GitHubPushEvent := mkPush {
  ref : string;
  after : string;
  before : string;
  commits : list Commit;
  repository_full_name : string;
}.

(** The parameters of one instance of the sync workflow. *)
Record SyncParams := mkSyncParams {
  changedFiles : list string;
  deletedFiles : list string;
  commitSha : string;
}.

(** What the handler reads of the request. *)
Record Request := mkRequest {
  body : string;
  x_hub_signature_256 : option string;
  x_github_delivery : option string;
}.

Inductive Response :=
| InvalidSignature                          (* 403 *)
| Duplicate (deliveryId : string)           (* status: duplicate *)
| Ignored (reason : string)                 (* status: ignored *)
| Accepted (changed deleted : nat).         (* status: ok *)

Record State := mkState {
  SYNC_STATE : gmap string KV.Entry;
  GOVERNANCE_SYNC : list SyncParams;        (* the instances created, oldest first *)
}.

(** The loop of [timingSafeEqual]: the OR of the XORs of the code units. *)
Fixpoint xor_fold (a b : string) (acc : N) : N :=
  match a, b with
  | String x a', String y b' =>
      xor_fold a' b' (N.lor acc (N.lxor (N_of_ascii x) (N_of_ascii y)))
  | _, _ => acc
  end.

Definition timingSafeEqual (a b : string) : bool :=
  if negb (Nat.eqb (String.length a) (String.length b)) then false
  else N.eqb (xor_fold a b 0%N) 0%N.

(** [[...new Set(l)]]: first occurrences, in order. *)
Definition unique (l : list string) : list string :=
  fold_left (fun acc x => if existsb (String.eqb x) acc then acc else (acc ++ [x])%list) l [].

Section Handler.

(** The hexadecimal HMAC-SHA256 of a body under a secret, computed by the
    platform ([crypto.subtle]). *)
Variable hmac_sha256_hex : string -> string -> string.

(** [JSON.parse] of a body read as a push event. *)
Variable JSON_parse : string -> outcome GitHubPushEvent.

Definition verifyWebhookSignature (body : string) (signature : option string)
    (secret : string) : bool :=
  match signature with
  | None => false
  | Some sig =>
      if negb (truthy sig) || negb (startsWith "sha256=" sig) then false
      else timingSafeEqual sig ("sha256=" ++ hmac_sha256_hex secret body)
  end.

(** The handler after the replay check. *)
Definition process (req : Request) (st : State) : State * outcome Response :=
  match JSON_parse (body req) with
  | Throw e => (st, Throw e)
  | Ok payload =>
      if negb (String.eqb (ref payload) "refs/heads/main") then
        (st, Ok (Ignored "not main branch"))
      else
        let changed :=
          List.filter (endsWith ".md")
            (flat_map (fun c => (added c ++ modified c)%list) (commits payload)) in
        let deleted :=
          List.filter (endsWith ".md") (flat_map removed (commits payload)) in
        let uniqueChanged := unique changed in
        let uniqueDeleted := unique deleted in
        if Nat.eqb (length uniqueChanged) 0 && Nat.eqb (length uniqueDeleted) 0 then
          (st, Ok (Ignored "no markdown files changed"))
        else
          (mkState (SYNC_STATE st)
                   (GOVERNANCE_SYNC st ++
                    [mkSyncParams uniqueChanged uniqueDeleted (after payload)])%list,
           Ok (Accepted (length uniqueChanged) (length uniqueDeleted)))
  end.

Definition handleWebhook (secret : string) (now : Z) (req : Request) (st : State)
  : State * outcome Response :=
  if negb (verifyWebhookSignature (body req) (x_hub_signature_256 req) secret) then
    (st, Ok InvalidSignature)
  else
    match x_github_delivery req with
    | Some deliveryId =>
        if truthy deliveryId then
          let nonceKey := "webhook:" ++ deliveryId in
          match KV.get now (SYNC_STATE st) nonceKey with
          | Some existing =>
              if truthy existing then (st, Ok (Duplicate deliveryId))
              else
                process req
                  (mkState (KV.put now nonceKey (Number_toString now) 86400 (SYNC_STATE st))
                           (GOVERNANCE_SYNC st))
          | None =>
              process req
                (mkState (KV.put now nonceKey (Number_toString now) 86400 (SYNC_STATE st))
                         (GOVERNANCE_SYNC st))
          end
        else process req st
    | None => process req st
    end.

(** Deliveries handled one after the other, each at its own time. *)
Fixpoint deliver (secret : string) (ds : list (Z * Request)) (st : State) : State :=
  match ds with
  | [] => st
  | (now, req) :: rest => deliver secret rest (fst (handleWebhook secret now req st))
  end.

End Handler.

End Webhook.

(** ** Cache refresh ([src/data/kv-cache.ts]) *)

Module Cache.

Local Open Scope Z_scope.

(** TTLs in seconds. *)
Definition TTL_members : Z := 30 * 60.
Definition TTL_proposals : Z := 15 * 60.
Definition TTL_activity : Z := 15 * 60.
Definition TTL_roles : Z := 30 * 60.
Definition TTL_groups : Z := 2 * 60 * 60.
Definition TTL_ensProfiles : Z := 24 * 60 * 60.

(** The key [lastrun:key] holds what a refresh of [key] at time [last]
    wrote. *)
Definition recorded (ns : gmap string KV.Entry) (key : string) (ttlSeconds last : Z) : Prop :=
  ns !! ("lastrun:" ++ key)%string
  = Some (KV.mkEntry (Number_toString last) (last + ttlSeconds * 2 * 1000)).

(** The gate of [refreshIfDue]: [true] when the function returns before
    the fetcher.  A comparison with NaN is false. *)
Definition not_due (ns : gmap string KV.Entry) (key : string) (ttlSeconds now : Z)
    (force : bool) : bool :=
  if negb force then
    match KV.get now ns ("lastrun:" ++ key)%string with
    | Some lastRun =>
        truthy lastRun &&
        match parseInt lastRun with
        | Some t => now - t <? ttlSeconds * 1000
        | None => false
        end
    | None => false
    end
  else false.

(** [refreshIfDue].  [fetcher] is what the call of the fetcher followed by
    [JSON.stringify] gives: the text to cache, or an exception, which is
    caught.  The second component tells whether the fetcher was called. *)
Definition refreshIfDue (ns : gmap string KV.Entry) (key : string) (ttlSeconds now : Z)
    (force : bool) (fetcher : outcome string) : gmap string KV.Entry * bool :=
  if not_due ns key ttlSeconds now force then (ns, false)
  else
    match fetcher with
    | Ok v =>
        (KV.put now ("lastrun:" ++ key)%string (Number_toString now) (ttlSeconds * 2)
           (KV.put now key v (ttlSeconds * 2) ns),
         true)
    | Throw _ => (ns, true)
    end.

(** A [put] that a fetcher makes on its way, when it makes it: [text] is
    the text stored. *)
Definition store (now : Z) (key : string) (text : option string) (ttl : Z)
    (ns : gmap string KV.Entry) : gmap string KV.Entry :=
  match text with
  | Some v => KV.put now key v ttl ns
  | None => ns
  end.

(** What the five fetchers answer in one cycle, each followed by
    [JSON.stringify].  The fetcher of the members resolves the ENS profiles
    of the holders and, when one of them has no cached profile, stores the
    profiles under [ens:profiles] for 24 hours before it answers:
    [ens_profiles] is the text stored then. *)
Record Sources := mkSources {
  members : outcome string;
  proposals : outcome string;
  activity : outcome string;
  roles : outcome string;
  groups : outcome string;
  ens_profiles : option string;
}.

(** The write of the profiles by the fetcher of the members, when that
    fetcher is called and answers. *)
Definition members_profiles (ns : gmap string KV.Entry) (now : Z) (force : bool)
    (src : Sources) : gmap string KV.Entry :=
  if not_due ns "daoip2:members" TTL_members now force then ns
  else
    match members src with
    | Ok _ => store now "ens:profiles" (ens_profiles src) TTL_ensProfiles ns
    | Throw _ => ns
    end.

(** The order in which the fetchers are called, given the keys whose
    fetcher is called, in the order of the array.  With [force] every
    [refreshIfDue] reaches its fetcher before its first [await], so the
    calls follow the array.  Without it every [refreshIfDue] first awaits
    the read of its [lastrun:] key, and the calls follow the order in which
    these reads settle: [settle key] is the rank at which the read of
    [lastrun:key] settles in this cycle, reads of equal rank taken in the
    order of the array. *)
Definition call_order (settle : string -> nat) (force : bool) (keys : list string)
  : list string :=
  if force then keys
  else order_by (fun a b => Nat.leb (settle a) (settle b)) keys.

(** [runCacheRefresh]: the five refreshes run under [Promise.allSettled];
    they touch different keys, so the order in which they settle does not
    show in the namespace; then the descriptor is dropped when [force] is
    set.  Returns the keys whose fetcher was called, in the order of the
    calls. *)
Definition runCacheRefresh (settle : string -> nat) (ns : gmap string KV.Entry) (now : Z)
    (force : bool) (src : Sources) : gmap string KV.Entry * list string :=
  let step key ttl fetcher (acc : gmap string KV.Entry * list string) :=
    let '(ns1, fetched) := refreshIfDue (fst acc) key ttl now force fetcher in
    (ns1, if fetched then (snd acc ++ [key])%list else snd acc) in
  let acc :=
    step "sb:groups"%string TTL_groups (groups src)
      (step "sb:roles"%string TTL_roles (roles src)
        (step "daoip2:activity"%string TTL_activity (activity src)
          (step "daoip2:proposals"%string TTL_proposals (proposals src)
            (step "daoip2:members"%string TTL_members (members src)
               (members_profiles ns now force src, []))))) in
  (if force then delete "daoip2:dao"%string (fst acc) else fst acc,
   call_order settle force (snd acc)).

End Cache.

(** ** The exclusion patterns as the specification words them *)

Module Spec.

(** A path is underscore-prefixed when the name of the file or of one of
    its directories begins with an underscore. *)
Definition underscore_prefixed (path : string) : bool :=
  existsb (startsWith "_") (split "/" path).

(** Readme marker, template marker, or underscore-prefixed name. *)
Definition excluded (path : string) : bool :=
  includes "README" path || includes "template" path || underscore_prefixed path.

End Spec.

(** ** Scenarios *)

Module Scenario.

Import Parser Db Workflow.

Definition t0 : Instant := mkInstant "2026-01-05T10:00:00.000Z" "2026-01-05 10:00:00".
Definition t1 : Instant := mkInstant "2026-01-05T10:00:07.000Z" "2026-01-05 10:00:07".
Definition t2 : Instant := mkInstant "2026-01-06T09:30:00.000Z" "2026-01-06 09:30:00".
Definition t3 : Instant := mkInstant "2026-01-06T09:45:00.000Z" "2026-01-06 09:45:00".

(** A store right after the migration, with an empty mirror. *)
Definition fresh : Env := mkEnv ∅ (migrated "2026-01-01 00:00:00").

Definition charter_md : string :=
"---
title: Charter
type: agreement
status: active
---
# Charter".

(** The store of the concrete scenario: the seeded domains and the document
    [charter]. *)
Definition with_charter : Env := fst (sync_file "c0" t0 "agreements/charter.md" charter_md fresh).

(** The metadata of the concrete scenario, written as the scenario writes
    it. *)
Definition operating_agreement_flow : string :=
"---
type: agreement
status: active
domain: [dao-core]
related: [{type: authorized_by, target: charter}]
---
# Operating agreement".

(** The same metadata in the block form announced at the head of the
    parser: one list entry with the two fields [type] and [target]. *)
Definition operating_agreement_block : string :=
"---
type: agreement
status: active
domain: [dao-core]
related:
  - type: authorized_by
    target: charter
---
# Operating agreement".

(** The relationship written in the one-line form [type: target]. *)
Definition operating_agreement_inline : string :=
"---
type: agreement
status: active
domain: [dao-core]
related:
  - authorized_by: charter
---
# Operating agreement".

(** A scalar followed by an indented list item. *)
Definition scalar_then_item : string :=
"---
title: Code of conduct
  - draft two
---
Be kind.".

(** The charter again, with another identifier and another type. *)
Definition charter_retyped_md : string :=
"---
id: charter-v2
title: Charter, second edition
type: policy
status: superseded
---
# Charter".

(** What the parser returns for it at the path [agreements/charter.md]. *)
Definition charter_retyped : ParsedDocument :=
  {| p_id := JStr "charter-v2"; p_slug := "charter"; p_type := policy;
     p_title := JStr "Charter, second edition"; p_status := superseded;
     p_effectiveFrom := None; p_effectiveTo := None; p_enactedBy := None;
     p_domains := []; p_relationships := []; p_scope := [] |}.

(** The row of the charter in [with_charter]. *)
Definition charter_row : DocumentRow :=
  {| doc_id := Text "charter"; doc_slug := "charter"; doc_type := agreement;
     doc_title := Text "Charter"; doc_status := active;
     doc_effective_from := None; doc_effective_to := None; doc_content_hash := None;
     doc_enacted_by := None; doc_r2_key := Some "governance/agreements/charter.md";
     doc_created_at := "2026-01-05 10:00:00"; doc_updated_at := "2026-01-05 10:00:00" |}.

Definition budget_md : string :=
"---
type: proposal
status: active
---
# Budget".

(** A policy that names the charter as its authority. *)
Definition expenses_md : string :=
"---
title: Expenses
type: policy
status: active
related:
  - authorized_by: charter
---
# Expenses".

Definition expenses : ParsedDocument :=
  {| p_id := JStr "expenses"; p_slug := "expenses"; p_type := policy;
     p_title := JStr "Expenses"; p_status := active;
     p_effectiveFrom := None; p_effectiveTo := None; p_enactedBy := None;
     p_domains := []; p_relationships := [mkRel "authorized_by" "charter"];
     p_scope := [] |}.

Definition charter : ParsedDocument :=
  {| p_id := JStr "charter"; p_slug := "charter"; p_type := agreement;
     p_title := JStr "Charter"; p_status := active;
     p_effectiveFrom := None; p_effectiveTo := None; p_enactedBy := None;
     p_domains := []; p_relationships := []; p_scope := [] |}.

(** The policy synced before the charter, then the charter. *)
Definition expenses_first : Env :=
  fst (sync_file "c1" t0 "policies/expenses.md" expenses_md fresh).
Definition then_charter : Env :=
  fst (sync_file "c2" t1 "agreements/charter.md" charter_md expenses_first).

(** A document that refers to itself. *)
Definition self_reference_md : string :=
"---
related:
  - references: handbook
---
# Handbook".

(** *** Deliveries *)

Import Webhook.

(** A stand-in for the HMAC of the platform in closed examples: the handler
    only compares the digest with the one in the header. *)
Definition toy_hmac (secret body : string) : string :=
  "5d5b09f6dcb2d53a5fffc60c4ac0d55fabdf556069d6631545f42aa6e3500f2e".

Definition push_main : GitHubPushEvent :=
  mkPush "refs/heads/main" "9fceb02" "1a410ef"
    [mkCommit "9fceb02" "Amend the charter" [] ["agreements/charter.md"; "notes.txt"] []]
    "superbenefit/governance".

(** A stand-in for [JSON.parse] on the one body of the examples. *)
Definition toy_parse (body : string) : outcome GitHubPushEvent := Ok push_main.

(** A delivery of that push with a matching signature. *)
Definition signed (deliveryId : option string) : Request :=
  mkRequest "{...}"
    (Some "sha256=5d5b09f6dcb2d53a5fffc60c4ac0d55fabdf556069d6631545f42aa6e3500f2e")
    deliveryId.

Definition hour : Z := 3600 * 1000.
Definition noon : Z := 1767614400000.

End Scenario.

(** ** Further components *)

(** *** Shape of a metadata block *)

Module Nesting.

(** The values after which the key-value branch leaves an array under the
    key: nothing, a block marker, or a bracketed list. *)
Definition opens_list (value : string) : bool :=
  String.eqb value "" || String.eqb value "|" || String.eqb value ">"
  || (startsWith "[" value && endsWith "]" value).

(** No list-item line comes after a key line with a scalar value before the
    next key line.  [open] tells whether list items are welcome at the
    head of [lines]. *)
Fixpoint items_follow_lists (open : bool) (lines : list string) : bool :=
  match lines with
  | [] => true
  | line :: rest =>
      match Parser.match_list_item line with
      | Some _ => open && items_follow_lists open rest
      | None =>
          match Parser.kv_match line with
          | Some (_, value) => items_follow_lists (opens_list (trim value)) rest
          | None => items_follow_lists open rest
          end
      end
  end.

(** A list item met in this state is stored without an exception. *)
Definition item_safe (st : Parser.PState) : Prop :=
  match Parser.currentList st with
  | Some _ => True
  | None =>
      match Parser.currentKey st with
      | None => True
      | Some k =>
          truthy k = false \/
          match Parser.obj_get st k with
          | Parser.SArray _ => True
          | _ => False
          end
      end
  end.

(** The two line ends of a fence: LF or CR LF. *)
Definition fence_eol (e : string) : Prop :=
  e = String LF "" \/ e = String CR (String LF "").

Fixpoint str_forall (f : ascii -> bool) (s : string) : bool :=
  match s with
  | EmptyString => true
  | String c s' => f c && str_forall f s'
  end.

End Nesting.

(** *** Groups ([parseGroupFrontmatter] of [src/sync/parser.ts]) *)

Module Groups.

Import Parser.

Inductive GroupStatus := g_active | g_inactive | g_archived.

Record Group := mkGroup {
  g_id : string;
  g_name : JsVal;
  g_description : option JsVal;
  g_status : GroupStatus;
  g_mandate : option JsVal;
  g_linkedHats : option (list string);
  g_url : option JsVal;
}.

(** [Array.isArray(h) ? h : h ? [h] : undefined] *)
Definition linked_hats (hats : option JsVal) : option (list string) :=
  match hats with
  | Some (JArr l) => Some l
  | Some (JStr s) => if truthy s then Some [s] else None
  | None => None
  end.

Definition group_status (raw : option JsVal) : GroupStatus :=
  match raw with
  | Some (JStr "active") => g_active
  | Some (JStr "archived") => g_archived
  | _ => g_inactive
  end.

(** [extractFrontmatter(content) ?? {}] is read through [fm_get]; the empty
    object is the initial state of the metadata parser. *)
Definition parseGroupFrontmatter (id content : string) : outcome Group :=
  let* fmo := extractFrontmatter content in
  let fm := default init fmo in
  Ok {| g_id := id;
        g_name := default (JStr id) (nullish (fm_get fm "title") (fm_get fm "name"));
        g_description := fm_get fm "description";
        g_status := group_status (fm_get fm "status");
        g_mandate := fm_get fm "mandate";
        g_linkedHats := linked_hats (fm_get fm "hats");
        g_url := fm_get fm "url" |}.

End Groups.

(** *** Tiers ([src/auth/check.ts]) *)

Module Auth.

Inductive AuthTier := open | public | members | internal.

Record AuthContext := mkAuth {
  tier : AuthTier;
  address : option string;
  isInternal : option bool;
}.

Definition TIER_RANK (t : AuthTier) : nat :=
  match t with
  | open => 0
  | public => 1
  | members => 2
  | internal => 3
  end.

Definition checkTierAccess (context : AuthContext) (required : AuthTier) : bool :=
  Nat.leb (TIER_RANK required) (TIER_RANK (tier context)).

Definition tier_name (t : AuthTier) : string :=
  match t with
  | open => "open"
  | public => "public"
  | members => "members"
  | internal => "internal"
  end.

(** [requireTier]: [inl message] is the Error it throws. *)
Definition requireTier (context : AuthContext) (required : AuthTier) : string + unit :=
  if negb (checkTierAccess context required) then
    inl ("Authentication required: this operation requires '" ++ tier_name required
         ++ "' tier access (current: '" ++ tier_name (tier context) ++ "')")
  else inr tt.

End Auth.

(** *** Roles ([findHat] of [src/data/sources/hats.ts]) *)

Module Hats.

Record HatWearer := mkWearer {
  w_address : string;
  w_ensName : option string;
}.

Local Unset Elimination Schemes.

Inductive Hat :=
| mkHat (id prettyId details : string) (imageUri : option string)
        (maxSupply currentSupply : string) (wearers : list HatWearer)
        (subHats : option (list Hat)).

Local Set Elimination Schemes.

Definition hat_id (h : Hat) : string := let 'mkHat id _ _ _ _ _ _ _ := h in id.
Definition hat_prettyId (h : Hat) : string := let 'mkHat _ p _ _ _ _ _ _ := h in p.
Definition hat_subHats (h : Hat) : option (list Hat) := let 'mkHat _ _ _ _ _ _ _ s := h in s.

Definition matches (hatId : string) (h : Hat) : bool :=
  String.eqb (hat_id h) hatId || String.eqb (hat_prettyId h) hatId.

(** [findHat]: [find_in] is the function on an array of hats, [find_at]
    the body of its loop for one hat.  An empty [subHats] array is truthy
    and searched like any other. *)
Fixpoint find_at (hatId : string) (h : Hat) : option Hat :=
  if matches hatId h then Some h
  else
    match hat_subHats h with
    | Some subs =>
        (fix find_in (hats : list Hat) : option Hat :=
           match hats with
           | [] => None
           | h' :: rest =>
               match find_at hatId h' with
               | Some found => Some found
               | None => find_in rest
               end
           end) subs
    | None => None
    end.

Fixpoint findHat (hats : list Hat) (hatId : string) : option Hat :=
  match hats with
  | [] => None
  | h :: rest =>
      match find_at hatId h with
      | Some found => Some found
      | None => findHat rest hatId
      end
  end.

(** The hats of a forest, each before its sub-hats. *)
Fixpoint flatten_at (h : Hat) : list Hat :=
  h :: match hat_subHats h with
       | Some subs =>
           (fix flatten_in (hats : list Hat) : list Hat :=
              match hats with
              | [] => []
              | h' :: rest => (flatten_at h' ++ flatten_in rest)%list
              end) subs
       | None => []
       end.

Fixpoint flatten (hats : list Hat) : list Hat :=
  match hats with
  | [] => []
  | h :: rest => (flatten_at h ++ flatten rest)%list
  end.

End Hats.

(** *** Cache reads and the internal refresh ([src/data/kv-cache.ts],
    [src/index.ts]) *)

Module CacheReads.

Local Open Scope Z_scope.

Section Descriptor.

(** The descriptor values, [JSON.stringify] and [JSON.parse] on them. *)
Variable Descriptor : Type.
Variable JSON_stringify : Descriptor -> string.
Variable JSON_parse : string -> outcome Descriptor.

(** What a run of [buildDaoDescriptor] does.  Its fetchers read through
    the cache: on a miss of [daoip2:members], [fetchMembers] stores the
    holders it fetched under that key for 30 minutes, after
    [resolveEnsProfiles] has stored the profiles under [ens:profiles] for
    24 hours when a holder had none cached; on a miss of
    [daoip2:proposals], [fetchProposals] stores the proposals it fetched
    under that key for 15 minutes.  The first three fields hold the text
    stored, when the put is made; [built] is the descriptor, or the
    exception of the fetcher that failed. *)
Record Build := mkBuild {
  stores_profiles : option string;
  stores_members : option string;
  stores_proposals : option string;
  built : outcome Descriptor;
}.

(** The puts of the fetchers; the three keys differ, so the order of the
    puts does not show. *)
Definition build_stores (now : Z) (build : Build) (ns : gmap string KV.Entry)
  : gmap string KV.Entry :=
  Cache.store now "daoip2:proposals" (stores_proposals build) (15 * 60)
    (Cache.store now "daoip2:members" (stores_members build) (30 * 60)
       (Cache.store now "ens:profiles" (stores_profiles build) (24 * 60 * 60) ns)).

(** [getDaoDescriptor]; [build] is what [buildDaoDescriptor] does when it
    is called.  The last component tells whether it was called. *)
Definition getDaoDescriptor (now : Z) (ns : gmap string KV.Entry) (build : Build)
  : gmap string KV.Entry * outcome Descriptor * bool :=
  let miss :=
    let ns1 := build_stores now build ns in
    match built build with
    | Ok d => (KV.put now "daoip2:dao"%string (JSON_stringify d) Cache.TTL_members ns1,
               Ok d, true)
    | Throw e => (ns1, Throw e, true)
    end in
  match KV.get now ns "daoip2:dao"%string with
  | Some cached => if truthy cached then (ns, JSON_parse cached, false) else miss
  | None => miss
  end.

End Descriptor.

Inductive RefreshResponse :=
| Forbidden                              (* 403 *)
| Refreshed (refreshed : string).        (* status: ok, refreshed: the instant *)

(** [handleInternalRefresh]: the header [x-refresh-secret] against the
    secret of the environment ([configured], a string: the secret is
    set), then a forced cycle.  [iso] is [new Date().toISOString()] when
    the cycle is over; the second component lists the keys whose fetcher
    was called, in the order of the calls. *)
Definition handleInternalRefresh (configured : string) (header : option string)
    (settle : string -> nat) (now : Z) (iso : string) (src : Cache.Sources)
    (ns : gmap string KV.Entry)
  : gmap string KV.Entry * list string * RefreshResponse :=
  match header with
  | Some secret =>
      if negb (String.eqb secret configured) then (ns, [], Forbidden)
      else
        let '(ns', keys) := Cache.runCacheRefresh settle ns now true src in
        (ns', keys, Refreshed iso)
  | None => (ns, [], Forbidden)
  end.

(** The five keys of a cycle with their TTLs, in the order of the array. *)
Definition schedule : list (string * Z) :=
  [ ("daoip2:members"%string, Cache.TTL_members);
    ("daoip2:proposals"%string, Cache.TTL_proposals);
    ("daoip2:activity"%string, Cache.TTL_activity);
    ("sb:roles"%string, Cache.TTL_roles);
    ("sb:groups"%string, Cache.TTL_groups) ].

(** The answer of the source behind a key of the cycle. *)
Definition source_of (src : Cache.Sources) (key : string) : option (outcome string) :=
  if String.eqb key "daoip2:members" then Some (Cache.members src)
  else if String.eqb key "daoip2:proposals" then Some (Cache.proposals src)
  else if String.eqb key "daoip2:activity" then Some (Cache.activity src)
  else if String.eqb key "sb:roles" then Some (Cache.roles src)
  else if String.eqb key "sb:groups" then Some (Cache.groups src)
  else None.

(** [scheduled]: the cron trigger runs a cycle without [force]. *)
Definition scheduled (settle : string -> nat) (now : Z) (src : Cache.Sources)
    (ns : gmap string KV.Entry) : gmap string KV.Entry * list string :=
  Cache.runCacheRefresh settle ns now false src.

End CacheReads.

(** *** Consistency of the store *)

Module Integrity.

Import Db.

(** The PRIMARY KEY, UNIQUE, REFERENCES and CHECK constraints of the
    migration on the four tables. *)
Record consistent (db : D1) : Prop := mkConsistent {
  ids_unique : NoDup (List.map doc_id (documents db));
  slugs_unique : NoDup (List.map doc_slug (documents db));
  links_unique :
    NoDup (List.map (fun l => (dd_document_id l, dd_domain_id l)) (document_domains db));
  links_reference :
    forall l, In l (document_domains db) ->
      existsb (has_id (dd_document_id l)) (documents db) = true /\
      existsb (fun d => String.eqb (dom_id d) (dd_domain_id l)) (domains db) = true;
  edges_unique : NoDup (List.map dr_id (document_relationships db));
  edges_reference :
    forall r, In r (document_relationships db) ->
      existsb (has_id (dr_from_id r)) (documents db) = true /\
      existsb (has_id (dr_to_id r)) (documents db) = true;
  edges_typed :
    forall r, In r (document_relationships db) ->
      valid_relationship_type (dr_relationship_type r) = true;
}.

(** A row with everything but [status] and [updated_at]. *)
Definition frozen_part (r : DocumentRow) :=
  (doc_id r, doc_slug r, doc_type r, doc_title r, doc_effective_from r,
   doc_effective_to r, doc_content_hash r, doc_enacted_by r, doc_r2_key r,
   doc_created_at r).

End Integrity.


(** *** Listing queries ([queryAgreements], [queryPolicies] of
    [src/data/db.ts]) and the RPC methods over them ([src/index.ts]) *)

Module Listing.

Import Parser Db.

Inductive Failure :=
| JsTypeError     (* a property read on [undefined] *)
| D1Error.        (* D1_ERROR: wrong number of parameter bindings *)

Definition is_active (r : DocumentRow) : bool :=
  match doc_status r with
  | active => true
  | _ => false
  end.

(** [all()] on a statement with [placeholders] question marks and the
    values of [bind]: D1 refuses a statement whose bindings are not as many
    as its placeholders. *)
Definition all {A} (placeholders : nat) (bindings : list string) (rows : list A)
  : Failure + list A :=
  if Nat.eqb (length bindings) placeholders then inr rows else inl D1Error.

(** The order of ORDER BY on a stored value: texts under the BINARY
    collation, by their code units, and every text before the blob. *)
Definition text_leb (a b : Value) : bool :=
  match a, b with
  | Text x, Text y => String.leb x y
  | Text _, EmptyBlob => true
  | EmptyBlob, Text _ => false
  | EmptyBlob, EmptyBlob => true
  end.

(** ORDER BY on a nullable column, descending: NULL is below every value
    and comes last. *)
Definition desc_leb (a b : option Value) : bool :=
  match a, b with
  | _, None => true
  | None, Some _ => false
  | Some x, Some y => text_leb y x
  end.

(** ORDER BY is [order_by] on the key of the clause.  SQL leaves the order
    of rows with equal keys open; here they keep the order in which the
    join produced them. *)

(** Each row may come before its successor. *)
Fixpoint in_order {A} (leb : A -> A -> bool) (l : list A) : Prop :=
  match l with
  | [] => True
  | x :: l' =>
      match l' with
      | [] => True
      | y :: _ => leb x y = true /\ in_order leb l'
      end
  end.

(** INNER JOIN document_domains dd ON dd.document_id = d.id INNER JOIN
    domains dom ON dom.id = dd.domain_id ... AND dom.slug = ?: the copies of
    the row [d] the two joins produce. *)
Definition join_domain (db : D1) (slug : string) (d : DocumentRow) : list DocumentRow :=
  flat_map (fun dd =>
      if value_eqb (dd_document_id dd) (doc_id d) then
        flat_map (fun dom =>
            if String.eqb (dom_id dom) (dd_domain_id dd) && String.eqb (dom_slug dom) slug
            then [d] else [])
          (domains db)
      else [])
    (document_domains db).

(** INNER JOIN document_relationships dr ON dr.from_id = d.id INNER JOIN
    documents agreement ON agreement.id = dr.to_id ... AND
    dr.relationship_type = 'authorized_by' AND (agreement.id = ? OR
    agreement.slug = ?) *)
Definition join_agreement (db : D1) (agreementId : string) (d : DocumentRow)
  : list DocumentRow :=
  flat_map (fun dr =>
      if value_eqb (dr_from_id dr) (doc_id d)
         && String.eqb (dr_relationship_type dr) "authorized_by" then
        flat_map (fun agr =>
            if value_eqb (doc_id agr) (dr_to_id dr)
               && (has_id (Text agreementId) agr || has_slug agreementId agr)
            then [d] else [])
          (documents db)
      else [])
    (document_relationships db).

(** A query under construction: the rows its FROM and WHERE clauses
    select, the number of its placeholders, the bindings pushed so far. *)
Record Query := mkQuery {
  q_rows : list DocumentRow;
  q_placeholders : nat;
  q_bindings : list string;
}.

(** [if (params.x)] on an optional string. *)
Definition given (x : option string) : option string :=
  match x with
  | Some s => if truthy s then Some s else None
  | None => None
  end.

Definition queryAgreements (db : D1) (domain : option string)
  : Failure + list DocumentRow :=
  let listed := List.filter (fun d => is_type agreement d && is_active d) (documents db) in
  let q :=
    match given domain with
    | Some s => mkQuery (flat_map (join_domain db s) listed) 1 [s]
    | None => mkQuery listed 0 []
    end in
  all (q_placeholders q) (q_bindings q)
      (order_by (fun a b => desc_leb (doc_effective_from a) (doc_effective_from b))
                (q_rows q)).

(** The query on the agreement replaces the one on the domain, whose
    binding stays in the list. *)
Definition queryPolicies (db : D1) (domain agreementId : option string)
  : Failure + list DocumentRow :=
  let listed := List.filter (fun d => is_type policy d && is_active d) (documents db) in
  let q1 :=
    match given domain with
    | Some s => mkQuery (flat_map (join_domain db s) listed) 1 [s]
    | None => mkQuery listed 0 []
    end in
  let q2 :=
    match given agreementId with
    | Some a => mkQuery (flat_map (join_agreement db a) listed) 2
                        (q_bindings q1 ++ [a; a])%list
    | None => q1
    end in
  all (q_placeholders q2) (q_bindings q2)
      (order_by (fun a b => text_leb (doc_title a) (doc_title b)) (q_rows q2)).

(** The parameters of the RPC methods: the argument may be left out, and
    so may each of its fields. *)
Record PolicyParams := mkPolicyParams {
  pp_domain : option string;
  pp_agreementId : option string;
}.

(** [getAgreements(params?)] and [getPolicies(params?)] hand their argument
    on as it is; the queries read its fields. *)
Definition getAgreements (db : D1) (params : option (option string))
  : Failure + list DocumentRow :=
  match params with
  | None => inl JsTypeError
  | Some domain => queryAgreements db domain
  end.

Definition getPolicies (db : D1) (params : option PolicyParams)
  : Failure + list DocumentRow :=
  match params with
  | None => inl JsTypeError
  | Some p => queryPolicies db (pp_domain p) (pp_agreementId p)
  end.

End Listing.

(** *** Proposals ([fetchProposals] of [src/data/sources/snapshot.ts]) and
    their refresh ([src/data/kv-cache.ts]) *)

Module Snapshot.

Local Open Scope Z_scope.

Record Params := mkParams {
  status : option string;
  type : option string;
}.

Section Proposals.

(** The proposals in their DAOIP-2 form, with the two fields the filters
    read, and JSON on arrays of them. *)
Variable Proposal : Type.
Variable status_of : Proposal -> string.
Variable proposalType_of : Proposal -> option string.
Variable JSON_stringify : list Proposal -> string.
Variable JSON_parse : string -> outcome (list Proposal).

Definition by_status (params : Params) (ps : list Proposal) : list Proposal :=
  match status params with
  | Some s => if truthy s then List.filter (fun p => String.eqb (status_of p) s) ps else ps
  | None => ps
  end.

Definition by_type (params : Params) (ps : list Proposal) : list Proposal :=
  match type params with
  | Some t =>
      if truthy t
      then List.filter (fun p => match proposalType_of p with
                                 | Some t' => String.eqb t' t
                                 | None => false
                                 end) ps
      else ps
  | None => ps
  end.

(** [fetchProposals].  [snapshot] is what [fetchFromSnapshot] answers when
    it is called; the last component tells whether it was called. *)
Definition fetchProposals (now : Z) (ns : gmap string KV.Entry)
    (snapshot : outcome (list Proposal)) (params : Params)
  : gmap string KV.Entry * outcome (list Proposal) * bool :=
  let miss :=
    match snapshot with
    | Ok ps => (KV.put now "daoip2:proposals"%string (JSON_stringify ps) (15 * 60) ns,
                Ok (by_type params (by_status params ps)), true)
    | Throw e => (ns, Throw e, true)
    end in
  match KV.get now ns "daoip2:proposals"%string with
  | Some cached =>
      if truthy cached then
        (ns,
         match JSON_parse cached with
         | Ok ps => Ok (by_type params (by_status params ps))
         | Throw e => Throw e
         end,
         false)
      else miss
  | None => miss
  end.

(** The second call of [runCacheRefresh]: [refreshIfDue] on the key of the
    proposals with [fetchProposals(env, {})] as its fetcher.  The last
    component tells whether Snapshot was contacted. *)
Definition refreshProposals (ns : gmap string KV.Entry) (now : Z) (force : bool)
    (snapshot : outcome (list Proposal)) : gmap string KV.Entry * bool :=
  if Cache.not_due ns "daoip2:proposals" Cache.TTL_proposals now force then (ns, false)
  else
    let '(ns1, fetched, contacted) := fetchProposals now ns snapshot (mkParams None None) in
    match fetched with
    | Ok value =>
        (KV.put now "lastrun:daoip2:proposals"%string (Number_toString now)
           (Cache.TTL_proposals * 2)
           (KV.put now "daoip2:proposals"%string (JSON_stringify value)
              (Cache.TTL_proposals * 2) ns1),
         contacted)
    | Throw _ => (ns1, contacted)
    end.

(** Refreshes one after the other, each with its time, its [force] flag
    and what Snapshot would answer then. *)
Fixpoint refreshes (ticks : list (Z * bool * outcome (list Proposal)))
    (ns : gmap string KV.Entry) : gmap string KV.Entry * list bool :=
  match ticks with
  | [] => (ns, [])
  | (now, force, snapshot) :: rest =>
      let '(ns1, contacted) := refreshProposals ns now force snapshot in
      let '(ns2, more) := refreshes rest ns1 in
      (ns2, contacted :: more)
  end.

(** The copy of [ps] stored by a refresh at [last], with its [lastrun:]
    record. *)
Definition frozen (ns : gmap string KV.Entry) (ps : list Proposal) (last : Z) : Prop :=
  ns !! "daoip2:proposals"%string
  = Some (KV.mkEntry (JSON_stringify ps) (last + Cache.TTL_proposals * 2 * 1000)) /\
  Cache.recorded ns "daoip2:proposals" Cache.TTL_proposals last.

End Proposals.

(** The times of the ticks never go back and no two successive ones are
    more than 900 seconds apart, counted from [start]. *)
Fixpoint paced {A} (start : Z) (ticks : list (Z * bool * A)) : Prop :=
  match ticks with
  | [] => True
  | (now, _, _) :: rest => start <= now <= start + 900 * 1000 /\ paced now rest
  end.

End Snapshot.

(** *** Further examples *)

Module Examples.

Import Parser Db Workflow.

(** The charter with an identifier of its own and a domain. *)
Definition charter_identified_md : string :=
"---
id: agr-001
title: Charter
type: agreement
status: active
domain: dao-core
---
# Charter".

Definition charter_identified : ParsedDocument :=
  {| p_id := JStr "agr-001"; p_slug := "charter"; p_type := agreement;
     p_title := JStr "Charter"; p_status := active;
     p_effectiveFrom := None; p_effectiveTo := None; p_enactedBy := None;
     p_domains := ["dao-core"]; p_relationships := []; p_scope := [] |}.

(** A policy whose title and end date are left blank. *)
Definition untitled_md : string :=
"---
title:
type: policy
status: active
effective_to:
---
# Untitled".

(** A policy whose title is a list with one item. *)
Definition listed_title_md : string :=
"---
title:
  - One
type: policy
status: active
---
# Listed".

(** Five sources that all answer, and five that all fail. *)
Definition answering : Cache.Sources :=
  Cache.mkSources (Ok "{members:[]}") (Ok "[]") (Ok "[]") (Ok "[]") (Ok "[]") None.

Definition failing : Cache.Sources :=
  Cache.mkSources (Throw TypeError) (Throw TypeError) (Throw TypeError)
    (Throw TypeError) (Throw TypeError) None.

(** The reads of the [lastrun:] keys settling in the order of the array,
    and in the opposite order. *)
Definition in_turn (key : string) : nat := 0.

Definition last_first (key : string) : nat :=
  if String.eqb key "daoip2:members" then 4
  else if String.eqb key "daoip2:proposals" then 3
  else if String.eqb key "daoip2:activity" then 2
  else if String.eqb key "sb:roles" then 1
  else 0.

(** Proposals reduced to their titles, with a toy JSON on one-element
    arrays of them. *)
Definition titles_stringify (ps : list string) : string := String.concat "," ps.
Definition titles_parse (s : string) : outcome (list string) := Ok [s].

End Examples.

(** * Properties *)

Import Parser Db Workflow.

(** ** Strings *)

Lemma startsWith_spec p s : startsWith p s = true <-> exists b, s = p ++ b.
Proof.
  revert s. induction p as [|a p IH]; intros s; simpl.
  - split; [intros _; exists s; reflexivity | reflexivity].
  - destruct s as [|b s].
    + split; [discriminate | intros [r Hr]; discriminate].
    + rewrite andb_true_iff, Ascii.eqb_eq, IH. split.
      * intros [-> [r ->]]. exists r. reflexivity.
      * intros [r Hr]. injection Hr as -> ->. split; [reflexivity | exists r; reflexivity].
Qed.

Lemma includes_spec sub s : includes sub s = true <-> contains sub s.
Proof.
  unfold contains. induction s as [|c s IH].
  - simpl. rewrite orb_false_r, startsWith_spec. split.
    + intros [b Hb]. exists "", b. exact Hb.
    + intros [[|x a] [b Hb]]; [exists b; exact Hb | discriminate].
  - cbn [includes]. rewrite orb_true_iff, IH, startsWith_spec. split.
    + intros [[b Hb] | [a [b Hb]]].
      * exists "", b. exact Hb.
      * exists (String c a), b. simpl. rewrite Hb. reflexivity.
    + intros [[|x a] [b Hb]].
      * left. exists b. exact Hb.
      * right. injection Hb as -> ->. exists a, b. reflexivity.
Qed.

(** ** Stored values *)

Lemma value_eqb_refl v : value_eqb v v = true.
Proof. destruct v; cbn; [apply String.eqb_refl | reflexivity]. Qed.

Lemma value_eqb_eq a b : value_eqb a b = true <-> a = b.
Proof.
  destruct a as [x|], b as [y|]; cbn; try (split; [discriminate | congruence]).
  - rewrite String.eqb_eq. split; congruence.
  - split; reflexivity.
Qed.

Lemma value_eqb_neq a b : value_eqb a b = false <-> a <> b.
Proof.
  rewrite <- value_eqb_eq. destruct (value_eqb a b); split; congruence.
Qed.

Lemma value_eqb_sym a b : value_eqb a b = value_eqb b a.
Proof.
  destruct (value_eqb b a) eqn:E.
  - apply value_eqb_eq in E as ->. apply value_eqb_refl.
  - apply value_eqb_neq. apply value_eqb_neq in E. congruence.
Qed.

(** A bound value prints as the string it was bound from; the empty array
    prints as the empty string. *)
Lemma bind_value_js_text v b :
  bind_value v = Ok b ->
  js_text b = match v with JStr s => s | JArr _ => "" end.
Proof.
  destruct v as [s | [|x l]]; cbn; intros H; [| | discriminate];
    injection H as <-; reflexivity.
Qed.

(** A key left blank parses to the empty array, which [bind] sends as the
    empty blob: the step completes and the row holds the blob; a second
    run takes the conflict branch and leaves one row. *)
Lemma blank_values_are_stored :
  let '(env1, r1) := sync_file "c1" Scenario.t1 "policies/untitled.md"
                       Examples.untitled_md Scenario.fresh in
  let '(env2, r2) := sync_file "c2" Scenario.t2 "policies/untitled.md"
                       Examples.untitled_md env1 in
  option_map (fun p => (p_title p, p_effectiveTo p))
    (match parseGovernanceDocument "policies/untitled.md" Examples.untitled_md with
     | Ok p => p
     | Throw _ => None
     end) = Some (JArr [], Some (JArr [])) /\
  r1 = Ok tt /\
  List.map (fun d => (doc_id d, doc_title d, doc_effective_to d, doc_updated_at d))
    (documents (GOVERNANCE_DB env1))
  = [(Text "untitled", EmptyBlob, Some EmptyBlob, "2026-01-05 10:00:07")] /\
  r2 = Ok tt /\
  List.map (fun d => (doc_id d, doc_title d, doc_effective_to d, doc_updated_at d))
    (documents (GOVERNANCE_DB env2))
  = [(Text "untitled", EmptyBlob, Some EmptyBlob, "2026-01-06 09:30:00")].
Proof. vm_compute. repeat split. Qed.

(** A list with an item is refused by [bind]: the step throws before its
    first statement and stores no row. *)
Lemma listed_title_is_refused :
  let '(env1, r1) := sync_file "c1" Scenario.t1 "policies/listed.md"
                       Examples.listed_title_md Scenario.fresh in
  option_map p_title
    (match parseGovernanceDocument "policies/listed.md" Examples.listed_title_md with
     | Ok p => p
     | Throw _ => None
     end) = Some (JArr ["One"]) /\
  r1 = Throw D1TypeError /\
  documents (GOVERNANCE_DB env1) = [].
Proof. vm_compute. repeat split. Qed.

(** ** The parser *)

(** C8, as the claim words it, fails: a path with an underscore inside a
    name is outside the three patterns, its content has a metadata block,
    and the path alone makes the parser answer not indexable. *)
Lemma C8_counterexample :
  Spec.excluded "agreements/operating_agreement.md" = false /\
  frontmatter_block Scenario.charter_md <> None /\
  parseGovernanceDocument "agreements/operating_agreement.md" Scenario.charter_md = Ok None.
Proof. split; [| split]; [vm_compute; reflexivity | discriminate | vm_compute; reflexivity]. Qed.

Lemma not_indexable_iff path content :
  parseGovernanceDocument path content = Ok None <->
  (contains "README" path \/ contains "template" path \/ contains "_" path
   \/ frontmatter_block content = None).
Proof.
  unfold parseGovernanceDocument, excluded.
  rewrite <- !includes_spec.
  destruct (includes "README" path); [ tauto |].
  destruct (includes "template" path); [ tauto |].
  destruct (includes "_" path); [ tauto |].
  cbn [orb]. unfold extractFrontmatter.
  destruct (frontmatter_block content) as [yaml|]; [| tauto].
  destruct (parseYamlSimple yaml); cbn [obind]; split;
    first [ discriminate | intros [H|[H|[H|H]]]; discriminate ].
Qed.

(** C8, amended: the parser answers not indexable exactly when the path
    contains [README], [template] or an underscore anywhere, or the content
    has no leading metadata block. *)
Theorem C8_not_indexable_iff path content :
  parseGovernanceDocument path content = Ok None <->
  (contains "README" path \/ contains "template" path \/ contains "_" path
   \/ frontmatter_block content = None).
Proof. apply not_indexable_iff. Qed.

(** C7: on a metadata block where an indented list item follows a scalar,
    the parser throws instead of returning a record. *)
Theorem C7_parser_throws :
  Spec.excluded "policies/code-of-conduct.md" = false /\
  Parser.excluded "policies/code-of-conduct.md" = false /\
  frontmatter_block Scenario.scalar_then_item <> None /\
  parseGovernanceDocument "policies/code-of-conduct.md" Scenario.scalar_then_item
  = Throw TypeError.
Proof.
  split; [| split; [| split]];
    [vm_compute; reflexivity | vm_compute; reflexivity | discriminate | vm_compute; reflexivity].
Qed.

(** The defaults of the record, whenever the parser returns one. *)
Lemma parse_defaults path content yaml fm :
  excluded path = false ->
  frontmatter_block content = Some yaml ->
  parseYamlSimple yaml = Ok fm ->
  exists parsed,
    parseGovernanceDocument path content = Ok (Some parsed) /\
    p_slug parsed = Parser.pathToSlug path /\
    (fm_get fm "type" = None -> p_type parsed = other) /\
    (fm_get fm "status" = None -> p_status parsed = draft) /\
    (fm_get fm "title" = None -> p_title parsed = JStr (titleFromPath path)) /\
    (fm_get fm "id" = None -> p_id parsed = JStr (Parser.pathToSlug path)) /\
    (fm_get fm "domain" = None -> fm_get fm "domains" = None -> p_domains parsed = []) /\
    (fm_get fm "related" = None -> fm_get fm "relationships" = None ->
     p_relationships parsed = []) /\
    (fm_get fm "scope" = None -> p_scope parsed = []).
Proof.
  intros Hex Hfm Hy. unfold parseGovernanceDocument, extractFrontmatter.
  rewrite Hex, Hfm, Hy. cbn [obind]. eexists. split; [reflexivity |].
  cbn [p_slug p_type p_status p_title p_id p_domains p_relationships p_scope].
  repeat split; intros; repeat match goal with H : fm_get _ _ = None |- _ => rewrite H end;
    reflexivity.
Qed.

(** A file without a metadata block is not indexable, and that is not an
    exception. *)
Lemma no_block_not_indexable path content :
  frontmatter_block content = None -> parseGovernanceDocument path content = Ok None.
Proof. intros H. apply not_indexable_iff. tauto. Qed.

(** ** The concrete scenario *)

(** C5: with the metadata written as the scenario writes it, the step
    stores the document and its domain link, and no relationship edge: the
    parser reads the relationship as type [target] towards a slug that ends
    in a brace. *)
Theorem C5_flow_metadata_gives_no_edge :
  let '(env, r) := sync_file "c1" Scenario.t1 "agreements/operating-agreement.md"
                     Scenario.operating_agreement_flow Scenario.with_charter in
  option_map doc_id (select_document "charter" (GOVERNANCE_DB Scenario.with_charter))
    = Some (Text "charter") /\
  option_map dom_id (select_domain "dao-core" (GOVERNANCE_DB Scenario.with_charter))
    = Some "dom-dao-core" /\
  r = Ok tt /\
  List.map (fun d => (doc_id d, doc_type d, doc_status d))
    (List.filter (has_slug "operating-agreement") (documents (GOVERNANCE_DB env)))
    = [(Text "operating-agreement", agreement, active)] /\
  document_domains (GOVERNANCE_DB env)
    = [mkDocumentDomain (Text "operating-agreement") "dom-dao-core"] /\
  option_map p_relationships
    (match parseGovernanceDocument "agreements/operating-agreement.md"
             Scenario.operating_agreement_flow with
     | Ok p => p
     | Throw _ => None
     end) = Some [mkRel "target" "charter}"] /\
  document_relationships (GOVERNANCE_DB env) = [].
Proof. vm_compute. repeat split. Qed.

(** The block form announced at the head of the parser gives no edge
    either: the entry is read as type [type] towards the slug
    [authorized_by]. *)
Lemma block_metadata_gives_no_edge :
  let '(env, r) := sync_file "c1" Scenario.t1 "agreements/operating-agreement.md"
                     Scenario.operating_agreement_block Scenario.with_charter in
  r = Ok tt /\
  option_map p_relationships
    (match parseGovernanceDocument "agreements/operating-agreement.md"
             Scenario.operating_agreement_block with
     | Ok p => p
     | Throw _ => None
     end) = Some [mkRel "type" "authorized_by"] /\
  document_relationships (GOVERNANCE_DB env) = [].
Proof. vm_compute. repeat split. Qed.

(** The one-line form gives the expected result of the scenario. *)
Lemma inline_metadata_gives_the_edge :
  let '(env, r) := sync_file "c1" Scenario.t1 "agreements/operating-agreement.md"
                     Scenario.operating_agreement_inline Scenario.with_charter in
  r = Ok tt /\
  List.map (fun d => (doc_id d, doc_type d, doc_status d))
    (List.filter (has_slug "operating-agreement") (documents (GOVERNANCE_DB env)))
    = [(Text "operating-agreement", agreement, active)] /\
  document_domains (GOVERNANCE_DB env)
    = [mkDocumentDomain (Text "operating-agreement") "dom-dao-core"] /\
  document_relationships (GOVERNANCE_DB env)
    = [mkRelationship "operating-agreement:authorized_by:charter"
         (Text "operating-agreement") (Text "charter") "authorized_by"
         "2026-01-05 10:00:07"].
Proof. vm_compute. repeat split. Qed.

(** ** Deletion *)

(** C2: a document synced from a path under [proposals/] is not retired by
    the deletion of that path: the deletion side computes another slug and
    its UPDATE matches no row. *)
Theorem C2_proposal_path_not_retired :
  let '(env1, r) := sync_file "c1" Scenario.t1 "proposals/budget.md"
                      Scenario.budget_md Scenario.fresh in
  let env2 := delete_file Scenario.t2 "proposals/budget.md" env1 in
  r = Ok tt /\
  Parser.pathToSlug "proposals/budget.md" = "budget" /\
  Workflow.pathToSlug "proposals/budget.md" = "proposals-budget" /\
  option_map doc_status (select_document "budget" (GOVERNANCE_DB env1)) = Some active /\
  option_map doc_status (select_document "budget" (GOVERNANCE_DB env2)) = Some active /\
  GOVERNANCE_DB env2 = GOVERNANCE_DB env1.
Proof. vm_compute. repeat split. Qed.

Lemma find_map_preserving {A} (p : A -> bool) (f : A -> A) (l : list A) :
  (forall x, p (f x) = p x) ->
  List.find p (List.map f l) = option_map f (List.find p l).
Proof.
  intros Hp. induction l as [|x l IH]; [reflexivity |].
  simpl. rewrite Hp. destruct (p x); [reflexivity | exact IH].
Qed.

Lemma find_has_slug slug l r :
  List.find (has_slug slug) l = Some r -> doc_slug r = slug.
Proof.
  intros H. apply find_some in H as [_ H]. unfold has_slug in H.
  apply String.eqb_eq in H. exact H.
Qed.

(** Where both sides compute the same slug, the deletion retires the row
    and removes none. *)
Lemma delete_retires now db path row :
  select_document (Workflow.pathToSlug path) db = Some row ->
  select_document (Workflow.pathToSlug path) (deleteDocument now db path)
    = Some (retire now row) /\
  length (documents (deleteDocument now db path)) = length (documents db).
Proof.
  intros H. unfold deleteDocument, update_retired, select_document in *. cbn [documents].
  split; [| apply length_map].
  set (slug := Workflow.pathToSlug path) in *.
  rewrite find_map_preserving.
  - rewrite H. cbn [option_map]. apply find_some in H as [_ ->]. reflexivity.
  - intros x. destruct (has_slug slug x) eqn:E; [| exact E]. exact E.
Qed.

(** The two slug functions agree on every path that does not start with
    [proposals/]. *)
Lemma pathToSlug_agree path :
  startsWith "proposals/" path = false -> Workflow.pathToSlug path = Parser.pathToSlug path.
Proof.
  intros H. unfold Workflow.pathToSlug, Parser.pathToSlug.
  unfold Workflow.strip_collection, Parser.strip_collection.
  destruct (strip_prefix "agreements/" path); [reflexivity |].
  destruct (strip_prefix "policies/" path); [reflexivity |].
  destruct (strip_prefix "proposals/" path) eqn:E; [| reflexivity].
  exfalso. revert H E. generalize "proposals/". intros p. revert path.
  induction p as [|a p IH]; intros [|b path]; simpl; try discriminate.
  destruct (Ascii.eqb a b); [apply IH | discriminate].
Qed.

(** ** The store under the sync step *)

Lemma upsert_documents_frame now id slug type title status ef et eb k db db1 :
  upsert_documents now id slug type title status ef et eb k db = Ok db1 ->
  domains db1 = domains db /\
  document_domains db1 = document_domains db /\
  document_relationships db1 = document_relationships db.
Proof.
  unfold upsert_documents. intros H.
  destruct (existsb (has_slug slug) (documents db)).
  - injection H as <-. auto.
  - destruct (existsb (has_id id) (documents db)); [discriminate |].
    injection H as <-. auto.
Qed.

Lemma insert_document_domain_frame document_id domain_id db db1 :
  insert_document_domain document_id domain_id db = Ok db1 ->
  documents db1 = documents db /\
  domains db1 = domains db /\
  document_relationships db1 = document_relationships db /\
  (exists extra, document_domains db1 = (document_domains db ++ extra)%list) /\
  existsb (same_link document_id domain_id) (document_domains db1) = true.
Proof.
  unfold insert_document_domain. intros H.
  destruct (existsb (same_link document_id domain_id) (document_domains db)) eqn:E.
  - injection H as <-. repeat split; auto. exists []. symmetry. apply app_nil_r.
  - destruct (_ && _); [| discriminate]. injection H as <-. cbn.
    repeat split; auto.
    + eexists. reflexivity.
    + rewrite existsb_app. cbn. unfold same_link at 2. cbn.
      rewrite value_eqb_refl, String.eqb_refl. apply orb_true_r.
Qed.

Lemma insert_relationship_frame now id from_id to_id type db db1 :
  insert_relationship now id from_id to_id type db = Ok db1 ->
  documents db1 = documents db /\
  domains db1 = domains db /\
  document_domains db1 = document_domains db /\
  (exists extra, document_relationships db1 = (document_relationships db ++ extra)%list) /\
  (valid_relationship_type type = false \/
   existsb (fun r => String.eqb (dr_id r) id) (document_relationships db1) = true).
Proof.
  unfold insert_relationship. intros H.
  destruct (valid_relationship_type type).
  2:{ injection H as <-. repeat split; auto. exists []. symmetry. apply app_nil_r. }
  cbn [negb] in H.
  destruct (existsb (fun r => String.eqb (dr_id r) id) (document_relationships db)) eqn:E.
  - injection H as <-. repeat split; auto. exists []. symmetry. apply app_nil_r.
  - destruct (_ && _); [| discriminate]. injection H as <-. cbn.
    repeat split; auto.
    + eexists. reflexivity.
    + right. rewrite existsb_app. cbn. rewrite String.eqb_refl. apply orb_true_r.
Qed.

(** The two loops leave the documents alone and only append to their own
    table, whether they complete or throw. *)
Lemma link_domains_frame id slugs db :
  documents (fst (link_domains id slugs db)) = documents db /\
  domains (fst (link_domains id slugs db)) = domains db /\
  document_relationships (fst (link_domains id slugs db)) = document_relationships db /\
  exists extra,
    document_domains (fst (link_domains id slugs db)) = (document_domains db ++ extra)%list.
Proof.
  revert db. induction slugs as [|s slugs IH]; intros db; cbn [link_domains].
  - repeat split. exists []. symmetry. apply app_nil_r.
  - destruct (select_domain s db) as [d|]; [| apply IH].
    destruct (insert_document_domain id (dom_id d) db) as [db1|e] eqn:E.
    + apply insert_document_domain_frame in E as (H1 & H2 & H3 & [x Hx] & _).
      destruct (IH db1) as (I1 & I2 & I3 & [y Hy]).
      rewrite I1, I2, I3, Hy, H1, H2, H3, Hx. repeat split.
      exists (x ++ y)%list. symmetry. apply app_assoc.
    + cbn. repeat split. exists []. symmetry. apply app_nil_r.
Qed.

Lemma link_relationships_frame now id rels db :
  documents (fst (link_relationships now id rels db)) = documents db /\
  domains (fst (link_relationships now id rels db)) = domains db /\
  document_domains (fst (link_relationships now id rels db)) = document_domains db /\
  exists extra,
    document_relationships (fst (link_relationships now id rels db))
    = (document_relationships db ++ extra)%list.
Proof.
  revert db. induction rels as [|rel rels IH]; intros db; cbn [link_relationships].
  - repeat split. exists []. symmetry. apply app_nil_r.
  - destruct (select_document (targetSlug rel) db) as [t|]; [| apply IH].
    destruct (insert_relationship now _ id (doc_id t) (rel_type rel) db) as [db1|e] eqn:E.
    + apply insert_relationship_frame in E as (H1 & H2 & H3 & [x Hx] & _).
      destruct (IH db1) as (I1 & I2 & I3 & [y Hy]).
      rewrite I1, I2, I3, Hy, H1, H2, H3, Hx. repeat split.
      exists (x ++ y)%list. symmetry. apply app_assoc.
    + cbn. repeat split. exists []. symmetry. apply app_nil_r.
Qed.

(** The documents table after [upsertDocument] is the one left by its first
    statement. *)
Lemma upsertDocument_documents now db parsed k id title ef et eb db1 :
  bind_document parsed = Ok (id, title, ef, et, eb) ->
  upsert_documents now id (p_slug parsed) (p_type parsed) title (p_status parsed)
    ef et eb k db = Ok db1 ->
  documents (fst (upsertDocument now db (Some parsed) k)) = documents db1.
Proof.
  intros Hb Hu. unfold upsertDocument. rewrite Hb, Hu.
  pose proof (link_domains_frame id (p_domains parsed) db1) as (D1 & _).
  destruct (link_domains id (p_domains parsed) db1) as [db2 [[]|e]]; cbn [fst] in *.
  - pose proof (link_relationships_frame now id (p_relationships parsed) db2) as (R1 & _).
    rewrite R1. exact D1.
  - exact D1.
Qed.

Lemma upsert_documents_conflict now id slug type title status ef et eb k db :
  existsb (has_slug slug) (documents db) = true ->
  upsert_documents now id slug type title status ef et eb k db
  = Ok {| documents :=
            List.map (fun r => if has_slug slug r
                               then overwrite title status ef et eb k now r else r)
                     (documents db);
          domains := domains db;
          document_domains := document_domains db;
          document_relationships := document_relationships db |}.
Proof. intros H. unfold upsert_documents. rewrite H. reflexivity. Qed.

Lemma select_document_exists slug db row :
  select_document slug db = Some row -> existsb (has_slug slug) (documents db) = true.
Proof.
  unfold select_document. intros H. apply find_some in H as [Hin Hp].
  apply existsb_exists. exists row. split; assumption.
Qed.

Lemma has_slug_overwrite s slug title status ef et eb k now r :
  has_slug s (if has_slug slug r then overwrite title status ef et eb k now r else r)
  = has_slug s r.
Proof. destruct (has_slug slug r); reflexivity. Qed.

(** C9: when a row with the slug of the parsed record exists, either a
    value of the record is refused by [bind], and then no statement runs,
    the store is as it was and the step throws; or the upsert takes the
    conflict branch: it leaves the row's id, slug, type, content hash and
    creation time as stored, whatever id and type the record carries; it
    overwrites title, status, the two dates, the enacting proposal, the
    mirror key and the update time with the values bound from the record (a
    blank key as the empty blob); it adds no row and changes no other
    row. *)
Theorem C9_conflict_keeps_id_and_type now db parsed r2Key row :
  select_document (p_slug parsed) db = Some row ->
  match bind_document parsed with
  | Throw e => upsertDocument now db (Some parsed) r2Key = (db, Throw e)
  | Ok (id, title, ef, et, eb) =>
      exists row',
        select_document (p_slug parsed) (fst (upsertDocument now db (Some parsed) r2Key))
          = Some row' /\
        doc_id row' = doc_id row /\ doc_type row' = doc_type row /\
        doc_slug row' = doc_slug row /\
        doc_content_hash row' = doc_content_hash row /\
        doc_created_at row' = doc_created_at row /\
        doc_title row' = title /\ doc_status row' = p_status parsed /\
        doc_effective_from row' = ef /\ doc_effective_to row' = et /\
        doc_enacted_by row' = eb /\ doc_r2_key row' = Some r2Key /\
        doc_updated_at row' = now /\
        length (documents (fst (upsertDocument now db (Some parsed) r2Key)))
          = length (documents db) /\
        forall slug', slug' <> p_slug parsed ->
          select_document slug' (fst (upsertDocument now db (Some parsed) r2Key))
          = select_document slug' db
  end.
Proof.
  intros Hsel.
  destruct (bind_document parsed) as [[[[[id title] ef] et] eb]|e] eqn:Hbind.
  2:{ unfold upsertDocument. rewrite Hbind. reflexivity. }
  pose proof (upsert_documents_conflict now id (p_slug parsed) (p_type parsed) title
                (p_status parsed) ef et eb r2Key db (select_document_exists _ _ _ Hsel)) as Hu.
  exists (overwrite title (p_status parsed) ef et eb r2Key now row).
  unfold select_document.
  rewrite !(upsertDocument_documents _ _ _ _ _ _ _ _ _ _ Hbind Hu). cbn [documents].
  split; [| repeat split].
  - rewrite find_map_preserving; [| intros; apply has_slug_overwrite].
    unfold select_document in Hsel. rewrite Hsel. cbn [option_map].
    apply find_some in Hsel as [_ ->]. reflexivity.
  - apply length_map.
  - intros slug' Hne.
    rewrite find_map_preserving; [| intros; apply has_slug_overwrite].
    destruct (find (has_slug slug') (documents db)) as [r|] eqn:E; [| reflexivity].
    cbn [option_map]. apply find_has_slug in E.
    unfold has_slug at 1. rewrite E.
    destruct (String.eqb_spec slug' (p_slug parsed)); [contradiction | reflexivity].
Qed.

Lemma C9_witness :
  parseGovernanceDocument "agreements/charter.md" Scenario.charter_retyped_md
    = Ok (Some Scenario.charter_retyped) /\
  exists row',
    select_document "charter"
      (fst (upsertDocument "2026-01-06 09:30:00" (GOVERNANCE_DB Scenario.with_charter)
              (Some Scenario.charter_retyped) "governance/agreements/charter.md"))
      = Some row' /\
    doc_id row' = Text "charter" /\ doc_type row' = agreement /\
    doc_title row' = Text "Charter, second edition" /\ doc_status row' = superseded.
Proof.
  split; [vm_compute; reflexivity |].
  pose proof (C9_conflict_keeps_id_and_type "2026-01-06 09:30:00"
                (GOVERNANCE_DB Scenario.with_charter) Scenario.charter_retyped
                "governance/agreements/charter.md" Scenario.charter_row) as H.
  cbv beta iota delta [bind_document Scenario.charter_retyped p_id p_title
                       p_effectiveFrom p_effectiveTo p_enactedBy bind_value bind_nullable
                       obind] in H.
  destruct H as (row' & Hsel & Hid & Hty & _ & _ & _ & Htitle & Hstatus & _).
  - vm_compute; reflexivity.
  - exists row'. repeat split; assumption.
Defined.

(** ** Re-running the sync step *)

Lemma existsb_app_l {A} (p : A -> bool) (l extra : list A) :
  existsb p l = true -> existsb p (l ++ extra) = true.
Proof. intros H. rewrite existsb_app, H. reflexivity. Qed.

Lemma link_domains_noop id slugs db :
  domains_linked id slugs db -> link_domains id slugs db = (db, Ok tt).
Proof.
  unfold domains_linked. induction slugs as [|s slugs IH]; intros H; cbn [link_domains].
  - reflexivity.
  - apply Forall_cons_iff in H as [Hs Hrest].
    destruct (select_domain s db) as [d|]; [| apply IH, Hrest].
    unfold insert_document_domain. rewrite (Hs d eq_refl). apply IH, Hrest.
Qed.

Lemma select_domain_same db db' s :
  domains db' = domains db -> select_domain s db' = select_domain s db.
Proof. unfold select_domain. intros ->. reflexivity. Qed.

Lemma domains_linked_transfer id slugs db db' extra :
  domains db' = domains db ->
  document_domains db' = (document_domains db ++ extra)%list ->
  domains_linked id slugs db -> domains_linked id slugs db'.
Proof.
  intros Hd Hl. unfold domains_linked. rewrite !List.Forall_forall.
  intros HF s Hin d Hsel. specialize (HF s Hin).
  rewrite (select_domain_same _ _ _ Hd) in Hsel. rewrite Hl.
  apply existsb_app_l, HF, Hsel.
Qed.

Lemma link_domains_linked id slugs db db' :
  link_domains id slugs db = (db', Ok tt) -> domains_linked id slugs db'.
Proof.
  revert db. induction slugs as [|s slugs IH]; intros db H; cbn [link_domains] in H.
  - constructor.
  - destruct (select_domain s db) as [d|] eqn:Hs.
    + destruct (insert_document_domain id (dom_id d) db) as [db1|e] eqn:Hi;
        [| discriminate].
      constructor; [| exact (IH _ H)].
      intros d' Hd'.
      pose proof (link_domains_frame id slugs db1) as (_ & Hdom & _ & [extra Hx]).
      rewrite H in Hdom, Hx. cbn [fst] in Hdom, Hx.
      apply insert_document_domain_frame in Hi as (_ & Hdom1 & _ & _ & Hin).
      rewrite (select_domain_same db db' s) in Hd'; [| congruence].
      rewrite Hs in Hd'. injection Hd' as <-.
      rewrite Hx. apply existsb_app_l, Hin.
    + constructor; [| exact (IH _ H)].
      intros d' Hd'.
      pose proof (link_domains_frame id slugs db) as (_ & Hdom & _).
      rewrite H in Hdom. cbn [fst] in Hdom.
      rewrite (select_domain_same db db' s Hdom) in Hd'. congruence.
Qed.

Lemma link_relationships_noop now id rels db :
  relationships_linked id rels db -> link_relationships now id rels db = (db, Ok tt).
Proof.
  unfold relationships_linked.
  induction rels as [|rel rels IH]; intros H; cbn [link_relationships].
  - reflexivity.
  - apply Forall_cons_iff in H as [Hr Hrest].
    destruct (select_document (targetSlug rel) db) as [t|]; [| apply IH, Hrest].
    unfold insert_relationship.
    destruct (Hr t eq_refl) as [Hv | He].
    + rewrite Hv. cbn [negb]. apply IH, Hrest.
    + rewrite He. destruct (valid_relationship_type (rel_type rel)); apply IH, Hrest.
Qed.

Lemma select_document_same db db' s :
  documents db' = documents db -> select_document s db' = select_document s db.
Proof. unfold select_document. intros ->. reflexivity. Qed.

Lemma link_relationships_linked now id rels db db' :
  link_relationships now id rels db = (db', Ok tt) -> relationships_linked id rels db'.
Proof.
  revert db. induction rels as [|rel rels IH]; intros db H; cbn [link_relationships] in H.
  - constructor.
  - destruct (select_document (targetSlug rel) db) as [t|] eqn:Hs.
    + destruct (insert_relationship now (relId id rel t) id (doc_id t) (rel_type rel) db)
        as [db1|e] eqn:Hi; [| discriminate].
      constructor; [| exact (IH _ H)].
      intros t' Ht'.
      pose proof (link_relationships_frame now id rels db1) as (Hdoc & _ & _ & [extra Hx]).
      rewrite H in Hdoc, Hx. cbn [fst] in Hdoc, Hx.
      apply insert_relationship_frame in Hi as (Hdoc1 & _ & _ & _ & Hin).
      rewrite (select_document_same db db' (targetSlug rel)) in Ht'; [| congruence].
      rewrite Hs in Ht'. injection Ht' as <-.
      destruct Hin as [Hv | Hin]; [left; exact Hv | right].
      rewrite Hx. apply existsb_app_l, Hin.
    + constructor; [| exact (IH _ H)].
      intros t' Ht'.
      pose proof (link_relationships_frame now id rels db) as (Hdoc & _).
      rewrite H in Hdoc. cbn [fst] in Hdoc.
      rewrite (select_document_same db db' _ Hdoc) in Ht'. congruence.
Qed.

(** A store whose documents keep their ids and slugs row by row, and whose
    edges are still there, keeps the relationships linked. *)
Lemma relationships_linked_transfer id rels db db' g extra :
  documents db' = List.map g (documents db) ->
  (forall r, doc_id (g r) = doc_id r /\ doc_slug (g r) = doc_slug r) ->
  document_relationships db' = (document_relationships db ++ extra)%list ->
  relationships_linked id rels db -> relationships_linked id rels db'.
Proof.
  intros Hdoc Hg Hrel. unfold relationships_linked. rewrite !List.Forall_forall.
  intros HF rel Hin t' Ht'. pose proof (HF rel Hin) as H.
  unfold select_document in Ht'. rewrite Hdoc in Ht'.
  rewrite find_map_preserving in Ht'.
  2:{ intros x. unfold has_slug. destruct (Hg x) as [_ ->]. reflexivity. }
  destruct (find (has_slug (targetSlug rel)) (documents db)) as [t|] eqn:Ht;
    [| discriminate].
  injection Ht' as <-.
  destruct (H t Ht) as [Hv | He]; [left; exact Hv | right].
  unfold relId in *. destruct (Hg t) as [-> _]. rewrite Hrel.
  apply existsb_app_l, He.
Qed.

Lemma upsertDocument_ok_inv now db parsed k db' :
  upsertDocument now db (Some parsed) k = (db', Ok tt) ->
  exists id title ef et eb db1 db2,
    bind_document parsed = Ok (id, title, ef, et, eb) /\
    upsert_documents now id (p_slug parsed) (p_type parsed) title (p_status parsed)
      ef et eb k db = Ok db1 /\
    link_domains id (p_domains parsed) db1 = (db2, Ok tt) /\
    link_relationships now id (p_relationships parsed) db2 = (db', Ok tt).
Proof.
  unfold upsertDocument. intros H.
  destruct (bind_document parsed) as [[[[[id title] ef] et] eb]|e]; [| discriminate].
  destruct (upsert_documents now id (p_slug parsed) (p_type parsed) title
              (p_status parsed) ef et eb k db) as [db1|e] eqn:Hu; [| discriminate].
  destruct (link_domains id (p_domains parsed) db1) as [db2 [[]|e]] eqn:Hd;
    [| discriminate].
  exists id, title, ef, et, eb, db1, db2. auto.
Qed.

(** After the upsert a row with the slug exists, and every row with the slug
    already holds the values of the SET clause. *)
Lemma upsert_documents_rows now id slug type title status ef et eb k db db1 :
  upsert_documents now id slug type title status ef et eb k db = Ok db1 ->
  existsb (has_slug slug) (documents db1) = true /\
  forall now' r, In r (documents db1) -> has_slug slug r = true ->
    overwrite title status ef et eb k now' r = touch now' r.
Proof.
  unfold upsert_documents. intros H.
  destruct (existsb (has_slug slug) (documents db)) eqn:E.
  - injection H as <-. cbn [documents]. split.
    + rewrite existsb_exists in *. destruct E as (r & Hin & Hr).
      exists (overwrite title status ef et eb k now r). split.
      * apply in_map_iff. exists r. rewrite Hr. auto.
      * exact Hr.
    + intros now' r Hin Hr. apply in_map_iff in Hin as (r0 & <- & _).
      destruct (has_slug slug r0) eqn:E0; [reflexivity | congruence].
  - destruct (existsb (has_id id) (documents db)); [discriminate |].
    injection H as <-. cbn [documents]. split.
    + rewrite existsb_app. apply orb_true_iff. right.
      cbn. unfold has_slug. cbn. rewrite String.eqb_refl. reflexivity.
    + intros now' r Hin Hr. apply in_app_iff in Hin as [Hin | [<- | []]].
      * assert (existsb (has_slug slug) (documents db) = true) as Hc
          by (apply existsb_exists; eauto).
        congruence.
      * reflexivity.
Qed.

Lemma upsert_documents_unique now id slug type title status ef et eb k db db1 :
  unique_slugs db ->
  upsert_documents now id slug type title status ef et eb k db = Ok db1 ->
  unique_slugs db1.
Proof.
  unfold upsert_documents, unique_slugs. intros Hu H.
  destruct (existsb (has_slug slug) (documents db)) eqn:E.
  - injection H as <-. cbn [documents]. rewrite map_map.
    erewrite map_ext; [exact Hu |]. intros r. cbn. destruct (has_slug slug r); reflexivity.
  - destruct (existsb (has_id id) (documents db)); [discriminate |].
    injection H as <-. cbn [documents]. rewrite map_app. cbn.
    apply NoDup_app. split; [exact Hu | split].
    + intros x Hx Hx'. apply list_elem_of_In in Hx, Hx'.
      destruct Hx' as [<- | []].
      apply in_map_iff in Hx as (r & Hr & Hin).
      assert (existsb (has_slug slug) (documents db) = true) as Hc.
      { apply existsb_exists. exists r. split; [exact Hin |].
        unfold has_slug. rewrite Hr. apply String.eqb_refl. }
      congruence.
    + apply NoDup_singleton.
Qed.

Lemma filter_map_preserving {A} (p : A -> bool) (f : A -> A) (l : list A) :
  (forall x, p (f x) = p x) ->
  List.filter p (List.map f l) = List.map f (List.filter p l).
Proof.
  intros Hp. induction l as [|x l IH]; [reflexivity |].
  cbn. rewrite Hp. destruct (p x); cbn; rewrite IH; reflexivity.
Qed.

Lemma filter_unique slug l r :
  NoDup (List.map doc_slug l) ->
  List.find (has_slug slug) l = Some r ->
  List.filter (has_slug slug) l = [r].
Proof.
  induction l as [|x l IH]; [discriminate |].
  cbn. intros Hnd Hf. apply NoDup_cons in Hnd as [Hx Hnd].
  destruct (has_slug slug x) eqn:E.
  - injection Hf as <-. f_equal.
    clear IH Hnd. induction l as [|y l IH]; [reflexivity |].
    cbn. destruct (has_slug slug y) eqn:Ey.
    + exfalso. apply Hx. unfold has_slug in *.
      apply String.eqb_eq in E, Ey. cbn. rewrite E, Ey. left.
    + apply IH. intros Hin. apply Hx. cbn. right. exact Hin.
  - apply IH; assumption.
Qed.

(** Running [upsertDocument] again with the same record on the store it
    left: the statement takes the conflict branch and rewrites the same
    values, the two loops find every link stored. *)
Lemma upsertDocument_again now1 now2 db parsed k db' :
  upsertDocument now1 db (Some parsed) k = (db', Ok tt) ->
  upsertDocument now2 db' (Some parsed) k = (touch_slug now2 (p_slug parsed) db', Ok tt).
Proof.
  intros H. apply upsertDocument_ok_inv in H
    as (id & title & ef & et & eb & db1 & db2 & Hb & Hu & Hd & Hr).
  pose proof (link_domains_frame id (p_domains parsed) db1) as (D1 & D2 & D3 & [dx D4]).
  rewrite Hd in D1, D2, D3, D4. cbn [fst] in D1, D2, D3, D4.
  pose proof (link_relationships_frame now1 id (p_relationships parsed) db2)
    as (R1 & R2 & R3 & [rx R4]).
  rewrite Hr in R1, R2, R3, R4. cbn [fst] in R1, R2, R3, R4.
  apply upsert_documents_rows in Hu as [Hex Hrows].
  assert (documents db' = documents db1) as Hdocs by congruence.
  unfold upsertDocument. rewrite Hb.
  rewrite upsert_documents_conflict; [| rewrite Hdocs; exact Hex].
  assert ({| documents :=
               List.map (fun r => if has_slug (p_slug parsed) r
                                  then overwrite title (p_status parsed) ef et eb k now2 r
                                  else r) (documents db');
             domains := domains db';
             document_domains := document_domains db';
             document_relationships := document_relationships db' |}
          = touch_slug now2 (p_slug parsed) db') as ->.
  { unfold touch_slug. f_equal. apply map_ext_in. intros r Hin.
    destruct (has_slug (p_slug parsed) r) eqn:E; [| reflexivity].
    apply Hrows; [rewrite <- Hdocs; exact Hin | exact E]. }
  rewrite link_domains_noop.
  2:{ apply (domains_linked_transfer id _ db2 _ []).
      - cbn. congruence.
      - cbn. rewrite app_nil_r. congruence.
      - apply (link_domains_linked _ _ _ _ Hd). }
  apply link_relationships_noop.
  apply (relationships_linked_transfer id _ db' _
           (fun r => if has_slug (p_slug parsed) r then touch now2 r else r) []).
  - reflexivity.
  - intros r. destruct (has_slug (p_slug parsed) r); auto.
  - cbn. symmetry. apply app_nil_r.
  - apply (link_relationships_linked _ _ _ _ _ Hr).
Qed.

Lemma upsertDocument_unique now db parsed k db' :
  unique_slugs db ->
  upsertDocument now db (Some parsed) k = (db', Ok tt) ->
  unique_slugs db'.
Proof.
  intros Hu H. apply upsertDocument_ok_inv in H
    as (id & title & ef & et & eb & db1 & db2 & Hb & Hup & Hd & Hr).
  pose proof (link_domains_frame id (p_domains parsed) db1) as (D1 & _).
  rewrite Hd in D1. cbn [fst] in D1.
  pose proof (link_relationships_frame now id (p_relationships parsed) db2) as (R1 & _).
  rewrite Hr in R1. cbn [fst] in R1.
  unfold unique_slugs. rewrite R1, D1.
  exact (upsert_documents_unique _ _ _ _ _ _ _ _ _ _ _ _ Hu Hup).
Qed.

Lemma upsertDocument_has_row now db parsed k db' :
  upsertDocument now db (Some parsed) k = (db', Ok tt) ->
  exists row, select_document (p_slug parsed) db' = Some row.
Proof.
  intros H. apply upsertDocument_ok_inv in H
    as (id & title & ef & et & eb & db1 & db2 & Hb & Hup & Hd & Hr).
  pose proof (link_domains_frame id (p_domains parsed) db1) as (D1 & _).
  rewrite Hd in D1. cbn [fst] in D1.
  pose proof (link_relationships_frame now id (p_relationships parsed) db2) as (R1 & _).
  rewrite Hr in R1. cbn [fst] in R1.
  apply upsert_documents_rows in Hup as [Hex _].
  unfold select_document. rewrite R1, D1.
  apply existsb_exists in Hex as (r & Hin & Hp).
  destruct (find (has_slug (p_slug parsed)) (documents db1)) as [row|] eqn:E.
  - exists row. reflexivity.
  - exfalso. apply (find_none _ _ E) in Hin. congruence.
Qed.

Lemma sync_file_parsed sha t path content parsed env :
  parseGovernanceDocument path content = Ok (Some parsed) ->
  sync_file sha t path content env
  = (mkEnv (<[("governance/" ++ path) := mkR2Object content sha (toISOString t)]>
              (GOVERNANCE_CONTENT env))
           (fst (upsertDocument (datetime_now t) (GOVERNANCE_DB env) (Some parsed)
                   ("governance/" ++ path))),
     snd (upsertDocument (datetime_now t) (GOVERNANCE_DB env) (Some parsed)
            ("governance/" ++ path))).
Proof.
  intros H. unfold sync_file. rewrite H.
  destruct (upsertDocument _ _ _ _). reflexivity.
Qed.

(** C1, as the claim words it, fails: the second run of the step rewrites
    [updated_at] with the time of that run, so the row differs from the row
    left by the first run as soon as the clock has moved. *)
Lemma C1_counterexample :
  let env1 := fst (sync_file "c0" Scenario.t0 "agreements/charter.md"
                     Scenario.charter_md Scenario.fresh) in
  let env2 := fst (sync_file "c0" Scenario.t1 "agreements/charter.md"
                     Scenario.charter_md env1) in
  Parser.pathToSlug "agreements/charter.md" = "charter" /\
  option_map doc_updated_at (select_document "charter" (GOVERNANCE_DB env1))
    = Some "2026-01-05 10:00:00" /\
  option_map doc_updated_at (select_document "charter" (GOVERNANCE_DB env2))
    = Some "2026-01-05 10:00:07" /\
  select_document "charter" (GOVERNANCE_DB env2)
    <> select_document "charter" (GOVERNANCE_DB env1).
Proof. vm_compute. repeat split. discriminate. Qed.

(** C1, amended: when the first run of the step on a parseable file
    completes, a second run completes too; after each run exactly one row
    has the derived slug, and the second run changes nothing in the store
    but [updated_at] of that row, which takes the time of the second run. *)
Theorem C1_resync_keeps_one_row sha1 sha2 ta tb path content parsed env env1 :
  unique_slugs (GOVERNANCE_DB env) ->
  parseGovernanceDocument path content = Ok (Some parsed) ->
  sync_file sha1 ta path content env = (env1, Ok tt) ->
  exists env2 row,
    sync_file sha2 tb path content env1 = (env2, Ok tt) /\
    p_slug parsed = Parser.pathToSlug path /\
    List.filter (has_slug (p_slug parsed)) (documents (GOVERNANCE_DB env1)) = [row] /\
    List.filter (has_slug (p_slug parsed)) (documents (GOVERNANCE_DB env2))
      = [touch (datetime_now tb) row] /\
    GOVERNANCE_DB env2 = touch_slug (datetime_now tb) (p_slug parsed) (GOVERNANCE_DB env1).
Proof.
  intros Huniq Hparse H1.
  rewrite (sync_file_parsed _ _ _ _ _ _ Hparse) in H1.
  destruct (upsertDocument (datetime_now ta) (GOVERNANCE_DB env) (Some parsed)
              ("governance/" ++ path)) as [db1 r1] eqn:Hup.
  cbn [fst snd] in H1. injection H1 as <- ->. cbn [GOVERNANCE_DB GOVERNANCE_CONTENT].
  pose proof (upsertDocument_again _ (datetime_now tb) _ _ _ _ Hup) as Hagain.
  destruct (upsertDocument_has_row _ _ _ _ _ Hup) as [row Hrow].
  pose proof (upsertDocument_unique _ _ _ _ _ Huniq Hup) as Huniq1.
  eexists. exists row. split; [| split; [| split; [| split]]].
  - rewrite (sync_file_parsed _ _ _ _ _ _ Hparse). cbn [GOVERNANCE_DB GOVERNANCE_CONTENT].
    rewrite Hagain. reflexivity.
  - unfold parseGovernanceDocument in Hparse.
    destruct (excluded path); [discriminate |].
    destruct (extractFrontmatter content) as [[fm|]|]; cbn in Hparse; try discriminate.
    injection Hparse as <-. reflexivity.
  - apply filter_unique; assumption.
  - cbn [GOVERNANCE_DB touch_slug documents fst].
    rewrite filter_map_preserving.
    + rewrite (filter_unique _ _ _ Huniq1 Hrow). cbn.
      apply find_some in Hrow as [_ ->]. reflexivity.
    + intros x. destruct (has_slug (p_slug parsed) x) eqn:E; [exact E | exact E].
  - reflexivity.
Qed.

Lemma C1_witness :
  exists env2 row,
    sync_file "c1" Scenario.t1 "agreements/charter.md" Scenario.charter_md
      Scenario.with_charter = (env2, Ok tt) /\
    List.filter (has_slug "charter") (documents (GOVERNANCE_DB Scenario.with_charter))
      = [row] /\
    List.filter (has_slug "charter") (documents (GOVERNANCE_DB env2))
      = [touch "2026-01-05 10:00:07" row].
Proof.
  destruct (C1_resync_keeps_one_row "c0" "c1" Scenario.t0 Scenario.t1
              "agreements/charter.md" Scenario.charter_md
              {| p_id := JStr "charter"; p_slug := "charter"; p_type := agreement;
                 p_title := JStr "Charter"; p_status := active;
                 p_effectiveFrom := None; p_effectiveTo := None; p_enactedBy := None;
                 p_domains := []; p_relationships := []; p_scope := [] |}
              Scenario.fresh Scenario.with_charter)
    as (env2 & row & H1 & _ & H2 & H3 & _).
  - vm_compute. constructor.
  - vm_compute; reflexivity.
  - vm_compute; reflexivity.
  - exists env2, row. auto.
Defined.

(** ** Dangling references *)

Lemma find_app_singleton {A} (p : A -> bool) (l : list A) (x : A) :
  List.find p (l ++ [x]) =
  match List.find p l with
  | Some y => Some y
  | None => if p x then Some x else None
  end.
Proof.
  induction l as [|y l IH]; [reflexivity |].
  cbn. destruct (p y); [reflexivity | exact IH].
Qed.

Lemma upsert_documents_select_other now id slug type title status ef et eb k db db1 s :
  upsert_documents now id slug type title status ef et eb k db = Ok db1 ->
  s <> slug ->
  select_document s db1 = select_document s db.
Proof.
  unfold upsert_documents, select_document. intros H Hne.
  destruct (existsb (has_slug slug) (documents db)).
  - injection H as <-. cbn [documents].
    rewrite find_map_preserving; [| intros; apply has_slug_overwrite].
    destruct (find (has_slug s) (documents db)) as [r|] eqn:E; [| reflexivity].
    cbn [option_map]. apply find_has_slug in E.
    unfold has_slug at 1. rewrite E.
    destruct (String.eqb_spec s slug); [contradiction | reflexivity].
  - destruct (existsb (has_id id) (documents db)); [discriminate |].
    injection H as <-. cbn [documents]. rewrite find_app_singleton.
    destruct (find (has_slug s) (documents db)); [reflexivity |].
    unfold has_slug. cbn.
    destruct (String.eqb_spec slug s); [congruence | reflexivity].
Qed.

(** The row of the slug after the upsert keeps the stored id when there was
    a row, and has the id of the record otherwise. *)
Lemma upsert_documents_select_id now id slug type title status ef et eb k db db1 :
  upsert_documents now id slug type title status ef et eb k db = Ok db1 ->
  exists r, select_document slug db1 = Some r /\
    doc_id r = match select_document slug db with
               | Some r0 => doc_id r0
               | None => id
               end.
Proof.
  unfold upsert_documents, select_document. intros H.
  destruct (existsb (has_slug slug) (documents db)) eqn:E.
  - injection H as <-. cbn [documents].
    rewrite find_map_preserving; [| intros; apply has_slug_overwrite].
    destruct (find (has_slug slug) (documents db)) as [r0|] eqn:F.
    + cbn [option_map]. eexists. split; [reflexivity |].
      destruct (has_slug slug r0); reflexivity.
    + exfalso. apply existsb_exists in E as (r & Hin & Hr).
      apply (find_none _ _ F) in Hin. congruence.
  - destruct (existsb (has_id id) (documents db)); [discriminate |].
    injection H as <-. cbn [documents]. rewrite find_app_singleton.
    destruct (find (has_slug slug) (documents db)) as [r0|] eqn:F.
    + exfalso. apply find_some in F as [Hin Hr].
      assert (existsb (has_slug slug) (documents db) = true) as Hc
        by (apply existsb_exists; eauto).
      congruence.
    + unfold has_slug. cbn. rewrite String.eqb_refl. eexists. split; reflexivity.
Qed.

(** Whatever its outcome, [upsertDocument] touches no row of another slug,
    leaves the domains alone and only appends to the two link tables. *)
Lemma upsertDocument_frame now db parsed k :
  (forall s, s <> p_slug parsed ->
     select_document s (fst (upsertDocument now db (Some parsed) k)) = select_document s db) /\
  domains (fst (upsertDocument now db (Some parsed) k)) = domains db /\
  (exists extra, document_domains (fst (upsertDocument now db (Some parsed) k))
                 = (document_domains db ++ extra)%list) /\
  (exists extra, document_relationships (fst (upsertDocument now db (Some parsed) k))
                 = (document_relationships db ++ extra)%list).
Proof.
  assert (forall (db0 : D1),
            (forall s, s <> p_slug parsed -> select_document s db0 = select_document s db0) /\
            domains db0 = domains db0 /\
            (exists extra, document_domains db0 = (document_domains db0 ++ extra)%list) /\
            (exists extra, document_relationships db0
                           = (document_relationships db0 ++ extra)%list)) as Hrefl.
  { intros db0. repeat split; exists []; symmetry; apply app_nil_r. }
  unfold upsertDocument.
  destruct (bind_document parsed) as [[[[[id title] ef] et] eb]|e]; [| apply Hrefl].
  destruct (upsert_documents now id (p_slug parsed) (p_type parsed) title
              (p_status parsed) ef et eb k db) as [db1|e] eqn:Hu; [| apply Hrefl].
  pose proof (upsert_documents_frame _ _ _ _ _ _ _ _ _ _ _ _ Hu) as (U2 & U3 & U4).
  pose proof (link_domains_frame id (p_domains parsed) db1) as (D1 & D2 & D3 & [dx D4]).
  destruct (link_domains id (p_domains parsed) db1) as [db2 [[]|e]]; cbn [fst] in *.
  - pose proof (link_relationships_frame now id (p_relationships parsed) db2)
      as (R1 & R2 & R3 & [rx R4]).
    split; [| split; [| split]].
    + intros s Hs. rewrite (select_document_same db2 _ s R1).
      rewrite (select_document_same db1 _ s D1).
      exact (upsert_documents_select_other _ _ _ _ _ _ _ _ _ _ _ _ s Hu Hs).
    + congruence.
    + exists dx. congruence.
    + exists rx. congruence.
  - split; [| split; [| split]].
    + intros s Hs. rewrite (select_document_same db1 _ s D1).
      exact (upsert_documents_select_other _ _ _ _ _ _ _ _ _ _ _ _ s Hu Hs).
    + congruence.
    + exists dx. congruence.
    + exists []. rewrite app_nil_r. congruence.
Qed.

Lemma bind_document_inv parsed id title ef et eb :
  bind_document parsed = Ok (id, title, ef, et, eb) ->
  bind_value (p_id parsed) = Ok id /\
  bind_value (p_title parsed) = Ok title /\
  bind_nullable (p_effectiveFrom parsed) = Ok ef /\
  bind_nullable (p_effectiveTo parsed) = Ok et /\
  bind_nullable (p_enactedBy parsed) = Ok eb.
Proof.
  unfold bind_document.
  destruct (bind_value (p_id parsed)); cbn; [| discriminate].
  destruct (bind_value (p_title parsed)); cbn; [| discriminate].
  destruct (bind_nullable (p_effectiveFrom parsed)); cbn; [| discriminate].
  destruct (bind_nullable (p_effectiveTo parsed)); cbn; [| discriminate].
  destruct (bind_nullable (p_enactedBy parsed)); cbn; [| discriminate].
  intros H. injection H as -> -> -> -> ->. auto.
Qed.

Lemma bind_document_id parsed idC id title ef et eb :
  bind_value (p_id parsed) = Ok idC ->
  bind_document parsed = Ok (id, title, ef, et, eb) ->
  id = idC.
Proof.
  intros H Hb. apply bind_document_inv in Hb as (Hid & _). congruence.
Qed.

Lemma select_document_has_id slug db row :
  select_document slug db = Some row -> existsb (has_id (doc_id row)) (documents db) = true.
Proof.
  unfold select_document. intros H. apply find_some in H as [Hin _].
  apply existsb_exists. exists row. split; [exact Hin |].
  unfold has_id. apply value_eqb_refl.
Qed.

(** A relationship whose target has no row is skipped: the loop does what
    it does without it. *)
Lemma link_relationships_dangling now id rel rels db :
  select_document (targetSlug rel) db = None ->
  link_relationships now id (rel :: rels) db = link_relationships now id rels db.
Proof. intros H. cbn [link_relationships]. rewrite H. reflexivity. Qed.

(** C4, as the claim words it, fails: a document whose relationship points
    to its own slug, synced into a store without that slug, gets its edge
    at once, because its row is written before the targets are looked up. *)
Lemma C4_counterexample :
  select_document "handbook" (GOVERNANCE_DB Scenario.fresh) = None /\
  option_map p_relationships
    (match parseGovernanceDocument "handbook.md" Scenario.self_reference_md with
     | Ok p => p
     | Throw _ => None
     end) = Some [mkRel "references" "handbook"] /\
  sync_file "c1" Scenario.t1 "handbook.md" Scenario.self_reference_md Scenario.fresh
  = (mkEnv (GOVERNANCE_CONTENT
              (fst (sync_file "c1" Scenario.t1 "handbook.md" Scenario.self_reference_md
                      Scenario.fresh)))
           (GOVERNANCE_DB
              (fst (sync_file "c1" Scenario.t1 "handbook.md" Scenario.self_reference_md
                      Scenario.fresh))),
     Ok tt) /\
  document_relationships
    (GOVERNANCE_DB (fst (sync_file "c1" Scenario.t1 "handbook.md"
                           Scenario.self_reference_md Scenario.fresh)))
  = [mkRelationship "handbook:references:handbook" (Text "handbook") (Text "handbook")
       "references" "2026-01-05 10:00:07"].
Proof. vm_compute. repeat split. Qed.

(** C4, amended.  A document declares one relationship, of a type of the
    vocabulary, to a slug that is not its own and has no row; its id, as
    [bind] sends it, is the id of the row of its slug, if there is one.
    When its sync step completes, no edge has been inserted.  Once the
    target has been synced in a completed step, another run of the step on
    the document completes and appends exactly the edge from its id to the
    id of the target, provided that edge id is not stored yet; one more run
    completes and leaves the edges as they are. *)
Theorem C4_dangling_then_resolved
    shaC1 shaT shaC2 shaC3 tC1 tT tC2 tC3 pathC contentC pC pathT contentT pT ty idC env0 env1 env2 :
  parseGovernanceDocument pathC contentC = Ok (Some pC) ->
  parseGovernanceDocument pathT contentT = Ok (Some pT) ->
  p_relationships pC = [mkRel ty (p_slug pT)] ->
  valid_relationship_type ty = true ->
  bind_value (p_id pC) = Ok idC ->
  p_slug pT <> p_slug pC ->
  select_document (p_slug pT) (GOVERNANCE_DB env0) = None ->
  (forall row, select_document (p_slug pC) (GOVERNANCE_DB env0) = Some row ->
               doc_id row = idC) ->
  sync_file shaC1 tC1 pathC contentC env0 = (env1, Ok tt) ->
  sync_file shaT tT pathT contentT env1 = (env2, Ok tt) ->
  (forall trow, select_document (p_slug pT) (GOVERNANCE_DB env2) = Some trow ->
     existsb (fun r => String.eqb (dr_id r)
                         (js_text idC ++ ":" ++ ty ++ ":" ++ js_text (doc_id trow)))
             (document_relationships (GOVERNANCE_DB env2)) = false) ->
  document_relationships (GOVERNANCE_DB env1) = document_relationships (GOVERNANCE_DB env0) /\
  exists trow env3 env4,
    select_document (p_slug pT) (GOVERNANCE_DB env2) = Some trow /\
    sync_file shaC2 tC2 pathC contentC env2 = (env3, Ok tt) /\
    document_relationships (GOVERNANCE_DB env3)
    = (document_relationships (GOVERNANCE_DB env2) ++
       [mkRelationship (js_text idC ++ ":" ++ ty ++ ":" ++ js_text (doc_id trow))
          idC (doc_id trow) ty (datetime_now tC2)])%list /\
    sync_file shaC3 tC3 pathC contentC env3 = (env4, Ok tt) /\
    document_relationships (GOVERNANCE_DB env4) = document_relationships (GOVERNANCE_DB env3).
Proof.
  intros HpC HpT Hrels Hvalid Hid Hne Hnone Hrow0 H1 H2 Hfresh.
  set (kC := "governance/" ++ pathC) in *.
  (* the first run on the document *)
  rewrite (sync_file_parsed _ _ _ _ _ _ HpC) in H1. fold kC in H1.
  destruct (upsertDocument (datetime_now tC1) (GOVERNANCE_DB env0) (Some pC) kC)
    as [db1 r1] eqn:Hup1.
  cbn [fst snd] in H1. injection H1 as <- ->.
  cbn [GOVERNANCE_DB] in *.
  destruct (upsertDocument_ok_inv _ _ _ _ _ Hup1)
    as (id & title & ef & et & eb & dba & dbb & Hb & Hu & Hd & Hr).
  pose proof (bind_document_id _ _ _ _ _ _ _ Hid Hb) as ->.
  pose proof (link_domains_frame idC (p_domains pC) dba) as (D1 & D2 & D3 & [dx D4]).
  rewrite Hd in D1, D2, D3, D4. cbn [fst] in D1, D2, D3, D4.
  pose proof (upsert_documents_frame _ _ _ _ _ _ _ _ _ _ _ _ Hu) as (U2 & U3 & U4).
  assert (select_document (p_slug pT) dbb = None) as Hnone_b.
  { rewrite (select_document_same dba dbb _ D1).
    rewrite (upsert_documents_select_other _ _ _ _ _ _ _ _ _ _ _ _ _ Hu Hne). exact Hnone. }
  rewrite Hrels in Hr. cbn [link_relationships targetSlug] in Hr.
  rewrite Hnone_b in Hr. injection Hr as <-.
  (* the row of the document after the first run *)
  destruct (upsert_documents_select_id _ _ _ _ _ _ _ _ _ _ _ _ Hu) as (rowC & HselC & HidC).
  assert (doc_id rowC = idC) as HidC'.
  { rewrite HidC. destruct (select_document (p_slug pC) (GOVERNANCE_DB env0)) as [r0|] eqn:E;
      [apply Hrow0; reflexivity | reflexivity]. }
  rewrite <- (select_document_same dba dbb _ D1) in HselC.
  pose proof (link_domains_linked _ _ _ _ Hd) as Hlinked.
  split; [congruence |].
  (* the run on the target *)
  rewrite (sync_file_parsed _ _ _ _ _ _ HpT) in H2. cbn [GOVERNANCE_DB] in H2.
  set (kT := "governance/" ++ pathT) in *.
  pose proof (upsertDocument_frame (datetime_now tT) dbb pT kT) as (T1 & T2 & [tdx T3] & _).
  destruct (upsertDocument (datetime_now tT) dbb (Some pT) kT) as [db2 r2] eqn:Hup2.
  cbn [fst snd] in H2, T1, T2, T3. injection H2 as <- ->.
  cbn [GOVERNANCE_DB GOVERNANCE_CONTENT] in *.
  destruct (upsertDocument_has_row _ _ _ _ _ Hup2) as [trow Htrow].
  assert (select_document (p_slug pC) db2 = Some rowC) as HselC2.
  { rewrite T1; [exact HselC | congruence]. }
  specialize (Hfresh trow Htrow).
  (* the second run on the document *)
  assert (doc_slug trow = p_slug pT) as Hts by (apply (find_has_slug _ _ _ Htrow)).
  assert (has_slug (p_slug pC) trow = false) as HtrowC.
  { unfold has_slug. rewrite Hts. destruct (String.eqb_spec (p_slug pT) (p_slug pC));
      [contradiction | reflexivity]. }
  set (g := fun r => if has_slug (p_slug pC) r
                     then overwrite title (p_status pC) ef et eb kC (datetime_now tC2) r
                     else r).
  set (db2a := {| documents := List.map g (documents db2); domains := domains db2;
                  document_domains := document_domains db2;
                  document_relationships := document_relationships db2 |}).
  assert (upsert_documents (datetime_now tC2) idC (p_slug pC) (p_type pC) title
            (p_status pC) ef et eb kC db2 = Ok db2a) as Hu2.
  { apply upsert_documents_conflict. apply (select_document_exists _ _ _ HselC2). }
  assert (forall s, select_document s db2a = option_map g (select_document s db2)) as Hsel2a.
  { intros s. unfold select_document, db2a. cbn [documents].
    apply find_map_preserving. intros x. apply has_slug_overwrite. }
  assert (link_domains idC (p_domains pC) db2a = (db2a, Ok tt)) as Hd2.
  { apply link_domains_noop.
    apply (domains_linked_transfer idC _ dbb db2a tdx); [cbn; congruence | exact T3 | exact Hlinked]. }
  set (edge := mkRelationship (js_text idC ++ ":" ++ ty ++ ":" ++ js_text (doc_id trow))
                 idC (doc_id trow) ty (datetime_now tC2)).
  set (db3 := {| documents := documents db2a; domains := domains db2a;
                 document_domains := document_domains db2a;
                 document_relationships := (document_relationships db2a ++ [edge])%list |}).
  assert (upsertDocument (datetime_now tC2) db2 (Some pC) kC = (db3, Ok tt)) as Hup3.
  { unfold upsertDocument. rewrite Hb, Hu2, Hd2, Hrels.
    cbn [link_relationships targetSlug rel_type].
    rewrite Hsel2a, Htrow. cbn [option_map].
    assert (g trow = trow) as -> by (unfold g; rewrite HtrowC; reflexivity).
    unfold insert_relationship, relId. cbn [rel_type].
    rewrite Hvalid. cbn [negb]. cbn [db2a document_relationships]. rewrite Hfresh.
    assert (existsb (has_id idC) (documents db2a) = true) as ->.
    { rewrite <- HidC'.
      replace (doc_id rowC) with (doc_id (g rowC))
        by (unfold g; destruct (has_slug (p_slug pC) rowC); reflexivity).
      apply (select_document_has_id (p_slug pC)). rewrite Hsel2a, HselC2. reflexivity. }
    assert (existsb (has_id (doc_id trow)) (documents db2a) = true) as ->.
    { apply (select_document_has_id (p_slug pT)). rewrite Hsel2a, Htrow. cbn.
      unfold g. rewrite HtrowC. reflexivity. }
    reflexivity. }
  exists trow. eexists. eexists. split; [exact Htrow |].
  split; [| split; [| split]].
  - rewrite (sync_file_parsed _ _ _ _ _ _ HpC). cbn [GOVERNANCE_DB]. fold kC.
    rewrite Hup3. reflexivity.
  - reflexivity.
  - rewrite (sync_file_parsed _ _ _ _ _ _ HpC). cbn [GOVERNANCE_DB fst]. fold kC.
    rewrite (upsertDocument_again _ (datetime_now tC3) _ _ _ _ Hup3). reflexivity.
  - reflexivity.
Qed.

Lemma C4_witness :
  document_relationships (GOVERNANCE_DB Scenario.expenses_first) = [] /\
  exists env3,
    sync_file "c3" Scenario.t2 "policies/expenses.md" Scenario.expenses_md
      Scenario.then_charter = (env3, Ok tt) /\
    document_relationships (GOVERNANCE_DB env3)
    = [mkRelationship "expenses:authorized_by:charter" (Text "expenses") (Text "charter")
         "authorized_by" "2026-01-06 09:30:00"].
Proof.
  destruct (C4_dangling_then_resolved "c1" "c2" "c3" "c4" Scenario.t0 Scenario.t1 Scenario.t2
              Scenario.t3 "policies/expenses.md" Scenario.expenses_md Scenario.expenses
              "agreements/charter.md" Scenario.charter_md Scenario.charter
              "authorized_by" (Text "expenses")
              Scenario.fresh Scenario.expenses_first Scenario.then_charter)
    as (H1 & trow & env3 & env4 & Ht & H3 & Hedge & _).
  - vm_compute; reflexivity.
  - vm_compute; reflexivity.
  - reflexivity.
  - reflexivity.
  - reflexivity.
  - discriminate.
  - reflexivity.
  - intros row H. vm_compute in H. discriminate.
  - vm_compute; reflexivity.
  - vm_compute; reflexivity.
  - intros trow H. vm_compute in H. injection H as <-. vm_compute. reflexivity.
  - split; [exact H1 |]. exists env3. split.
    + exact H3.
    + rewrite Hedge. vm_compute in Ht. injection Ht as <-. vm_compute. reflexivity.
Defined.

(** ** Numbers written and read back *)

Local Open Scope Z_scope.

Lemma digits_le_value fuel n :
  0 <= n -> n < 2 ^ Z.of_nat fuel -> value_le (digits_le fuel n) = n.
Proof.
  revert n. induction fuel as [|f IH]; intros n Hn Hlt.
  - cbn in *. lia.
  - cbn [digits_le]. destruct (Z.ltb_spec n 10) as [H|H].
    + cbn. lia.
    + cbn [value_le fold_right]. fold (value_le (digits_le f (n / 10))).
      rewrite IH.
      * pose proof (Z.div_mod n 10). lia.
      * apply Z.div_pos; lia.
      * rewrite Nat2Z.inj_succ, Z.pow_succ_r in Hlt by lia.
        apply Z.div_lt_upper_bound; lia.
Qed.

Lemma digits_le_range fuel n :
  0 <= n -> Forall (fun d => 0 <= d < 10) (digits_le fuel n).
Proof.
  revert n. induction fuel as [|f IH]; intros n Hn; cbn [digits_le].
  - constructor.
  - destruct (Z.ltb_spec n 10) as [H|H].
    + constructor; [lia | constructor].
    + constructor.
      * apply Z.mod_pos_bound. lia.
      * apply IH. apply Z.div_pos; lia.
Qed.

Lemma digits_le_nonempty fuel n : digits_le (S fuel) n <> [].
Proof. cbn [digits_le]. destruct (n <? 10); discriminate. Qed.

Lemma digit_char_spec d :
  0 <= d < 10 ->
  is_digit (digit_char d) = true /\
  is_space (digit_char d) = false /\
  Ascii.eqb (digit_char d) "-" = false /\
  Ascii.eqb (digit_char d) "+" = false /\
  Z.of_nat (nat_of_ascii (digit_char d)) - 48 = d.
Proof.
  intros H.
  assert (d = 0 \/ d = 1 \/ d = 2 \/ d = 3 \/ d = 4 \/ d = 5 \/ d = 6 \/ d = 7
          \/ d = 8 \/ d = 9) as Hd by lia.
  repeat (destruct Hd as [-> | Hd]; [repeat split; reflexivity |]).
  subst d. repeat split; reflexivity.
Qed.

Lemma digits_value_string cs acc :
  digits_value (string_of_list_ascii cs) acc
  = fold_left (fun a c => a * 10 + (Z.of_nat (nat_of_ascii c) - 48)) cs acc.
Proof.
  revert acc. induction cs as [|c cs IH]; intros acc; cbn; [reflexivity | apply IH].
Qed.

Lemma take_while_all f cs :
  Forall (fun c => f c = true) cs ->
  take_while f (string_of_list_ascii cs) = string_of_list_ascii cs.
Proof.
  induction 1 as [|c cs Hc _ IH]; cbn; [reflexivity |]. rewrite Hc, IH. reflexivity.
Qed.

(** The digits written for a natural number: a non-empty run of digits
    that reads back as the number. *)
Lemma nat_digits_spec n :
  0 <= n ->
  exists c s,
    nat_digits n = String c s /\
    is_digit c = true /\ is_space c = false /\
    Ascii.eqb c "-" = false /\ Ascii.eqb c "+" = false /\
    take_while is_digit (nat_digits n) = nat_digits n /\
    digits_value (nat_digits n) 0 = n.
Proof.
  intros Hn. unfold nat_digits.
  set (fuel := S (Z.to_nat (Z.log2 n))).
  pose proof (digits_le_range fuel n Hn) as Hrange.
  assert (value_le (digits_le fuel n) = n) as Hval.
  { apply digits_le_value; [exact Hn |]. unfold fuel.
    rewrite Nat2Z.inj_succ, Z2Nat.id by apply Z.log2_nonneg.
    destruct (Z.eq_dec n 0) as [-> | Hnz]; [reflexivity |].
    apply Z.log2_spec. lia. }
  assert (digits_le fuel n <> []) as Hne by apply digits_le_nonempty.
  set (ds := digits_le fuel n) in *. clearbody ds. clear fuel.
  assert (Forall (fun c => is_digit c = true /\ is_space c = false /\
                           Ascii.eqb c "-" = false /\ Ascii.eqb c "+" = false)
                 (rev (List.map digit_char ds))) as Hchars.
  { apply List.Forall_forall. intros c Hc. apply in_rev, in_map_iff in Hc as (d & <- & Hd).
    rewrite List.Forall_forall in Hrange.
    destruct (digit_char_spec d (Hrange d Hd)) as (? & ? & ? & ? & _). auto. }
  destruct (rev (List.map digit_char ds)) as [|c cs] eqn:Hrev.
  { exfalso. apply Hne. apply (f_equal (@rev ascii)) in Hrev. rewrite rev_involutive in Hrev.
    cbn in Hrev. destruct ds; [reflexivity | discriminate]. }
  exists c, (string_of_list_ascii cs).
  pose proof (Forall_inv Hchars) as (Hc1 & Hc2 & Hc3 & Hc4).
  split; [reflexivity |]. repeat split; try assumption.
  - apply take_while_all. revert Hchars. apply List.Forall_impl. tauto.
  - rewrite digits_value_string, <- Hrev, <- fold_left_rev_right, rev_involutive.
    rewrite <- Hval. clear Hval Hne Hrev Hchars Hc1 Hc2 Hc3 Hc4.
    induction Hrange as [|d ds Hd _ IH]; [reflexivity |].
    cbn. rewrite IH. destruct (digit_char_spec d Hd) as (_ & _ & _ & _ & ->).
    unfold value_le. lia.
Qed.

(** [parseInt(n.toString(), 10)] is [n]. *)
Lemma parseInt_toString n : parseInt (Number_toString n) = Some n.
Proof.
  unfold Number_toString. destruct (Z.ltb_spec n 0) as [H|H].
  - destruct (nat_digits_spec (- n)) as (c & s & Hs & _ & _ & _ & _ & Ht & Hv); [lia |].
    unfold parseInt. set (r := nat_digits (- n)) in *.
    cbn [drop_while]. change (is_space "-") with false. cbn iota.
    change (Ascii.eqb "-" "-") with true. cbn iota. rewrite Ht.
    destruct r; [discriminate Hs |]. rewrite Hv. f_equal. lia.
  - destruct (nat_digits_spec n H) as (c & s & Hs & Hd & Hsp & Hm & Hp & Ht & Hv).
    unfold parseInt. set (r := nat_digits n) in *.
    rewrite Hs. cbn [drop_while]. rewrite Hsp, Hm, Hp. rewrite <- Hs, Ht.
    destruct r; [discriminate Hs |]. rewrite Hv. reflexivity.
Qed.

Lemma toString_truthy n : truthy (Number_toString n) = true.
Proof.
  unfold Number_toString. destruct (Z.ltb_spec n 0) as [H|H]; [reflexivity |].
  destruct (nat_digits_spec n H) as (c & s & -> & _). reflexivity.
Qed.

Local Close Scope Z_scope.

(** ** TTL gating *)

Section Gating.

Local Open Scope Z_scope.

Lemma lastrun_key_ne key : key <> ("lastrun:" ++ key)%string.
Proof.
  intros H. apply (f_equal String.length) in H.
  change (String.length ("lastrun:" ++ key)%string)
    with (S (S (S (S (S (S (S (S (String.length key))))))))) in H.
  lia.
Qed.

(** A refresh that goes through records its time. *)
Lemma refresh_records ns key ttl now force v :
  Cache.not_due ns key ttl now force = false ->
  Cache.recorded (fst (Cache.refreshIfDue ns key ttl now force (Ok v))) key ttl now.
Proof.
  intros H. unfold Cache.refreshIfDue. rewrite H. cbn [fst].
  unfold Cache.recorded, KV.put. apply lookup_insert_eq.
Qed.

(** The gate, for a key whose last refresh is recorded. *)
Lemma not_due_recorded ns key ttl last now force :
  0 <= ttl ->
  Cache.recorded ns key ttl last ->
  Cache.not_due ns key ttl now force = negb force && (now - last <? ttl * 1000).
Proof.
  intros Httl Hrec. unfold Cache.not_due, KV.get. unfold Cache.recorded in Hrec.
  destruct force; [reflexivity |]. cbn [negb andb]. rewrite Hrec. cbn [KV.expiration KV.value].
  destruct (Z.ltb_spec now (last + ttl * 2 * 1000)) as [Hlive | Hdead].
  - rewrite toString_truthy, parseInt_toString. reflexivity.
  - symmetry. apply Z.ltb_ge. lia.
Qed.

Lemma fetched_iff_due ns key ttl now force fetcher :
  snd (Cache.refreshIfDue ns key ttl now force fetcher)
  = negb (Cache.not_due ns key ttl now force).
Proof.
  unfold Cache.refreshIfDue. destruct (Cache.not_due ns key ttl now force); [reflexivity |].
  destruct fetcher; reflexivity.
Qed.

(** The gate of [refreshIfDue], for any fetcher.  A key whose last refresh
    at [last] is recorded has its fetcher called by the cycle at [now]
    exactly when [force] is set or [now - last] has reached the TTL (in
    milliseconds, the unit of the clock).  When the fetcher is not called
    the namespace is left as it is; when it is called and answers, its
    answer is stored under the key and the time of the cycle under the
    [lastrun:] key, both for twice the TTL.  With a TTL of 900 seconds the
    fetcher is not called 500 seconds later and is called 901 seconds
    later.  What the fetchers of the cycle then do is the matter of the
    section on refreshing the proposals. *)
Lemma ttl_gating ns key ttl last now force fetcher :
  0 <= ttl ->
  Cache.recorded ns key ttl last ->
  (snd (Cache.refreshIfDue ns key ttl now force fetcher) = true
   <-> force = true \/ now - last >= ttl * 1000) /\
  (snd (Cache.refreshIfDue ns key ttl now force fetcher) = false ->
   fst (Cache.refreshIfDue ns key ttl now force fetcher) = ns) /\
  (forall v,
     snd (Cache.refreshIfDue ns key ttl now force fetcher) = true ->
     fetcher = Ok v ->
     fst (Cache.refreshIfDue ns key ttl now force fetcher) !! key
     = Some (KV.mkEntry v (now + ttl * 2 * 1000)) /\
     Cache.recorded (fst (Cache.refreshIfDue ns key ttl now force fetcher)) key ttl now) /\
  (ttl = 900 -> force = false ->
   (now = last + 500 * 1000 ->
    snd (Cache.refreshIfDue ns key ttl now force fetcher) = false) /\
   (now = last + 901 * 1000 ->
    snd (Cache.refreshIfDue ns key ttl now force fetcher) = true)).
Proof.
  intros Httl Hrec.
  rewrite fetched_iff_due, (not_due_recorded _ _ _ _ _ _ Httl Hrec).
  split; [| split; [| split]].
  - destruct force; cbn [negb andb].
    + split; auto.
    + destruct (Z.ltb_spec (now - last) (ttl * 1000)); cbn [negb]; split.
      * discriminate.
      * intros [? | ?]; [discriminate | lia].
      * right. lia.
      * reflexivity.
  - intros Hclosed. unfold Cache.refreshIfDue.
    rewrite (not_due_recorded _ _ _ _ _ _ Httl Hrec).
    destruct (negb force && (now - last <? ttl * 1000)); [reflexivity | discriminate].
  - intros v Hopen ->. unfold Cache.refreshIfDue.
    rewrite (not_due_recorded _ _ _ _ _ _ Httl Hrec).
    destruct (negb force && (now - last <? ttl * 1000)); [discriminate |].
    cbn [fst]. unfold Cache.recorded, KV.put. split; [| apply lookup_insert_eq].
    rewrite lookup_insert_ne; [apply lookup_insert_eq |].
    intros Heq. symmetry in Heq. revert Heq. apply lastrun_key_ne.
  - intros -> ->. cbn [negb andb]. split; intros ->.
    + replace (last + 500 * 1000 - last) with 500000 by lia. reflexivity.
    + replace (last + 901 * 1000 - last) with 901000 by lia. reflexivity.
Qed.

End Gating.

(** ** Replay protection *)

Section Replay.

Import Webhook.

Variable hmac_sha256_hex : string -> string -> string.
Variable JSON_parse : string -> outcome GitHubPushEvent.
Variable secret : string.

Local Abbreviation handle := (handleWebhook hmac_sha256_hex JSON_parse secret).
Local Abbreviation verified req :=
  (verifyWebhookSignature hmac_sha256_hex (body req) (x_hub_signature_256 req) secret).

Local Open Scope Z_scope.

(** Past the replay check the nonces are left alone, and at most one
    instance of the workflow is created. *)
Lemma process_frame req st :
  SYNC_STATE (fst (process JSON_parse req st)) = SYNC_STATE st /\
  (GOVERNANCE_SYNC (fst (process JSON_parse req st)) = GOVERNANCE_SYNC st \/
   exists params,
     GOVERNANCE_SYNC (fst (process JSON_parse req st)) = (GOVERNANCE_SYNC st ++ [params])%list).
Proof.
  unfold process. destruct (JSON_parse (body req)) as [payload|e]; [| auto].
  destruct (negb (String.eqb (ref payload) "refs/heads/main")); [auto |].
  destruct (_ && _); [auto |]. cbn. split; [reflexivity |]. right. eexists. reflexivity.
Qed.

Lemma nonce_key_inj d d' : "webhook:" ++ d = "webhook:" ++ d' -> d = d'.
Proof. cbn. intros H. injection H as H. exact H. Qed.

(** A delivery that is verified, carries a non-empty id and is not answered
    as a duplicate has recorded its id for 86400 seconds. *)
Lemma first_sight_records now req st d :
  verified req = true ->
  x_github_delivery req = Some d ->
  d <> "" ->
  snd (handle now req st) <> Ok (Duplicate d) ->
  SYNC_STATE (fst (handle now req st))
  = KV.put now ("webhook:" ++ d) (Number_toString now) 86400 (SYNC_STATE st).
Proof.
  intros Hv Hd Hne Hnd. unfold handleWebhook in *. rewrite Hv, Hd in *. cbn [negb] in *.
  assert (truthy d = true) as Ht.
  { unfold truthy. destruct (String.eqb_spec d ""); [contradiction | reflexivity]. }
  rewrite Ht in *.
  destruct (KV.get now (SYNC_STATE st) ("webhook:" ++ d)) as [existing|].
  - destruct (truthy existing); [exfalso; apply Hnd; reflexivity |].
    apply (process_frame req (mkState _ _)).
  - apply (process_frame req (mkState _ _)).
Qed.

(** While the record of [d] is live, no delivery removes or replaces it. *)
Lemma record_kept now req st d v expiry :
  SYNC_STATE st !! ("webhook:" ++ d) = Some (KV.mkEntry v expiry) ->
  truthy v = true ->
  now < expiry ->
  SYNC_STATE (fst (handle now req st)) !! ("webhook:" ++ d) = Some (KV.mkEntry v expiry).
Proof.
  intros Hrec Hv Hlive. unfold handleWebhook.
  destruct (negb (verified req)); [exact Hrec |].
  destruct (x_github_delivery req) as [d'|].
  2:{ rewrite (proj1 (process_frame req st)). exact Hrec. }
  destruct (truthy d').
  2:{ rewrite (proj1 (process_frame req st)). exact Hrec. }
  destruct (String.eqb_spec d' d) as [-> | Hne].
  - unfold KV.get. rewrite Hrec. cbn [KV.expiration KV.value].
    destruct (Z.ltb_spec now expiry); [| lia]. rewrite Hv. exact Hrec.
  - assert (SYNC_STATE
              (fst (process JSON_parse req
                      (mkState (KV.put now ("webhook:" ++ d') (Number_toString now) 86400
                                  (SYNC_STATE st)) (GOVERNANCE_SYNC st))))
            !! ("webhook:" ++ d) = Some (KV.mkEntry v expiry)) as Hput.
    { rewrite (proj1 (process_frame req _)). cbn [SYNC_STATE]. unfold KV.put.
      rewrite lookup_insert_ne; [exact Hrec |].
      intros Heq. apply Hne. apply nonce_key_inj. exact Heq. }
    destruct (KV.get now (SYNC_STATE st) ("webhook:" ++ d')) as [existing|];
      [destruct (truthy existing) |]; first [exact Hrec | exact Hput].
Qed.

Lemma record_kept_all between st d v expiry :
  SYNC_STATE st !! ("webhook:" ++ d) = Some (KV.mkEntry v expiry) ->
  truthy v = true ->
  Forall (fun delivery => fst delivery < expiry) between ->
  SYNC_STATE (deliver hmac_sha256_hex JSON_parse secret between st) !! ("webhook:" ++ d)
  = Some (KV.mkEntry v expiry).
Proof.
  intros Hrec Hv Hall. revert st Hrec.
  induction Hall as [|[now req] between Hnow _ IH]; intros st Hrec; cbn [deliver].
  - exact Hrec.
  - apply IH. apply record_kept; assumption.
Qed.

(** C3, amended.  A verified delivery with a non-empty id that is not
    answered as a duplicate records the id at its time [now1]; it creates
    at most one instance of the workflow.  Whatever is delivered in
    between, a verified delivery with the same id that arrives less than
    86400 seconds after [now1] is answered as a duplicate and changes
    nothing: no nonce written, no instance created.  A delivery whose id
    is the empty string is handled as the same delivery without the
    header, in every state. *)
Theorem C3_replay_within_window d now1 req1 st0 between now2 req2 :
  d <> "" ->
  x_github_delivery req1 = Some d ->
  x_github_delivery req2 = Some d ->
  verified req1 = true ->
  verified req2 = true ->
  snd (handle now1 req1 st0) <> Ok (Duplicate d) ->
  Forall (fun delivery => fst delivery < now1 + 86400 * 1000) between ->
  now2 < now1 + 86400 * 1000 ->
  let st1 := fst (handle now1 req1 st0) in
  let st2 := deliver hmac_sha256_hex JSON_parse secret between st1 in
  handle now2 req2 st2 = (st2, Ok (Duplicate d)) /\
  (length (GOVERNANCE_SYNC st1) <= S (length (GOVERNANCE_SYNC st0)))%nat /\
  (forall now req st,
     x_github_delivery req = Some "" ->
     handle now req st
     = handle now (mkRequest (body req) (x_hub_signature_256 req) None) st).
Proof.
  intros Hne Hd1 Hd2 Hv1 Hv2 Hfirst Hbetween Hlt st1 st2.
  assert (forall now req st,
            x_github_delivery req = Some "" ->
            handle now req st
            = handle now (mkRequest (body req) (x_hub_signature_256 req) None) st) as Hempty.
  { intros now req st Hempty. unfold handleWebhook. rewrite Hempty.
    cbn [body x_hub_signature_256 x_github_delivery truthy String.eqb negb].
    reflexivity. }
  pose proof (first_sight_records now1 req1 st0 d Hv1 Hd1 Hne Hfirst) as Hput.
  assert (SYNC_STATE st2 !! ("webhook:" ++ d)
          = Some (KV.mkEntry (Number_toString now1) (now1 + 86400 * 1000))) as Hrec.
  { apply record_kept_all; [| apply toString_truthy | exact Hbetween].
    fold st1 in Hput. rewrite Hput. unfold KV.put. apply lookup_insert_eq. }
  split; [| split; [| exact Hempty]].
  - unfold handleWebhook. rewrite Hv2, Hd2. cbn [negb].
    assert (truthy d = true) as ->.
    { unfold truthy. destruct (String.eqb_spec d ""); [contradiction | reflexivity]. }
    unfold KV.get. rewrite Hrec. cbn [KV.expiration KV.value].
    destruct (Z.ltb_spec now2 (now1 + 86400 * 1000)); [| lia].
    rewrite toString_truthy. reflexivity.
  - subst st1. unfold handleWebhook. rewrite Hv1, Hd1. cbn [negb].
    destruct (truthy d); [destruct (KV.get _ _ _) as [existing|];
                          [destruct (truthy existing) |] |].
    all: try (cbn; lia).
    all: match goal with
         | |- context [process JSON_parse ?r ?s] =>
             destruct (proj2 (process_frame r s)) as [-> | [params ->]]
         end; cbn [GOVERNANCE_SYNC]; rewrite ?length_app; cbn; lia.
Qed.

(** C10: a verified push to the main branch with a markdown path and no
    delivery id is accepted every time it is delivered: each delivery
    creates an instance of the workflow, and the nonces are neither
    consulted nor written. *)
Theorem C10_no_delivery_id_no_replay_check now1 now2 req st payload :
  verified req = true ->
  x_github_delivery req = None ->
  JSON_parse (body req) = Ok payload ->
  ref payload = "refs/heads/main" ->
  (exists c f, In c (commits payload) /\
               In f (added c ++ modified c ++ removed c)%list /\
               endsWith ".md" f = true) ->
  exists params changed deleted,
    handle now1 req st
    = (mkState (SYNC_STATE st) (GOVERNANCE_SYNC st ++ [params])%list,
       Ok (Accepted changed deleted)) /\
    handle now2 req (fst (handle now1 req st))
    = (mkState (SYNC_STATE st) (GOVERNANCE_SYNC st ++ [params; params])%list,
       Ok (Accepted changed deleted)) /\
    (forall nonces instances,
       snd (handle now1 req (mkState nonces instances)) = Ok (Accepted changed deleted)).
Proof.
  intros Hv Hd Hp Href (c & f & Hc & Hf & Hmd).
  assert (forall l acc, acc <> [] ->
            fold_left (fun acc x => if existsb (String.eqb x) acc then acc
                                    else (acc ++ [x])%list) l acc <> []) as Hfold.
  { induction l as [|x l IH]; intros acc Hacc; cbn; [exact Hacc |].
    apply IH. destruct (existsb (String.eqb x) acc); [exact Hacc |].
    destruct acc; discriminate. }
  assert (forall l, l <> [] -> unique l <> []) as Huniq.
  { intros [|x l] Hl; [contradiction |]. unfold unique. cbn. apply Hfold. discriminate. }
  set (changed := List.filter (endsWith ".md")
                    (flat_map (fun c => (added c ++ modified c)%list) (commits payload))).
  set (deleted := List.filter (endsWith ".md") (flat_map removed (commits payload))).
  assert (Nat.eqb (length (unique changed)) 0 && Nat.eqb (length (unique deleted)) 0 = false)
    as Hsome.
  { apply andb_false_iff.
    rewrite app_assoc in Hf. apply in_app_iff in Hf as [Hf | Hf]; [left | right].
    - assert (In f changed) as Hin.
      { apply filter_In. split; [| exact Hmd]. apply in_flat_map. exists c. auto. }
      pose proof (Huniq changed) as Hu. destruct (unique changed); [| reflexivity].
      exfalso. apply Hu; [| reflexivity]. intros E. rewrite E in Hin. exact Hin.
    - assert (In f deleted) as Hin.
      { apply filter_In. split; [| exact Hmd]. apply in_flat_map. exists c. auto. }
      pose proof (Huniq deleted) as Hu. destruct (unique deleted); [| reflexivity].
      exfalso. apply Hu; [| reflexivity]. intros E. rewrite E in Hin. exact Hin. }
  assert (forall st', handle now1 req st'
            = (mkState (SYNC_STATE st')
                 (GOVERNANCE_SYNC st' ++
                  [mkSyncParams (unique changed) (unique deleted) (after payload)])%list,
               Ok (Accepted (length (unique changed)) (length (unique deleted)))) /\
          handle now2 req st' = handle now1 req st') as Hstep.
  { intros st'. unfold handleWebhook. rewrite Hv, Hd. cbn [negb].
    unfold process. rewrite Hp, Href. cbn [String.eqb negb].
    change (String.eqb "refs/heads/main" "refs/heads/main") with true. cbn [negb].
    fold changed deleted. rewrite Hsome. split; reflexivity. }
  exists (mkSyncParams (unique changed) (unique deleted) (after payload)),
         (length (unique changed)), (length (unique deleted)).
  split; [apply Hstep | split].
  - rewrite (proj2 (Hstep _)), (proj1 (Hstep st)). cbn [fst].
    rewrite (proj1 (Hstep _)). cbn [SYNC_STATE GOVERNANCE_SYNC].
    rewrite <- app_assoc. reflexivity.
  - intros nonces instances. rewrite (proj1 (Hstep _)). reflexivity.
Qed.

End Replay.

(** C3, as the claim words it, fails: of two verified deliveries with the
    same id ten hours apart, the second is accepted and starts the
    workflow when the first was itself a duplicate of a delivery twenty
    hours older: the record dates from the oldest one and has expired. *)
Lemma C3_counterexample :
  let handle := Webhook.handleWebhook Scenario.toy_hmac Scenario.toy_parse "s3cret" in
  let req := Scenario.signed (Some "72d3162e-cc78-11e3-81ab-4c9367dc0958") in
  let st0 := Webhook.mkState ∅ [] in
  let t0 := Scenario.noon in
  let t1 := (Scenario.noon + 20 * Scenario.hour)%Z in
  let t2 := (Scenario.noon + 30 * Scenario.hour)%Z in
  let st1 := fst (handle t0 req st0) in
  let st2 := fst (handle t1 req st1) in
  Webhook.verifyWebhookSignature Scenario.toy_hmac (Webhook.body req)
    (Webhook.x_hub_signature_256 req) "s3cret" = true /\
  (t2 - t1 < 24 * Scenario.hour)%Z /\
  snd (handle t1 req st1)
    = Ok (Webhook.Duplicate "72d3162e-cc78-11e3-81ab-4c9367dc0958") /\
  snd (handle t2 req st2) = Ok (Webhook.Accepted 1 0) /\
  length (Webhook.GOVERNANCE_SYNC st2) = 1 /\
  length (Webhook.GOVERNANCE_SYNC (fst (handle t2 req st2))) = 2.
Proof. vm_compute. repeat split. Qed.

Lemma C3_witness :
  let handle := Webhook.handleWebhook Scenario.toy_hmac Scenario.toy_parse "s3cret" in
  let req := Scenario.signed (Some "72d3162e-cc78-11e3-81ab-4c9367dc0958") in
  let other := Scenario.signed (Some "0b989ba4-242f-11e5-81e1-c7b6966d2516") in
  let st1 := fst (handle Scenario.noon req (Webhook.mkState ∅ [])) in
  let st2 := Webhook.deliver Scenario.toy_hmac Scenario.toy_parse "s3cret"
               [((Scenario.noon + Scenario.hour)%Z, other)] st1 in
  handle (Scenario.noon + 23 * Scenario.hour)%Z req st2
  = (st2, Ok (Webhook.Duplicate "72d3162e-cc78-11e3-81ab-4c9367dc0958")).
Proof.
  intros handle req other st1 st2.
  refine (proj1 (C3_replay_within_window Scenario.toy_hmac Scenario.toy_parse "s3cret"
                   "72d3162e-cc78-11e3-81ab-4c9367dc0958" Scenario.noon req
                   (Webhook.mkState ∅ []) [((Scenario.noon + Scenario.hour)%Z, other)]
                   (Scenario.noon + 23 * Scenario.hour)%Z req _ _ _ _ _ _ _ _)).
  - discriminate.
  - reflexivity.
  - reflexivity.
  - vm_compute; reflexivity.
  - vm_compute; reflexivity.
  - vm_compute. discriminate.
  - repeat constructor.
  - vm_compute; reflexivity.
Defined.

Lemma C10_witness :
  let handle := Webhook.handleWebhook Scenario.toy_hmac Scenario.toy_parse "s3cret" in
  let req := Scenario.signed None in
  let st0 := Webhook.mkState ∅ [] in
  exists params,
    handle (Scenario.noon + Scenario.hour)%Z req (fst (handle Scenario.noon req st0))
    = (Webhook.mkState ∅ [params; params], Ok (Webhook.Accepted 1 0)).
Proof.
  intros handle req st0.
  destruct (C10_no_delivery_id_no_replay_check Scenario.toy_hmac Scenario.toy_parse "s3cret"
              Scenario.noon (Scenario.noon + Scenario.hour)%Z req st0 Scenario.push_main)
    as (params & changed & deleted & H1 & H2 & _).
  - vm_compute; reflexivity.
  - reflexivity.
  - reflexivity.
  - reflexivity.
  - eexists. eexists. split; [left; reflexivity |].
    split; [cbn; left; reflexivity | vm_compute; reflexivity].
  - exists params. subst handle req st0. rewrite H2.
    vm_compute in H1. injection H1 as _ <- <-. reflexivity.
Defined.

(** ** Complements *)

(** A dangling relationship is silent: the step has the outcome and the
    store it would have without it. *)
Lemma dangling_relationship_is_silent now db parsed k rel rest :
  p_relationships parsed = rel :: rest ->
  targetSlug rel <> p_slug parsed ->
  select_document (targetSlug rel) db = None ->
  upsertDocument now db (Some parsed) k
  = upsertDocument now db (Some (set_relationships rest parsed)) k.
Proof.
  intros Hrels Hne Hnone. unfold upsertDocument.
  change (bind_document (set_relationships rest parsed)) with (bind_document parsed).
  cbn [set_relationships p_slug p_type p_status p_domains p_relationships].
  destruct (bind_document parsed) as [[[[[id title] ef] et] eb]|e]; [| reflexivity].
  destruct (upsert_documents now id (p_slug parsed) (p_type parsed) title
              (p_status parsed) ef et eb k db) as [db1|e] eqn:Hu; [| reflexivity].
  pose proof (link_domains_frame id (p_domains parsed) db1) as (D1 & _).
  destruct (link_domains id (p_domains parsed) db1) as [db2 [[]|e]]; [| reflexivity].
  cbn [fst] in D1. rewrite Hrels. apply link_relationships_dangling.
  rewrite (select_document_same db1 db2 _ D1).
  rewrite (upsert_documents_select_other _ _ _ _ _ _ _ _ _ _ _ _ _ Hu Hne). exact Hnone.
Qed.

(** Where the two slug functions agree, the detail query still finds the
    document after the deletion of its path, flagged retired. *)
Lemma retired_agreement_still_found :
  let env1 := delete_file Scenario.t2 "agreements/charter.md" Scenario.with_charter in
  option_map (fun d => (doc_slug (det_doc d), doc_status (det_doc d)))
    (queryAgreementDetail (GOVERNANCE_DB env1) "charter") = Some ("charter", retired) /\
  length (documents (GOVERNANCE_DB env1))
    = length (documents (GOVERNANCE_DB Scenario.with_charter)) /\
  GOVERNANCE_CONTENT env1 !! "governance/agreements/charter.md" = None.
Proof. vm_compute. repeat split. Qed.

(** * Further properties *)

(** ** Slugs *)

Lemma includes_slash_free s :
  includes "/" (slashes_to_dashes s) = false.
Proof.
  unfold slashes_to_dashes. induction s as [|c s IH]; [reflexivity |].
  cbn [str_map includes startsWith]. rewrite IH.
  destruct (Ascii.eqb_spec c "/") as [-> | Hne]; [reflexivity |].
  destruct (Ascii.eqb_spec "/" c) as [<- | _]; [contradiction | reflexivity].
Qed.

(** X1: a slug has no slash: every directory separator of the path has become
    a dash. *)
Theorem slug_has_no_slash path : ~ contains "/" (Parser.pathToSlug path).
Proof.
  intros H. apply includes_spec in H. unfold Parser.pathToSlug in H.
  rewrite includes_slash_free in H. discriminate.
Qed.

Lemma strip_prefix_app p r : strip_prefix p (p ++ r) = Some r.
Proof.
  induction p as [|c p IH]; [reflexivity |].
  change (String c p ++ r) with (String c (p ++ r)).
  cbn [strip_prefix]. rewrite Ascii.eqb_refl. exact IH.
Qed.

(** X2: the collection directory does not tell slugs apart: a file of the same
    name under [agreements/], [policies/] or [proposals/] gets the same
    slug, the name with its [.md] removed and its slashes turned to dashes. *)
Theorem slug_ignores_collection name :
  Parser.pathToSlug ("agreements/" ++ name) = slashes_to_dashes (strip_md name) /\
  Parser.pathToSlug ("policies/" ++ name) = slashes_to_dashes (strip_md name) /\
  Parser.pathToSlug ("proposals/" ++ name) = slashes_to_dashes (strip_md name).
Proof.
  unfold Parser.pathToSlug, Parser.strip_collection.
  split; [| split].
  - rewrite strip_prefix_app. reflexivity.
  - change (strip_prefix "agreements/" ("policies/" ++ name)) with (@None string).
    rewrite strip_prefix_app. reflexivity.
  - change (strip_prefix "agreements/" ("proposals/" ++ name)) with (@None string).
    change (strip_prefix "policies/" ("proposals/" ++ name)) with (@None string).
    rewrite strip_prefix_app. reflexivity.
Qed.

(** ** The metadata block *)

Lemma strip_prefix_sound p s r : strip_prefix p s = Some r -> s = p ++ r.
Proof.
  revert s. induction p as [|a p IH]; intros [|b s]; cbn; try discriminate.
  - intros H. injection H as <-. reflexivity.
  - intros H. injection H as <-. reflexivity.
  - destruct (Ascii.eqb_spec a b) as [-> | _]; [| discriminate].
    intros H. apply IH in H. rewrite H. reflexivity.
Qed.

Lemma find_close_sound s a :
  find_close s = Some a ->
  exists e rest, Nesting.fence_eol e /\ s = a ++ e ++ "---" ++ rest.
Proof.
  revert a. induction s as [|c s IH]; intros a; cbn [find_close].
  - cbn. discriminate.
  - destruct (startsWith (String CR (String LF "---")) (String c s)
              || startsWith (String LF "---") (String c s)) eqn:E.
    + intros H. injection H as <-. apply orb_true_iff in E as [E | E];
        apply startsWith_spec in E as [rest ->].
      * exists (String CR (String LF "")), rest. split; [right |]; reflexivity.
      * exists (String LF ""), rest. split; [left |]; reflexivity.
    + destruct (find_close s) as [a'|]; [| discriminate].
      cbn [option_map]. intros H. injection H as <-.
      destruct (IH a' eq_refl) as (e & rest & He & ->).
      exists e, rest. split; [exact He | reflexivity].
Qed.

(** X3: the block the parser extracts is what stands between an opening [---]
    at the very start of the content and a later line that starts with
    [---], each of the two line ends being LF or CR LF. *)
Theorem frontmatter_block_sound content yaml :
  frontmatter_block content = Some yaml ->
  exists e1 e2 rest,
    Nesting.fence_eol e1 /\ Nesting.fence_eol e2 /\
    content = "---" ++ e1 ++ yaml ++ e2 ++ "---" ++ rest.
Proof.
  unfold frontmatter_block. intros H.
  destruct (strip_prefix "---" content) as [r|] eqn:Hp; [| discriminate].
  apply strip_prefix_sound in Hp. subst content.
  destruct r as [|c r]; [discriminate |].
  destruct (Ascii.eqb_spec c CR) as [-> | Hc].
  - destruct r as [|d r]; [discriminate |].
    destruct (Ascii.eqb_spec d LF) as [-> | _]; [| discriminate].
    apply find_close_sound in H as (e2 & rest & He & ->).
    exists (String CR (String LF "")), e2, rest.
    split; [right; reflexivity | split; [exact He | reflexivity]].
  - destruct (Ascii.eqb_spec c LF) as [-> | _]; [| discriminate].
    apply find_close_sound in H as (e2 & rest & He & ->).
    exists (String LF ""), e2, rest.
    split; [left; reflexivity | split; [exact He | reflexivity]].
Qed.

Lemma frontmatter_block_sound_witness :
  exists e1 e2 rest,
    Nesting.fence_eol e1 /\ Nesting.fence_eol e2 /\
    Scenario.expenses_md
    = "---" ++ e1 ++ "title: Expenses
type: policy
status: active
related:
  - authorized_by: charter" ++ e2 ++ "---" ++ rest.
Proof.
  apply (frontmatter_block_sound Scenario.expenses_md). vm_compute. reflexivity.
Defined.

(** Content that does not begin with [---] has no block. *)
Lemma no_opening_fence content :
  startsWith "---" content = false -> frontmatter_block content = None.
Proof.
  unfold frontmatter_block. intros H.
  destruct (strip_prefix "---" content) as [r|] eqn:Hp; [| reflexivity].
  apply strip_prefix_sound in Hp. subst content.
  assert (startsWith "---" ("---" ++ r) = true) as Hc by (apply startsWith_spec; eauto).
  congruence.
Qed.

Lemma starts_dashes_app y d t :
  Ascii.eqb "-" d = false ->
  startsWith "---" (y ++ String d t) = true -> startsWith "---" y = true.
Proof.
  intros Hd.
  destruct y as [|a [|b [|c y]]];
    cbv beta iota delta [String.append startsWith andb]; fold String.append;
    rewrite ?Hd;
    repeat match goal with
           | |- context [Ascii.eqb "-" ?x] => destruct (Ascii.eqb "-" x)
           end; auto.
Qed.

Lemma fence_eol_head e t :
  Nesting.fence_eol e ->
  exists d t', e ++ t = String d t' /\ Ascii.eqb "-" d = false.
Proof.
  intros [-> | ->]; eexists; eexists; split; reflexivity.
Qed.

Lemma startsWith_cons a p b s :
  startsWith (String a p) (String b s) = Ascii.eqb a b && startsWith p s.
Proof. reflexivity. Qed.

Lemma find_close_complete yaml e rest :
  Nesting.fence_eol e ->
  includes (String LF "---") yaml = false ->
  last_char yaml <> Some CR ->
  find_close (yaml ++ e ++ "---" ++ rest) = Some yaml.
Proof.
  intros He. induction yaml as [|c y IH]; intros Hinc Hlast.
  - destruct He as [-> | ->]; reflexivity.
  - destruct (fence_eol_head e ("---" ++ rest) He) as (d0 & t0 & Het & Hd0).
    change (String c y ++ e ++ "---" ++ rest) with (String c (y ++ e ++ "---" ++ rest)).
    cbn [find_close]. cbn [includes] in Hinc. apply orb_false_iff in Hinc as [Hhere Hinc].
    assert (startsWith (String LF "---") (String c (y ++ e ++ "---" ++ rest)) = false) as ->.
    { rewrite startsWith_cons in *.
      destruct (Ascii.eqb LF c); [| reflexivity].
      cbn [andb] in *.
      destruct (startsWith "---" (y ++ e ++ "---" ++ rest)) eqn:E; [| reflexivity].
      rewrite Het in E. apply (starts_dashes_app _ _ _ Hd0) in E. congruence. }
    assert (startsWith (String CR (String LF "---")) (String c (y ++ e ++ "---" ++ rest))
            = false) as ->.
    { rewrite startsWith_cons.
      destruct (Ascii.eqb_spec CR c) as [<- | _]; [| reflexivity].
      cbn [andb]. destruct y as [|d y].
      - exfalso. apply Hlast. reflexivity.
      - change (String d y ++ e ++ "---" ++ rest) with (String d (y ++ e ++ "---" ++ rest)).
        cbn [includes] in Hinc. apply orb_false_iff in Hinc as [Hd _].
        rewrite startsWith_cons in *.
        destruct (Ascii.eqb LF d); [| reflexivity].
        cbn [andb] in *.
        destruct (startsWith "---" (y ++ e ++ "---" ++ rest)) eqn:E; [| reflexivity].
        rewrite Het in E. apply (starts_dashes_app _ _ _ Hd0) in E. congruence. }
    cbn [orb]. rewrite IH; [reflexivity | exact Hinc |].
    destruct y as [|d y]; [discriminate | exact Hlast].
Qed.

(** X4: round trip: a block with no inner line starting with [---] and no CR
    as its last character, wrapped between two fences, is extracted as it
    is, whatever follows the closing fence. *)
Theorem frontmatter_block_roundtrip yaml e1 e2 rest :
  Nesting.fence_eol e1 -> Nesting.fence_eol e2 ->
  ~ contains (String LF "---") yaml ->
  last_char yaml <> Some CR ->
  frontmatter_block ("---" ++ e1 ++ yaml ++ e2 ++ "---" ++ rest) = Some yaml.
Proof.
  intros He1 He2 Hno Hlast.
  assert (includes (String LF "---") yaml = false) as Hinc.
  { destruct (includes (String LF "---") yaml) eqn:E; [| reflexivity].
    exfalso. apply Hno, includes_spec, E. }
  unfold frontmatter_block.
  destruct He1 as [-> | ->].
  - cbn -[find_close]. change (Ascii.eqb LF CR) with false. cbn iota.
    change (Ascii.eqb LF LF) with true. cbn iota.
    apply find_close_complete; assumption.
  - cbn -[find_close]. change (Ascii.eqb CR CR) with true. cbn iota.
    change (Ascii.eqb LF LF) with true. cbn iota.
    apply find_close_complete; assumption.
Qed.

Lemma frontmatter_block_roundtrip_witness :
  frontmatter_block ("---" ++ String LF "" ++ "title: Charter" ++ String LF ""
                     ++ "---" ++ " trailing text")
  = Some "title: Charter".
Proof.
  apply (frontmatter_block_roundtrip "title: Charter" (String LF "") (String LF "")
           " trailing text").
  - left; reflexivity.
  - left; reflexivity.
  - intros H. apply includes_spec in H. vm_compute in H. discriminate.
  - vm_compute. discriminate.
Defined.

(** ** Totality of the metadata parser on well-nested blocks *)

Section Blocks.

Import Nesting.

Lemma obj_get_set_array k a st :
  obj_get (obj_set k (VArr a) st) k = SArray a.
Proof.
  unfold obj_get, obj_set. destruct (String.eqb k "__proto__") eqn:E.
  - cbn [proto]. reflexivity.
  - cbn [result]. rewrite lookup_insert_eq. reflexivity.
Qed.

Lemma item_safe_push a x st : item_safe st -> item_safe (push a x st).
Proof. unfold item_safe, push, obj_get. cbn. auto. Qed.

(** After a key line whose value opens a list, list items are safe. *)
Lemma step_kv_opens st line key rest :
  match_list_item line = None ->
  kv_match line = Some (key, rest) ->
  opens_list (trim rest) = true ->
  exists st', step st line = Ok st' /\ item_safe st'.
Proof.
  intros Hl Hk Ho. unfold step. rewrite Hl, Hk. unfold opens_list in Ho.
  destruct (String.eqb (trim rest) "" || String.eqb (trim rest) "|"
            || String.eqb (trim rest) ">") eqn:E.
  - destruct (alloc [] (set_currentKey (Some key) (flush_and_reset st))) as [a st2] eqn:Ha.
    eexists. split; [reflexivity |].
    unfold item_safe, obj_set, set_currentList.
    destruct (String.eqb key "__proto__"); cbn; exact I.
  - cbn [orb] in Ho. rewrite Ho.
    destruct (alloc (inline_list (trim rest)) (set_currentKey (Some key) (flush_and_reset st)))
      as [a st2] eqn:Ha.
    eexists. split; [reflexivity |].
    unfold item_safe.
    destruct (currentList (obj_set key (VArr a) st2)); [exact I |].
    assert (currentKey (obj_set key (VArr a) st2) = Some key) as ->.
    { unfold alloc in Ha. injection Ha as _ <-. unfold obj_set.
      destruct (String.eqb key "__proto__"); reflexivity. }
    right. rewrite obj_get_set_array. exact I.
Qed.

Lemma step_kv_total st line key rest :
  match_list_item line = None ->
  kv_match line = Some (key, rest) ->
  exists st', step st line = Ok st'.
Proof.
  intros Hl Hk. unfold step. rewrite Hl, Hk.
  destruct (_ || _ || _); [| destruct (_ && _)];
    try destruct (alloc _ _); eexists; reflexivity.
Qed.

Lemma step_item_safe st line rest :
  match_list_item line = Some rest ->
  item_safe st ->
  exists st', step st line = Ok st' /\ item_safe st'.
Proof.
  intros Hl Hs. unfold step. rewrite Hl. unfold item_safe in Hs.
  destruct (currentList st) as [a|] eqn:Hc.
  - eexists. split; [reflexivity |]. unfold item_safe. cbn. rewrite Hc. exact I.
  - destruct (currentKey st) as [k|] eqn:Hk.
    + destruct Hs as [Hf | Hs].
      * rewrite Hf. eexists. split; [reflexivity |].
        unfold item_safe. rewrite Hc, Hk. left. exact Hf.
      * destruct (truthy k) eqn:Ht.
        -- destruct (obj_get st k) as [| s | a |] eqn:Hg; try contradiction.
           eexists. split; [reflexivity |].
           unfold item_safe. cbn [push currentList currentKey]. rewrite Hc, Hk.
           right. unfold obj_get in *. cbn [push result proto]. rewrite Hg. exact I.
        -- eexists. split; [reflexivity |].
           unfold item_safe. rewrite Hc, Hk. left. exact Ht.
    + eexists. split; [reflexivity |]. unfold item_safe. rewrite Hc, Hk. exact I.
Qed.

Lemma run_total_nested lines :
  forall st open,
    (open = true -> item_safe st) ->
    items_follow_lists open lines = true ->
    exists st', run st lines = Ok st'.
Proof.
  induction lines as [|line lines IH]; intros st open Hsafe Hn; cbn [run].
  - eexists. reflexivity.
  - cbn [items_follow_lists] in Hn.
    destruct (match_list_item line) as [rest|] eqn:Hl.
    + apply andb_true_iff in Hn as [-> Hn].
      destruct (step_item_safe st line rest Hl (Hsafe eq_refl)) as (st1 & -> & Hs1).
      apply (IH st1 true); auto.
    + destruct (kv_match line) as [[key rest]|] eqn:Hk.
      * destruct (opens_list (trim rest)) eqn:Ho.
        -- destruct (step_kv_opens st line key rest Hl Hk Ho) as (st1 & -> & Hs1).
           apply (IH st1 true); auto.
        -- destruct (step_kv_total st line key rest Hl Hk) as (st1 & ->).
           apply (IH st1 false); [discriminate | exact Hn].
      * assert (step st line = Ok st) as ->.
        { unfold step. rewrite Hl, Hk. reflexivity. }
        apply (IH st open); assumption.
Qed.

(** X5: the parser returns a record for every path it does not exclude and
    every content whose metadata block is well nested: no list-item line
    comes after a key with a scalar value before the next key.  Flat keys,
    inline lists and block lists under an empty key never throw. *)
Theorem parser_total_on_nested_blocks path content yaml :
  excluded path = false ->
  frontmatter_block content = Some yaml ->
  items_follow_lists true (split LF yaml) = true ->
  exists parsed, parseGovernanceDocument path content = Ok (Some parsed).
Proof.
  intros Hex Hfm Hn.
  destruct (run_total_nested (split LF yaml) init true) as [st Hrun].
  - intros _. exact I.
  - exact Hn.
  - unfold parseGovernanceDocument, extractFrontmatter, parseYamlSimple.
    rewrite Hex, Hfm, Hrun. cbn [obind]. eexists. reflexivity.
Qed.

(** X6: the group parser is total on the same blocks, and on content without a
    block. *)
Theorem group_parser_total_on_nested_blocks id content :
  (frontmatter_block content = None \/
   exists yaml, frontmatter_block content = Some yaml /\
                items_follow_lists true (split LF yaml) = true) ->
  exists g, Groups.parseGroupFrontmatter id content = Ok g /\ Groups.g_id g = id.
Proof.
  unfold Groups.parseGroupFrontmatter, extractFrontmatter, parseYamlSimple.
  intros [-> | (yaml & -> & Hn)].
  - cbn [obind]. eexists. split; reflexivity.
  - destruct (run_total_nested (split LF yaml) init true) as [st ->];
      [intros _; exact I | exact Hn |].
    cbn [obind]. eexists. split; reflexivity.
Qed.

End Blocks.

Lemma parser_total_on_nested_blocks_witness :
  exists parsed,
    parseGovernanceDocument "policies/expenses.md" Scenario.expenses_md = Ok (Some parsed).
Proof.
  apply (parser_total_on_nested_blocks "policies/expenses.md" Scenario.expenses_md
           "title: Expenses
type: policy
status: active
related:
  - authorized_by: charter").
  - vm_compute; reflexivity.
  - vm_compute; reflexivity.
  - vm_compute; reflexivity.
Defined.

Lemma group_parser_total_witness :
  exists g, Groups.parseGroupFrontmatter "treasury-cell" Scenario.expenses_md = Ok g
            /\ Groups.g_id g = "treasury-cell".
Proof.
  apply (group_parser_total_on_nested_blocks "treasury-cell" Scenario.expenses_md).
  right. eexists. split; vm_compute; reflexivity.
Defined.

(** ** What a parsed record holds *)

Lemma normaliseDomains_truthy raw :
  Forall (fun d => d <> "") (normaliseDomains raw).
Proof.
  assert (forall s, truthy s = true -> s <> "") as Ht.
  { intros s H ->. discriminate. }
  destruct raw as [s | l]; cbn.
  - destruct (truthy s) eqn:E; [| constructor].
    constructor; [apply Ht, E | constructor].
  - apply List.Forall_forall. intros d Hd. apply filter_In in Hd as [_ Hd].
    apply Ht, Hd.
Qed.

Lemma parse_record_inv path content parsed :
  parseGovernanceDocument path content = Ok (Some parsed) ->
  exists fm,
    extractFrontmatter content = Ok (Some fm) /\
    p_domains parsed
    = normaliseDomains
        (default (JArr []) (nullish (fm_get fm "domain") (fm_get fm "domains"))) /\
    p_relationships parsed
    = normaliseRelationships
        (default (JArr []) (nullish (fm_get fm "related") (fm_get fm "relationships"))) /\
    p_scope parsed = normaliseScope (default (JArr []) (fm_get fm "scope")) /\
    p_slug parsed = Parser.pathToSlug path.
Proof.
  unfold parseGovernanceDocument. destruct (excluded path); [discriminate |].
  destruct (extractFrontmatter content) as [[fm|]|]; cbn [obind]; try discriminate.
  intros H. injection H as <-. exists fm. auto.
Qed.

(** X7: no domain slug of a parsed record is empty: empty entries of the
    metadata are dropped, not looked up. *)
Theorem parsed_domains_nonempty path content parsed :
  parseGovernanceDocument path content = Ok (Some parsed) ->
  Forall (fun d => d <> "") (p_domains parsed).
Proof.
  intros H. apply parse_record_inv in H as (fm & _ & -> & _).
  apply normaliseDomains_truthy.
Qed.

Lemma parsed_domains_nonempty_witness :
  Forall (fun d => d <> "") ["dao-core"].
Proof.
  apply (parsed_domains_nonempty "agreements/operating-agreement.md"
           Scenario.operating_agreement_inline
           {| p_id := JStr "operating-agreement"; p_slug := "operating-agreement";
              p_type := agreement; p_title := JStr "Operating Agreement";
              p_status := active; p_effectiveFrom := None; p_effectiveTo := None;
              p_enactedBy := None; p_domains := ["dao-core"];
              p_relationships := [mkRel "authorized_by" "charter"]; p_scope := [] |}).
  vm_compute. reflexivity.
Defined.

Lemma take_while_forall f s : Nesting.str_forall f (take_while f s) = true.
Proof.
  induction s as [|c s IH]; [reflexivity |]. cbn.
  destruct (f c) eqn:E; [| reflexivity]. cbn. rewrite E. exact IH.
Qed.

Lemma match_relationship_type item r :
  match_relationship item = Some r ->
  rel_type r <> "" /\ Nesting.str_forall is_word (rel_type r) = true.
Proof.
  unfold match_relationship.
  pose proof (take_while_forall is_word item) as Hw.
  destruct (take_while is_word item) as [|c ty] eqn:Ht; [discriminate |].
  destruct (drop_while is_word item) as [|d rest]; [discriminate |].
  destruct (Ascii.eqb d ":"); [| discriminate].
  destruct (drop_while is_space rest).
  - destruct (str_exists _ rest); [| discriminate].
    intros H. injection H as <-. split; [discriminate | exact Hw].
  - intros H. injection H as <-. split; [discriminate | exact Hw].
Qed.

(** X8: the type of every relationship of a parsed record is a non-empty run
    of word characters (letters, digits, underscore): whatever the
    vocabulary of the store, the parser lets any such word through. *)
Theorem parsed_relationship_types_are_words path content parsed :
  parseGovernanceDocument path content = Ok (Some parsed) ->
  Forall (fun r => rel_type r <> "" /\ Nesting.str_forall is_word (rel_type r) = true)
         (p_relationships parsed).
Proof.
  intros H. apply parse_record_inv in H as (fm & _ & _ & -> & _).
  destruct (default (JArr []) (nullish (fm_get fm "related") (fm_get fm "relationships")))
    as [s | l]; cbn [normaliseRelationships]; [constructor |].
  apply List.Forall_forall. intros r Hr. apply in_flat_map in Hr as (item & _ & Hr).
  destruct (match_relationship item) as [r'|] eqn:E; [| contradiction].
  destruct Hr as [<- | []]. apply (match_relationship_type _ _ E).
Qed.

Lemma parsed_relationship_types_witness :
  Forall (fun r => rel_type r <> "" /\ Nesting.str_forall is_word (rel_type r) = true)
         [mkRel "authorized_by" "charter"].
Proof.
  apply (parsed_relationship_types_are_words "policies/expenses.md" Scenario.expenses_md
           Scenario.expenses).
  vm_compute. reflexivity.
Defined.

(** ** Signatures *)

Lemma xor_fold_zero a b acc :
  String.length a = String.length b ->
  (Webhook.xor_fold a b acc = 0%N <-> acc = 0%N /\ a = b).
Proof.
  revert b acc. induction a as [|x a IH]; intros [|y b] acc Hlen; cbn in *;
    try discriminate.
  - split; [intros ->; auto | intros [-> _]; reflexivity].
  - injection Hlen as Hlen. rewrite (IH b _ Hlen). rewrite N.lor_eq_0_iff, N.lxor_eq_0_iff.
    split.
    + intros [[-> Hxy] ->]. apply (f_equal ascii_of_N) in Hxy.
      rewrite !ascii_N_embedding in Hxy. subst. auto.
    + intros [-> H]. injection H as -> ->. auto.
Qed.

(** X9: [timingSafeEqual] answers true exactly on equal strings. *)
Theorem timingSafeEqual_spec a b : Webhook.timingSafeEqual a b = true <-> a = b.
Proof.
  unfold Webhook.timingSafeEqual.
  destruct (Nat.eqb_spec (String.length a) (String.length b)) as [Hlen | Hlen]; cbn [negb].
  - rewrite N.eqb_eq, (xor_fold_zero a b 0%N Hlen). tauto.
  - split; [discriminate | intros ->; contradiction].
Qed.

Section Intake.

Import Webhook.

Variable hmac_sha256_hex : string -> string -> string.
Variable JSON_parse : string -> outcome GitHubPushEvent.
Variable secret : string.

Local Abbreviation handle := (handleWebhook hmac_sha256_hex JSON_parse secret).
Local Abbreviation verify := (verifyWebhookSignature hmac_sha256_hex).

Local Open Scope Z_scope.

Lemma verify_iff body signature :
  verify body signature secret = true
  <-> signature = Some ("sha256=" ++ hmac_sha256_hex secret body).
Proof.
  unfold verifyWebhookSignature. destruct signature as [sig|].
  2:{ split; discriminate. }
  split.
  - destruct (negb (truthy sig) || negb (startsWith "sha256=" sig)); [discriminate |].
    intros H. apply timingSafeEqual_spec in H. congruence.
  - intros H. injection H as ->.
    change (truthy ("sha256=" ++ hmac_sha256_hex secret body)) with true.
    assert (startsWith "sha256=" ("sha256=" ++ hmac_sha256_hex secret body) = true) as ->
      by (apply startsWith_spec; eauto).
    cbn [negb orb]. apply timingSafeEqual_spec. reflexivity.
Qed.

(** X10: a delivery is let in exactly when its signature header is [sha256=]
    followed by the HMAC of the body under the secret; any other delivery
    (header absent, empty, of another scheme, or with another digest) is
    answered 403 and changes nothing: no nonce, no workflow instance. *)
Theorem signature_gate now req st :
  (x_hub_signature_256 req <> Some ("sha256=" ++ hmac_sha256_hex secret (body req)) ->
   handleWebhook hmac_sha256_hex JSON_parse secret now req st = (st, Ok InvalidSignature)) /\
  (x_hub_signature_256 req = Some ("sha256=" ++ hmac_sha256_hex secret (body req)) ->
   snd (handleWebhook hmac_sha256_hex JSON_parse secret now req st) <> Ok InvalidSignature).
Proof.
  split; intros H.
  - unfold handleWebhook.
    destruct (verify (body req) (x_hub_signature_256 req) secret) eqn:E; [| reflexivity].
    apply verify_iff in E. contradiction.
  - apply verify_iff in H. unfold handleWebhook. rewrite H. cbn [negb].
    assert (forall s, snd (process JSON_parse req s) <> Ok InvalidSignature) as Hp.
    { intros s. unfold process. destruct (JSON_parse (body req)); [| discriminate].
      destruct (negb _); [discriminate |]. destruct (_ && _); discriminate. }
    destruct (x_github_delivery req) as [d|]; [| apply Hp].
    destruct (truthy d); [| apply Hp].
    destruct (KV.get now (SYNC_STATE st) ("webhook:" ++ d)) as [existing|]; [| apply Hp].
    destruct (truthy existing); [discriminate | apply Hp].
Qed.

(** ** What is handed to the workflow *)

Lemma unique_fold_spec l :
  forall acc,
    NoDup acc ->
    NoDup (fold_left (fun acc x => if existsb (String.eqb x) acc then acc
                                   else (acc ++ [x])%list) l acc) /\
    (forall x, In x (fold_left (fun acc x => if existsb (String.eqb x) acc then acc
                                            else (acc ++ [x])%list) l acc)
               <-> In x acc \/ In x l).
Proof.
  induction l as [|y l IH]; intros acc Hnd; cbn [fold_left].
  - split; [exact Hnd | intros x; cbn; tauto].
  - destruct (existsb (String.eqb y) acc) eqn:E.
    + destruct (IH acc Hnd) as [H1 H2]. split; [exact H1 |].
      intros x. rewrite H2. cbn. split; [tauto |].
      intros [H | [<- | H]]; auto. left.
      apply existsb_exists in E as (z & Hz & Hyz). apply String.eqb_eq in Hyz. subst. exact Hz.
    + assert (~ In y acc) as Hy.
      { intros Hin. assert (existsb (String.eqb y) acc = true) as Hc.
        { apply existsb_exists. exists y. split; [exact Hin | apply String.eqb_refl]. }
        congruence. }
      destruct (IH (acc ++ [y])%list) as [H1 H2].
      { apply NoDup_app. split; [exact Hnd | split; [| apply NoDup_singleton]].
        intros z Hz Hz'. apply list_elem_of_In in Hz, Hz'. destruct Hz' as [<- | []].
        contradiction. }
      split; [exact H1 |]. intros x. rewrite H2, in_app_iff. cbn. tauto.
Qed.

Lemma unique_spec l : NoDup (unique l) /\ forall x, In x (unique l) <-> In x l.
Proof.
  destruct (unique_fold_spec l [] (NoDup_nil_2)) as [H1 H2]. split; [exact H1 |].
  intros x. unfold unique. rewrite H2. cbn. tauto.
Qed.

(** X11: when a delivery is accepted, exactly one instance is created; its two
    lists are duplicate-free, hold exactly the paths ending in [.md] that
    the commits added or modified, respectively removed, and the counts in
    the answer are their lengths. *)
Theorem accepted_delivery_params now req st st' changed deleted :
  handle now req st = (st', Ok (Accepted changed deleted)) ->
  exists payload params,
    JSON_parse (body req) = Ok payload /\
    GOVERNANCE_SYNC st' = (GOVERNANCE_SYNC st ++ [params])%list /\
    commitSha params = after payload /\
    NoDup (changedFiles params) /\ NoDup (deletedFiles params) /\
    changed = length (changedFiles params) /\
    deleted = length (deletedFiles params) /\
    (forall f, In f (changedFiles params) <->
       endsWith ".md" f = true /\
       exists c, In c (commits payload) /\ (In f (added c) \/ In f (modified c))) /\
    (forall f, In f (deletedFiles params) <->
       endsWith ".md" f = true /\ exists c, In c (commits payload) /\ In f (removed c)).
Proof.
  intros H.
  assert (forall s, process JSON_parse req s = (st', Ok (Accepted changed deleted)) ->
            GOVERNANCE_SYNC s = GOVERNANCE_SYNC st ->
            exists payload params,
              JSON_parse (body req) = Ok payload /\
              GOVERNANCE_SYNC st' = (GOVERNANCE_SYNC st ++ [params])%list /\
              commitSha params = after payload /\
              NoDup (changedFiles params) /\ NoDup (deletedFiles params) /\
              changed = length (changedFiles params) /\
              deleted = length (deletedFiles params) /\
              (forall f, In f (changedFiles params) <->
                 endsWith ".md" f = true /\
                 exists c, In c (commits payload) /\ (In f (added c) \/ In f (modified c))) /\
              (forall f, In f (deletedFiles params) <->
                 endsWith ".md" f = true /\
                 exists c, In c (commits payload) /\ In f (removed c))) as Hp.
  { intros s Hs Hsync. unfold process in Hs.
    destruct (JSON_parse (body req)) as [payload|e]; [| discriminate].
    destruct (negb (String.eqb (ref payload) "refs/heads/main")); [discriminate |].
    destruct (_ && _); [discriminate |].
    injection Hs as <- <- <-. exists payload. eexists. split; [reflexivity |].
    cbn [GOVERNANCE_SYNC changedFiles deletedFiles commitSha]. rewrite Hsync.
    split; [reflexivity |]. cbn [changedFiles deletedFiles commitSha].
    split; [reflexivity |].
    split; [apply unique_spec |]. split; [apply unique_spec |].
    split; [reflexivity |]. split; [reflexivity |]. split; intros f.
    - rewrite (proj2 (unique_spec _)), filter_In, in_flat_map.
      split.
      + intros [(c & Hc & Hf) Hmd]. split; [exact Hmd |]. exists c. split; [exact Hc |].
        apply in_app_iff in Hf. exact Hf.
      + intros [Hmd (c & Hc & Hf)]. split; [| exact Hmd]. exists c. split; [exact Hc |].
        apply in_app_iff. exact Hf.
    - rewrite (proj2 (unique_spec _)), filter_In, in_flat_map. tauto. }
  unfold handleWebhook in H.
  destruct (negb _); [discriminate |].
  destruct (x_github_delivery req) as [d|]; [| apply (Hp st H eq_refl)].
  destruct (truthy d); [| apply (Hp st H eq_refl)].
  destruct (KV.get now (SYNC_STATE st) ("webhook:" ++ d)) as [existing|];
    [destruct (truthy existing); [discriminate |] |];
    apply (Hp _ H eq_refl).
Qed.

(** ** The nonce is written before the body is read *)

(** X12: a verified delivery with a fresh, non-empty id that is then ignored
    (other branch, no markdown path) or whose body does not parse has
    consumed its id all the same: delivered again within 86400 seconds it
    is answered as a duplicate and never reaches the workflow. *)
Theorem nonce_precedes_processing d now1 now2 req st :
  d <> "" ->
  x_github_delivery req = Some d ->
  verify (body req) (x_hub_signature_256 req) secret = true ->
  KV.get now1 (SYNC_STATE st) ("webhook:" ++ d) = None ->
  now2 < now1 + 86400 * 1000 ->
  (forall changed deleted, snd (handle now1 req st) <> Ok (Accepted changed deleted)) ->
  let st1 := fst (handle now1 req st) in
  GOVERNANCE_SYNC st1 = GOVERNANCE_SYNC st /\
  handle now2 req st1 = (st1, Ok (Duplicate d)).
Proof.
  intros Hne Hd Hv Hfresh Hlt Hnot st1.
  assert (truthy d = true) as Ht.
  { unfold truthy. destruct (String.eqb_spec d ""); [contradiction | reflexivity]. }
  assert (st1 = fst (process JSON_parse req
                       (mkState (KV.put now1 ("webhook:" ++ d) (Number_toString now1) 86400
                                   (SYNC_STATE st)) (GOVERNANCE_SYNC st)))) as Hst1.
  { subst st1. unfold handleWebhook. rewrite Hv, Hd, Ht, Hfresh. reflexivity. }
  assert (snd (handle now1 req st)
          = snd (process JSON_parse req
                   (mkState (KV.put now1 ("webhook:" ++ d) (Number_toString now1) 86400
                               (SYNC_STATE st)) (GOVERNANCE_SYNC st)))) as Hsnd.
  { unfold handleWebhook. rewrite Hv, Hd, Ht, Hfresh. reflexivity. }
  pose proof (process_frame JSON_parse req
                (mkState (KV.put now1 ("webhook:" ++ d) (Number_toString now1) 86400
                            (SYNC_STATE st)) (GOVERNANCE_SYNC st))) as [Hkv Hsync].
  rewrite <- Hst1 in Hkv, Hsync. cbn [SYNC_STATE GOVERNANCE_SYNC] in Hkv, Hsync.
  split.
  - destruct Hsync as [Hsync | [params Hsync]]; [exact Hsync |].
    exfalso. rewrite Hsnd in Hnot. revert Hsync Hnot. rewrite Hst1. unfold process.
    destruct (JSON_parse (body req)) as [payload|e].
    2:{ cbn. intros Hsync _. apply (f_equal (@length _)) in Hsync.
        rewrite length_app in Hsync. cbn in Hsync. lia. }
    destruct (negb _).
    { cbn. intros Hsync _. apply (f_equal (@length _)) in Hsync.
      rewrite length_app in Hsync. cbn in Hsync. lia. }
    destruct (_ && _).
    { cbn. intros Hsync _. apply (f_equal (@length _)) in Hsync.
      rewrite length_app in Hsync. cbn in Hsync. lia. }
    cbn. intros _ Hnot. eapply Hnot. reflexivity.
  - unfold handleWebhook. rewrite Hv, Hd, Ht. cbn [negb].
    unfold KV.get. rewrite Hkv. unfold KV.put. rewrite lookup_insert_eq.
    cbn [KV.expiration KV.value].
    destruct (Z.ltb_spec now2 (now1 + 86400 * 1000)); [| lia].
    rewrite toString_truthy. reflexivity.
Qed.

End Intake.

Lemma signature_gate_witness :
  let handle := Webhook.handleWebhook Scenario.toy_hmac Scenario.toy_parse "s3cret" in
  let st0 := Webhook.mkState ∅ [] in
  handle Scenario.noon
    (Webhook.mkRequest "{...}" (Some "sha1=5d5b09f6dcb2d53a5fffc60c4ac0d55fabdf5560") None) st0
  = (st0, Ok Webhook.InvalidSignature).
Proof.
  intros handle st0.
  apply (proj1 (signature_gate Scenario.toy_hmac Scenario.toy_parse "s3cret" Scenario.noon
                  (Webhook.mkRequest "{...}"
                     (Some "sha1=5d5b09f6dcb2d53a5fffc60c4ac0d55fabdf5560") None) st0)).
  vm_compute. discriminate.
Defined.

Lemma accepted_delivery_params_witness :
  exists payload params,
    Scenario.toy_parse "{...}" = Ok payload /\
    Webhook.changedFiles params = ["agreements/charter.md"] /\
    Webhook.deletedFiles params = [] /\
    Webhook.commitSha params = "9fceb02".
Proof.
  destruct (accepted_delivery_params Scenario.toy_hmac Scenario.toy_parse "s3cret"
              Scenario.noon (Scenario.signed None) (Webhook.mkState ∅ [])
              (Webhook.mkState ∅ [Webhook.mkSyncParams ["agreements/charter.md"] [] "9fceb02"])
              1 0)
    as (payload & params & Hparse & Hsync & Hsha & _).
  - vm_compute; reflexivity.
  - exists payload, params. split; [exact Hparse |].
    cbn in Hsync. injection Hsync as <-. repeat split; reflexivity.
Defined.

Lemma nonce_precedes_processing_witness :
  let handle := Webhook.handleWebhook Scenario.toy_hmac
                  (fun _ => Throw SyntaxError) "s3cret" in
  let req := Scenario.signed (Some "72d3162e-cc78-11e3-81ab-4c9367dc0958") in
  let st1 := fst (handle Scenario.noon req (Webhook.mkState ∅ [])) in
  snd (handle Scenario.noon req (Webhook.mkState ∅ [])) = Throw SyntaxError /\
  Webhook.GOVERNANCE_SYNC st1 = [] /\
  handle (Scenario.noon + Scenario.hour)%Z req st1
  = (st1, Ok (Webhook.Duplicate "72d3162e-cc78-11e3-81ab-4c9367dc0958")).
Proof.
  intros handle req st1. split; [vm_compute; reflexivity |].
  apply (nonce_precedes_processing Scenario.toy_hmac (fun _ => Throw SyntaxError) "s3cret"
           "72d3162e-cc78-11e3-81ab-4c9367dc0958" Scenario.noon
           (Scenario.noon + Scenario.hour)%Z req (Webhook.mkState ∅ [])).
  - discriminate.
  - reflexivity.
  - vm_compute; reflexivity.
  - vm_compute; reflexivity.
  - vm_compute; reflexivity.
  - intros changed deleted. vm_compute. discriminate.
Defined.

(** ** The store under sync and delete *)

Section Store.

Import Integrity.

Lemma existsb_map_preserving {A} (p : A -> bool) (f : A -> A) (l : list A) :
  (forall x, p (f x) = p x) -> existsb p (List.map f l) = existsb p l.
Proof.
  intros H. induction l as [|x l IH]; cbn; [reflexivity |]. rewrite H, IH. reflexivity.
Qed.

Lemma existsb_false_not_in {A} (p : A -> bool) (l : list A) :
  existsb p l = false -> forall x, In x l -> p x = false.
Proof.
  intros H x Hx. destruct (p x) eqn:E; [| reflexivity].
  assert (existsb p l = true) by (apply existsb_exists; eauto). congruence.
Qed.

Lemma consistent_map_rows (g : DocumentRow -> DocumentRow) db :
  (forall r, doc_id (g r) = doc_id r /\ doc_slug (g r) = doc_slug r) ->
  consistent db ->
  consistent {| documents := List.map g (documents db); domains := domains db;
                document_domains := document_domains db;
                document_relationships := document_relationships db |}.
Proof.
  intros Hg [H1 H2 H3 H4 H5 H6 H7].
  assert (forall x, existsb (has_id x) (List.map g (documents db))
                    = existsb (has_id x) (documents db)) as Hid.
  { intros x. apply existsb_map_preserving. intros r. unfold has_id.
    rewrite (proj1 (Hg r)). reflexivity. }
  constructor; cbn [documents domains document_domains document_relationships].
  - rewrite List.map_map. erewrite List.map_ext; [exact H1 |]. intros r. apply Hg.
  - rewrite List.map_map. erewrite List.map_ext; [exact H2 |]. intros r. apply Hg.
  - exact H3.
  - intros l Hl. rewrite Hid. apply H4, Hl.
  - exact H5.
  - intros r Hr. rewrite !Hid. apply H6, Hr.
  - exact H7.
Qed.

Lemma NoDup_snoc {A} (l : list A) (x : A) : NoDup l -> ~ In x l -> NoDup (l ++ [x]).
Proof.
  intros Hl Hx. apply NoDup_app. split; [exact Hl |]. split; [| apply NoDup_singleton].
  intros y Hy Hy'. apply list_elem_of_In in Hy. apply list_elem_of_In in Hy'.
  destruct Hy' as [<- | []]. contradiction.
Qed.

Lemma consistent_upsert_documents now id slug type title status ef et eb k db db1 :
  consistent db ->
  upsert_documents now id slug type title status ef et eb k db = Ok db1 ->
  consistent db1.
Proof.
  intros Hc. unfold upsert_documents.
  destruct (existsb (has_slug slug) (documents db)) eqn:Es.
  - intros H. injection H as <-. apply consistent_map_rows; [| exact Hc].
    intros r. destruct (has_slug slug r); split; reflexivity.
  - destruct (existsb (has_id id) (documents db)) eqn:Ei; [discriminate |].
    intros H. injection H as <-. destruct Hc as [H1 H2 H3 H4 H5 H6 H7].
    constructor; cbn [documents domains document_domains document_relationships].
    + rewrite List.map_app. apply NoDup_snoc; [exact H1 |]. cbn.
      intros Hin. apply in_map_iff in Hin as (r & Hr & Hin).
      pose proof (existsb_false_not_in _ _ Ei r Hin) as Hf. unfold has_id in Hf.
      rewrite Hr, value_eqb_refl in Hf. discriminate.
    + rewrite List.map_app. apply NoDup_snoc; [exact H2 |]. cbn.
      intros Hin. apply in_map_iff in Hin as (r & Hr & Hin).
      pose proof (existsb_false_not_in _ _ Es r Hin) as Hf. unfold has_slug in Hf.
      rewrite Hr, String.eqb_refl in Hf. discriminate.
    + exact H3.
    + intros l Hl. destruct (H4 l Hl) as [Ha Hb]. split; [| exact Hb].
      apply existsb_app_l, Ha.
    + exact H5.
    + intros r Hr. destruct (H6 r Hr) as [Ha Hb]. split; apply existsb_app_l; assumption.
    + exact H7.
Qed.

Lemma consistent_insert_document_domain document_id domain_id db db1 :
  consistent db ->
  insert_document_domain document_id domain_id db = Ok db1 ->
  consistent db1.
Proof.
  intros Hc. unfold insert_document_domain.
  destruct (existsb (same_link document_id domain_id) (document_domains db)) eqn:El.
  { intros H. injection H as <-. exact Hc. }
  destruct (existsb (has_id document_id) (documents db)) eqn:Ed; [| discriminate].
  destruct (existsb _ (domains db)) eqn:Em; [| discriminate].
  cbn [andb]. intros H. injection H as <-. destruct Hc as [H1 H2 H3 H4 H5 H6 H7].
  constructor; cbn [documents domains document_domains document_relationships];
    try assumption.
  - rewrite List.map_app. apply NoDup_snoc; [exact H3 |]. cbn.
    intros Hin. apply in_map_iff in Hin as (l & Hl & Hin).
    pose proof (existsb_false_not_in _ _ El l Hin) as Hf. unfold same_link in Hf.
    injection Hl as Ha Hb. rewrite Ha, Hb, value_eqb_refl, String.eqb_refl in Hf.
    discriminate.
  - intros l Hl. apply in_app_iff in Hl as [Hl | [<- | []]]; [apply H4, Hl |].
    cbn. split; assumption.
Qed.

Lemma consistent_insert_relationship now id from_id to_id type db db1 :
  consistent db ->
  insert_relationship now id from_id to_id type db = Ok db1 ->
  consistent db1.
Proof.
  intros Hc. unfold insert_relationship.
  destruct (valid_relationship_type type) eqn:Et; cbn [negb].
  2:{ intros H. injection H as <-. exact Hc. }
  destruct (existsb _ (document_relationships db)) eqn:Er.
  { intros H. injection H as <-. exact Hc. }
  destruct (existsb (has_id from_id) (documents db)) eqn:Ef; [| discriminate].
  destruct (existsb (has_id to_id) (documents db)) eqn:Eto; [| discriminate].
  cbn [andb]. intros H. injection H as <-. destruct Hc as [H1 H2 H3 H4 H5 H6 H7].
  constructor; cbn [documents domains document_domains document_relationships];
    try assumption.
  - rewrite List.map_app. apply NoDup_snoc; [exact H5 |]. cbn.
    intros Hin. apply in_map_iff in Hin as (r & Hr & Hin).
    pose proof (existsb_false_not_in _ _ Er r Hin) as Hf. cbn in Hf.
    rewrite Hr, String.eqb_refl in Hf. discriminate.
  - intros r Hr. apply in_app_iff in Hr as [Hr | [<- | []]]; [apply H6, Hr |].
    cbn. split; assumption.
  - intros r Hr. apply in_app_iff in Hr as [Hr | [<- | []]]; [apply H7, Hr |].
    exact Et.
Qed.

Lemma consistent_link_domains id slugs db :
  consistent db -> consistent (fst (link_domains id slugs db)).
Proof.
  revert db. induction slugs as [|s slugs IH]; intros db Hc; cbn [link_domains];
    [exact Hc |].
  destruct (select_domain s db) as [d|]; [| apply IH, Hc].
  destruct (insert_document_domain id (dom_id d) db) as [db1|e] eqn:E; [| exact Hc].
  apply IH. eapply consistent_insert_document_domain; eassumption.
Qed.

Lemma consistent_link_relationships now id rels db :
  consistent db -> consistent (fst (link_relationships now id rels db)).
Proof.
  revert db. induction rels as [|rel rels IH]; intros db Hc; cbn [link_relationships];
    [exact Hc |].
  destruct (select_document (targetSlug rel) db) as [t|]; [| apply IH, Hc].
  destruct (insert_relationship now _ id (doc_id t) (rel_type rel) db) as [db1|e] eqn:E;
    [| exact Hc].
  apply IH. eapply consistent_insert_relationship; eassumption.
Qed.

Lemma consistent_upsertDocument now db parsed k :
  consistent db -> consistent (fst (upsertDocument now db parsed k)).
Proof.
  intros Hc. destruct parsed as [parsed|]; [| exact Hc]. unfold upsertDocument.
  destruct (bind_document parsed) as [[[[[id title] ef] et] eb]|e]; [| exact Hc].
  destruct (upsert_documents now id (p_slug parsed) (p_type parsed) title (p_status parsed)
              ef et eb k db) as [db1|e] eqn:E1; [| exact Hc].
  pose proof (consistent_upsert_documents _ _ _ _ _ _ _ _ _ _ _ _ Hc E1) as Hc1.
  pose proof (consistent_link_domains id (p_domains parsed) db1 Hc1) as Hc2.
  destruct (link_domains id (p_domains parsed) db1) as [db2 [[]|e]]; cbn [fst] in *;
    [| exact Hc2].
  apply consistent_link_relationships, Hc2.
Qed.

Lemma consistent_deleteDocument now db path :
  consistent db -> consistent (deleteDocument now db path).
Proof.
  intros Hc. unfold deleteDocument, update_retired. apply consistent_map_rows; [| exact Hc].
  intros r. destruct (has_slug _ r); split; reflexivity.
Qed.

Lemma consistent_migrated now : consistent (migrated now).
Proof.
  constructor; cbn; try apply NoDup_nil_2; intros ? [].
Qed.

(** X13: the constraints of the schema hold in the migrated store and are kept
    by every sync step, whatever its outcome (completed, or interrupted by
    an exception after some of its statements), and by every delete
    step. *)
Theorem steps_keep_constraints sha t path content env :
  consistent (GOVERNANCE_DB env) ->
  consistent (GOVERNANCE_DB (fst (sync_file sha t path content env))) /\
  consistent (GOVERNANCE_DB (delete_file t path env)).
Proof.
  intros Hc. split.
  - unfold sync_file. destruct (parseGovernanceDocument path content) as [[parsed|]|e];
      cbn [fst GOVERNANCE_DB]; try exact Hc.
    pose proof (consistent_upsertDocument (datetime_now t) (GOVERNANCE_DB env) (Some parsed)
                  ("governance/" ++ path) Hc) as H.
    destruct (upsertDocument _ _ _ _) as [db r]. exact H.
  - apply consistent_deleteDocument, Hc.
Qed.

(** ** Deletion *)

Lemma retire_rows_frozen now slug l :
  List.map frozen_part (List.map (fun r => if has_slug slug r then retire now r else r) l)
  = List.map frozen_part l.
Proof.
  rewrite List.map_map. apply List.map_ext. intros r. destruct (has_slug slug r); reflexivity.
Qed.

(** X14: a deletion removes no row and touches no link or edge: it rewrites
    [status] and [updated_at] of the rows of the computed slug and nothing
    else; a second deletion of the same path only moves [updated_at]. *)
Theorem deletion_keeps_history now db path :
  let db' := deleteDocument now db path in
  domains db' = domains db /\
  document_domains db' = document_domains db /\
  document_relationships db' = document_relationships db /\
  List.map frozen_part (documents db') = List.map frozen_part (documents db) /\
  (forall r, In r (documents db') -> doc_slug r = Workflow.pathToSlug path ->
     doc_status r = retired /\ doc_updated_at r = now) /\
  (forall r, In r (documents db) -> doc_slug r <> Workflow.pathToSlug path ->
     In r (documents db')) /\
  (forall now0, deleteDocument now (deleteDocument now0 db path) path = db').
Proof.
  cbn zeta. unfold deleteDocument, update_retired.
  cbn [documents domains document_domains document_relationships].
  split; [reflexivity |]. split; [reflexivity |]. split; [reflexivity |].
  split; [apply retire_rows_frozen |]. split; [| split].
  - intros r Hr Hs. apply in_map_iff in Hr as (r0 & <- & _).
    destruct (has_slug (Workflow.pathToSlug path) r0) eqn:E; [split; reflexivity |].
    unfold has_slug in E. rewrite Hs, String.eqb_refl in E. discriminate.
  - intros r Hr Hs. apply in_map_iff. exists r. split; [| exact Hr].
    destruct (has_slug (Workflow.pathToSlug path) r) eqn:E; [| reflexivity].
    unfold has_slug in E. apply String.eqb_eq in E. contradiction.
  - intros now0. f_equal. rewrite List.map_map. apply List.map_ext. intros r.
    destruct (has_slug (Workflow.pathToSlug path) r) eqn:E.
    + assert (has_slug (Workflow.pathToSlug path) (retire now0 r) = true) as -> by exact E.
      reflexivity.
    + rewrite E. reflexivity.
Qed.

Lemma upsert_after_retire now now0 id slug type title status ef et eb k db :
  upsert_documents now id slug type title status ef et eb k (update_retired now0 slug db)
  = upsert_documents now id slug type title status ef et eb k db.
Proof.
  unfold upsert_documents, update_retired.
  cbn [documents domains document_domains document_relationships].
  rewrite (existsb_map_preserving (has_slug slug)).
  2:{ intros r. destruct (has_slug slug r) eqn:E; exact E. }
  destruct (existsb (has_slug slug) (documents db)) eqn:Es.
  - f_equal. f_equal. rewrite List.map_map. apply List.map_ext. intros r.
    destruct (has_slug slug r) eqn:E.
    + assert (has_slug slug (retire now0 r) = true) as -> by exact E. reflexivity.
    + rewrite E. reflexivity.
  - assert (List.map (fun r => if has_slug slug r then retire now0 r else r) (documents db)
            = documents db) as ->.
    { erewrite List.map_ext_in; [apply List.map_id |]. intros r Hr.
      rewrite (existsb_false_not_in _ _ Es r Hr). reflexivity. }
    reflexivity.
Qed.

(** X15: retirement is not sticky: when a path outside [proposals/] is deleted
    and the file is then synced again with indexable content, and [bind]
    accepts the five values of the record it is given (id, title, the two
    dates and the enacting proposal: each a string or blank, the last three
    possibly absent), the result is what the sync gives without the
    deletion, mirror object included.  When [bind] refuses one of them (a
    list with an item), the sync throws before its first statement: the
    mirror object is written, and the store is the one the deletion
    left. *)
Theorem resync_undoes_delete sha t1 t2 path content parsed env :
  startsWith "proposals/" path = false ->
  parseGovernanceDocument path content = Ok (Some parsed) ->
  match bind_document parsed with
  | Ok _ =>
      sync_file sha t2 path content (delete_file t1 path env)
      = sync_file sha t2 path content env
  | Throw e =>
      sync_file sha t2 path content (delete_file t1 path env)
      = (mkEnv (GOVERNANCE_CONTENT (fst (sync_file sha t2 path content env)))
               (deleteDocument (datetime_now t1) (GOVERNANCE_DB env) path),
         Throw e)
  end.
Proof.
  intros Hp Hparse. rewrite !(sync_file_parsed _ _ _ _ _ _ Hparse).
  unfold delete_file. cbn [GOVERNANCE_CONTENT GOVERNANCE_DB fst].
  rewrite insert_delete_eq.
  destruct (bind_document parsed) as [b|e] eqn:Hb.
  2:{ unfold upsertDocument. rewrite Hb. reflexivity. }
  assert (upsertDocument (datetime_now t2)
            (deleteDocument (datetime_now t1) (GOVERNANCE_DB env) path) (Some parsed)
            ("governance/" ++ path)
          = upsertDocument (datetime_now t2) (GOVERNANCE_DB env) (Some parsed)
              ("governance/" ++ path)) as ->; [| reflexivity].
  unfold deleteDocument. rewrite (pathToSlug_agree _ Hp).
  assert (p_slug parsed = Parser.pathToSlug path) as <-.
  { unfold parseGovernanceDocument in Hparse. destruct (excluded path); [discriminate |].
    destruct (extractFrontmatter content) as [[fm|]|]; cbn [obind] in Hparse;
      try discriminate.
    injection Hparse as <-. reflexivity. }
  unfold upsertDocument. rewrite Hb. destruct b as [[[[id title] ef] et] eb].
  rewrite upsert_after_retire.
  destruct (upsert_documents (datetime_now t2) id (p_slug parsed) (p_type parsed) title
              (p_status parsed) ef et eb ("governance/" ++ path) (GOVERNANCE_DB env))
    as [db1|e] eqn:E; [reflexivity |].
  f_equal. unfold upsert_documents in E.
  destruct (existsb (has_slug (p_slug parsed)) (documents (GOVERNANCE_DB env))) eqn:Es;
    [discriminate |].
  unfold update_retired. destruct (GOVERNANCE_DB env) as [docs doms dds drs]. cbn in *.
  f_equal. erewrite List.map_ext_in; [apply List.map_id |]. intros r Hr.
  rewrite (existsb_false_not_in _ _ Es r Hr). reflexivity.
Qed.

End Store.

Lemma steps_keep_constraints_witness :
  Integrity.consistent
    (GOVERNANCE_DB (fst (sync_file "c1" Scenario.t1 "agreements/operating-agreement.md"
                           Scenario.operating_agreement_inline Scenario.fresh))) /\
  Integrity.consistent
    (GOVERNANCE_DB (delete_file Scenario.t1 "agreements/operating-agreement.md"
                      Scenario.fresh)).
Proof.
  apply (steps_keep_constraints "c1" Scenario.t1 "agreements/operating-agreement.md"
           Scenario.operating_agreement_inline Scenario.fresh).
  constructor; simpl; try apply NoDup_nil_2; intros ? [].
Defined.

Lemma resync_undoes_delete_witness :
  sync_file "c2" Scenario.t2 "agreements/charter.md" Scenario.charter_md
    (delete_file Scenario.t1 "agreements/charter.md" Scenario.with_charter)
  = sync_file "c2" Scenario.t2 "agreements/charter.md" Scenario.charter_md
      Scenario.with_charter.
Proof.
  apply (resync_undoes_delete "c2" Scenario.t1 Scenario.t2 "agreements/charter.md"
           Scenario.charter_md Scenario.charter Scenario.with_charter).
  - reflexivity.
  - vm_compute. reflexivity.
Defined.

(** ** What a sync adds *)

Section Links.

Lemma link_domains_sound id slugs db :
  exists links,
    document_domains (fst (link_domains id slugs db)) = (document_domains db ++ links)%list /\
    Forall (fun l => dd_document_id l = id /\
                     exists s d, In s slugs /\ select_domain s db = Some d /\
                                 dd_domain_id l = dom_id d) links.
Proof.
  revert db. induction slugs as [|s slugs IH]; intros db; cbn [link_domains].
  { exists []. rewrite app_nil_r. split; [reflexivity | constructor]. }
  assert (forall db', domains db' = domains db ->
            forall links,
              Forall (fun l => dd_document_id l = id /\
                        exists s0 d, In s0 slugs /\ select_domain s0 db' = Some d /\
                                     dd_domain_id l = dom_id d) links ->
              Forall (fun l => dd_document_id l = id /\
                        exists s0 d, In s0 (s :: slugs) /\ select_domain s0 db = Some d /\
                                     dd_domain_id l = dom_id d) links) as Hmono.
  { intros db' Hdom links. apply List.Forall_impl. intros l [Hid (s0 & d & Hin & Hsel & Hd)].
    split; [exact Hid |]. exists s0, d. split; [right; exact Hin |].
    split; [| exact Hd]. rewrite <- Hsel. symmetry. apply select_domain_same, Hdom. }
  destruct (select_domain s db) as [d|] eqn:Es.
  2:{ destruct (IH db) as (links & Heq & Hall). exists links. split; [exact Heq |].
      apply (Hmono db eq_refl), Hall. }
  destruct (insert_document_domain id (dom_id d) db) as [db1|e] eqn:Ei.
  2:{ exists []. rewrite app_nil_r. split; [reflexivity | constructor]. }
  destruct (IH db1) as (links & Heq & Hall).
  unfold insert_document_domain in Ei.
  destruct (existsb (same_link id (dom_id d)) (document_domains db)).
  { injection Ei as <-. exists links. split; [exact Heq |]. apply (Hmono db eq_refl), Hall. }
  destruct (_ && _); [| discriminate]. injection Ei as <-.
  cbn [document_domains] in Heq. exists (mkDocumentDomain id (dom_id d) :: links).
  rewrite Heq, <- app_assoc. split; [reflexivity |]. constructor.
  - cbn. split; [reflexivity |]. exists s, d. split; [left; reflexivity |]. auto.
  - apply (Hmono _ eq_refl), Hall.
Qed.

Lemma link_relationships_sound now id rels db :
  exists edges,
    document_relationships (fst (link_relationships now id rels db))
    = (document_relationships db ++ edges)%list /\
    Forall (fun e => dr_from_id e = id /\ dr_created_at e = now /\
                     valid_relationship_type (dr_relationship_type e) = true /\
                     exists rel t, In rel rels /\
                                   select_document (targetSlug rel) db = Some t /\
                                   dr_relationship_type e = rel_type rel /\
                                   dr_to_id e = doc_id t /\
                                   dr_id e = relId id rel t) edges.
Proof.
  revert db. induction rels as [|rel rels IH]; intros db; cbn [link_relationships].
  { exists []. rewrite app_nil_r. split; [reflexivity | constructor]. }
  assert (forall db', documents db' = documents db ->
            forall edges,
              Forall (fun e => dr_from_id e = id /\ dr_created_at e = now /\
                        valid_relationship_type (dr_relationship_type e) = true /\
                        exists rel0 t, In rel0 rels /\
                                       select_document (targetSlug rel0) db' = Some t /\
                                       dr_relationship_type e = rel_type rel0 /\
                                       dr_to_id e = doc_id t /\
                                       dr_id e = relId id rel0 t) edges ->
              Forall (fun e => dr_from_id e = id /\ dr_created_at e = now /\
                        valid_relationship_type (dr_relationship_type e) = true /\
                        exists rel0 t, In rel0 (rel :: rels) /\
                                       select_document (targetSlug rel0) db = Some t /\
                                       dr_relationship_type e = rel_type rel0 /\
                                       dr_to_id e = doc_id t /\
                                       dr_id e = relId id rel0 t) edges) as Hmono.
  { intros db' Hdocs edges. apply List.Forall_impl.
    intros e (Hid & Hnow & Hty & rel0 & t & Hin & Hsel & Hrest).
    split; [exact Hid |]. split; [exact Hnow |]. split; [exact Hty |].
    exists rel0, t. split; [right; exact Hin |].
    split; [| exact Hrest]. rewrite <- Hsel. symmetry. apply select_document_same, Hdocs. }
  destruct (select_document (targetSlug rel) db) as [t|] eqn:Es.
  2:{ destruct (IH db) as (edges & Heq & Hall). exists edges. split; [exact Heq |].
      apply (Hmono db eq_refl), Hall. }
  destruct (insert_relationship now (relId id rel t) id (doc_id t) (rel_type rel) db)
    as [db1|e] eqn:Ei.
  2:{ exists []. rewrite app_nil_r. split; [reflexivity | constructor]. }
  destruct (IH db1) as (edges & Heq & Hall).
  unfold insert_relationship in Ei.
  destruct (valid_relationship_type (rel_type rel)) eqn:Ety; cbn [negb] in Ei.
  2:{ injection Ei as <-. exists edges. split; [exact Heq |]. apply (Hmono db eq_refl), Hall. }
  destruct (existsb _ (document_relationships db)).
  { injection Ei as <-. exists edges. split; [exact Heq |]. apply (Hmono db eq_refl), Hall. }
  destruct (_ && _); [| discriminate]. injection Ei as <-.
  cbn [document_relationships] in Heq.
  exists (mkRelationship (relId id rel t) id (doc_id t) (rel_type rel) now :: edges).
  rewrite Heq, <- app_assoc. split; [reflexivity |]. constructor.
  - cbn. split; [reflexivity |]. split; [reflexivity |]. split; [exact Ety |].
    exists rel, t. split; [left; reflexivity |]. auto.
  - apply (Hmono _ eq_refl), Hall.
Qed.

Lemma bind_document_id_inv parsed id title ef et eb :
  bind_document parsed = Ok (id, title, ef, et, eb) -> bind_value (p_id parsed) = Ok id.
Proof. intros H. apply bind_document_inv in H. apply H. Qed.

(** X16: whatever its outcome, the upsert of a record only appends to the two
    link tables and leaves the domains alone.  Each appended link goes from
    the record's id, as [bind] sends it (a blank id as the empty blob), to a
    known domain the record declares; each appended edge goes from that id,
    carries a type of the vocabulary, and points to the stored row of a
    target the record names with that type.  Links and edges of an earlier
    version of the document are never taken away. *)
Theorem sync_only_appends_declared_links now db parsed k :
  let db' := fst (upsertDocument now db (Some parsed) k) in
  domains db' = domains db /\
  (exists links,
     document_domains db' = (document_domains db ++ links)%list /\
     Forall (fun l => bind_value (p_id parsed) = Ok (dd_document_id l) /\
               exists s d, In s (p_domains parsed) /\ select_domain s db = Some d /\
                           dd_domain_id l = dom_id d) links) /\
  (exists edges,
     document_relationships db' = (document_relationships db ++ edges)%list /\
     Forall (fun e => bind_value (p_id parsed) = Ok (dr_from_id e) /\
               valid_relationship_type (dr_relationship_type e) = true /\
               exists rel t, In rel (p_relationships parsed) /\
                             select_document (targetSlug rel) db' = Some t /\
                             dr_relationship_type e = rel_type rel /\
                             dr_to_id e = doc_id t) edges).
Proof.
  cbn zeta. unfold upsertDocument.
  assert (domains db = domains db /\
          (exists links, document_domains db = (document_domains db ++ links)%list /\
             Forall (fun l => bind_value (p_id parsed) = Ok (dd_document_id l) /\
               exists s d, In s (p_domains parsed) /\ select_domain s db = Some d /\
                           dd_domain_id l = dom_id d) links) /\
          (exists edges,
             document_relationships db = (document_relationships db ++ edges)%list /\
             Forall (fun e => bind_value (p_id parsed) = Ok (dr_from_id e) /\
               valid_relationship_type (dr_relationship_type e) = true /\
               exists rel t, In rel (p_relationships parsed) /\
                             select_document (targetSlug rel) db = Some t /\
                             dr_relationship_type e = rel_type rel /\
                             dr_to_id e = doc_id t) edges)) as Hnil.
  { split; [reflexivity |]. split; exists []; rewrite app_nil_r; split; auto. }
  destruct (bind_document parsed) as [[[[[id title] ef] et] eb]|e] eqn:Eb; [| exact Hnil].
  apply bind_document_id_inv in Eb.
  destruct (upsert_documents now id (p_slug parsed) (p_type parsed) title (p_status parsed)
              ef et eb k db) as [db1|e] eqn:E1; [| exact Hnil].
  clear Hnil. apply upsert_documents_frame in E1 as (Hdom1 & Hdd1 & Hdr1).
  destruct (link_domains_frame id (p_domains parsed) db1) as (Hdocs2 & Hdom2 & Hdr2 & _).
  destruct (link_domains_sound id (p_domains parsed) db1) as (links & Hlinks & Hall).
  assert (Forall (fun l => bind_value (p_id parsed) = Ok (dd_document_id l) /\
            exists s d, In s (p_domains parsed) /\ select_domain s db = Some d /\
                        dd_domain_id l = dom_id d) links) as Hall'.
  { revert Hall. apply List.Forall_impl. intros l [Hid (s & d & Hin & Hsel & Hd)].
    split; [rewrite Hid; exact Eb |]. exists s, d. split; [exact Hin |].
    split; [| exact Hd]. rewrite <- Hsel. symmetry. apply select_domain_same, Hdom1. }
  destruct (link_domains id (p_domains parsed) db1) as [db2 [[]|e]]; cbn [fst] in *.
  2:{ split; [congruence |]. split.
      - exists links. split; [congruence | exact Hall'].
      - exists []. rewrite app_nil_r. split; [congruence | constructor]. }
  destruct (link_relationships_frame now id (p_relationships parsed) db2)
    as (Hdocs3 & Hdom3 & Hdd3 & _).
  destruct (link_relationships_sound now id (p_relationships parsed) db2)
    as (edges & Hedges & Hall3).
  split; [congruence |]. split.
  - exists links. split; [congruence | exact Hall'].
  - exists edges. split; [congruence |]. revert Hall3. apply List.Forall_impl.
    intros e (Hid & _ & Hty & rel & t & Hin & Hsel & Hrt & Hto & _).
    split; [rewrite Hid; exact Eb |]. split; [exact Hty |]. exists rel, t.
    split; [exact Hin |]. split; [| auto]. rewrite <- Hsel.
    apply select_document_same, Hdocs3.
Qed.

(** ** A changed identifier *)

Lemma link_domains_foreign_key id slugs db s d :
  existsb (has_id id) (documents db) = false ->
  existsb (fun l => value_eqb (dd_document_id l) id) (document_domains db) = false ->
  In s slugs -> select_domain s db = Some d ->
  link_domains id slugs db = (db, Throw D1ConstraintError).
Proof.
  intros Hid Hlinks. induction slugs as [|s0 slugs IH]; intros Hin Hsel; [destruct Hin |].
  cbn [link_domains]. destruct (select_domain s0 db) as [d0|] eqn:E0.
  - unfold insert_document_domain.
    assert (existsb (same_link id (dom_id d0)) (document_domains db) = false) as ->.
    { destruct (existsb (same_link id (dom_id d0)) (document_domains db)) eqn:E;
        [| reflexivity].
      apply existsb_exists in E as (l & Hl & Hsame). unfold same_link in Hsame.
      apply andb_true_iff in Hsame as [Hsame _].
      assert (existsb (fun l => value_eqb (dd_document_id l) id) (document_domains db)
              = true) by (apply existsb_exists; eauto).
      congruence. }
    rewrite Hid. reflexivity.
  - destruct Hin as [-> | Hin]; [congruence |]. apply IH; assumption.
Qed.

(** X17: when the metadata of a stored document comes with an identifier that
    no row and no link carries (the [id] field was added or changed after
    the first sync) and the record declares a known domain, the step fails.
    When [bind] accepts the record's values, the row keeps its old
    identifier while the links are written under the new one: the insert of
    the link violates its foreign key, and the step fails after the row has
    been rewritten.  When [bind] refuses one of the values (a list with an
    item), the step fails before its first statement and the store is as it
    was. *)
Theorem changed_id_breaks_sync now db parsed k row id s d :
  select_document (p_slug parsed) db = Some row ->
  bind_value (p_id parsed) = Ok id ->
  existsb (has_id id) (documents db) = false ->
  existsb (fun l => value_eqb (dd_document_id l) id) (document_domains db) = false ->
  In s (p_domains parsed) ->
  select_domain s db = Some d ->
  match bind_document parsed with
  | Ok _ =>
      snd (upsertDocument now db (Some parsed) k) = Throw D1ConstraintError /\
      option_map doc_id
        (select_document (p_slug parsed) (fst (upsertDocument now db (Some parsed) k)))
      = Some (doc_id row) /\
      option_map doc_updated_at
        (select_document (p_slug parsed) (fst (upsertDocument now db (Some parsed) k)))
      = Some now
  | Throw e => upsertDocument now db (Some parsed) k = (db, Throw e)
  end.
Proof.
  intros Hrow Hbid Hid Hlinks Hin Hsel. unfold upsertDocument.
  destruct (bind_document parsed) as [[[[[id' title] ef] et] eb]|e] eqn:Hb;
    [| reflexivity].
  pose proof (bind_document_id _ _ _ _ _ _ _ Hbid Hb) as ->.
  rewrite (upsert_documents_conflict _ _ _ _ _ _ _ _ _ _ _ (select_document_exists _ _ _ Hrow)).
  set (db1 := {| documents := _ |}).
  rewrite (link_domains_foreign_key id (p_domains parsed) db1 s d).
  - cbn [fst snd]. split; [reflexivity |]. unfold select_document, db1. cbn [documents].
    rewrite find_map_preserving; [| intros r; apply has_slug_overwrite].
    unfold select_document in Hrow. rewrite Hrow. cbn [option_map].
    rewrite (proj2 (String.eqb_eq _ _) (find_has_slug _ _ _ Hrow) : has_slug _ row = true).
    split; reflexivity.
  - unfold db1. cbn [documents]. rewrite existsb_map_preserving; [exact Hid |].
    intros r. destruct (has_slug (p_slug parsed) r); reflexivity.
  - exact Hlinks.
  - exact Hin.
  - exact Hsel.
Qed.

End Links.

Lemma changed_id_breaks_sync_witness :
  parseGovernanceDocument "agreements/charter.md" Examples.charter_identified_md
  = Ok (Some Examples.charter_identified) /\
  snd (upsertDocument "2026-01-06 09:30:00" (GOVERNANCE_DB Scenario.with_charter)
         (Some Examples.charter_identified) "governance/agreements/charter.md")
  = Throw D1ConstraintError.
Proof.
  split; [vm_compute; reflexivity |].
  pose proof (changed_id_breaks_sync "2026-01-06 09:30:00"
                (GOVERNANCE_DB Scenario.with_charter)
                Examples.charter_identified "governance/agreements/charter.md"
                Scenario.charter_row (Text "agr-001") "dao-core"
                (mkDomain "dom-dao-core" "dao-core" "DAO Core" entity None None
                   (Some "Top-level DAO entity and agreements") "2026-01-01 00:00:00")) as H.
  cbv beta iota delta [bind_document Examples.charter_identified p_id p_title
                       p_effectiveFrom p_effectiveTo p_enactedBy bind_value bind_nullable
                       obind] in H.
  apply H.
  - vm_compute. reflexivity.
  - reflexivity.
  - vm_compute. reflexivity.
  - vm_compute. reflexivity.
  - simpl. left. reflexivity.
  - vm_compute. reflexivity.
Defined.

(** ** Reading a document back *)

Section Detail.

Lemma find_none_app {A} (p : A -> bool) (l : list A) (x : A) :
  List.find p l = None -> List.find p (l ++ [x]) = if p x then Some x else None.
Proof.
  intros H. rewrite find_app_singleton, H. reflexivity.
Qed.

(** X18: when the detail query answers, its row is a stored row whose id or
    slug is the argument and whose type is the one asked for, whatever its
    status; it comes with exactly the domains linked to that row's id and
    exactly the edges that start or end at it.  The query answers nothing
    only when no row qualifies. *)
Theorem queryDetail_spec t db q :
  match queryDetail t db q with
  | Some det =>
      In (det_doc det) (documents db) /\
      doc_type (det_doc det) = t /\
      (doc_id (det_doc det) = Text q \/ doc_slug (det_doc det) = q) /\
      (forall d, In d (det_domains det) <->
         In d (domains db) /\
         In (mkDocumentDomain (doc_id (det_doc det)) (dom_id d)) (document_domains db)) /\
      (forall e, In e (det_relationships det) <->
         In e (document_relationships db) /\
         (dr_from_id e = doc_id (det_doc det) \/ dr_to_id e = doc_id (det_doc det)))
  | None =>
      forall r, In r (documents db) -> doc_type r = t ->
                doc_id r <> Text q /\ doc_slug r <> q
  end.
Proof.
  unfold queryDetail.
  destruct (List.find _ (documents db)) as [doc|] eqn:E.
  - apply find_some in E as [Hin Hp]. apply andb_true_iff in Hp as [Hq Ht].
    cbn [det_doc det_domains det_relationships].
    split; [exact Hin |]. split.
    { unfold is_type in Ht. destruct t, (doc_type doc); try discriminate; reflexivity. }
    split.
    { apply orb_true_iff in Hq as [Hq | Hq];
        [apply value_eqb_eq in Hq | apply String.eqb_eq in Hq]; auto. }
    split.
    + intros d. unfold queryDocumentDomains. rewrite filter_In, existsb_exists.
      split.
      * intros [Hd (l & Hl & Hm)]. split; [exact Hd |].
        apply andb_true_iff in Hm as [H1 H2].
        apply String.eqb_eq in H1. apply value_eqb_eq in H2.
        destruct l as [a b]. cbn in *. subst. exact Hl.
      * intros [Hd Hl]. split; [exact Hd |]. eexists. split; [exact Hl |].
        cbn. rewrite String.eqb_refl, value_eqb_refl. reflexivity.
    + intros e. unfold queryDocumentRelationships. rewrite filter_In, orb_true_iff.
      rewrite !value_eqb_eq. reflexivity.
  - intros r Hr Ht. pose proof (find_none _ _ E r Hr) as Hp. cbn beta in Hp.
    assert (is_type t r = true) as Hty.
    { unfold is_type. rewrite Ht. destruct t; reflexivity. }
    rewrite Hty, andb_true_r in Hp. apply orb_false_iff in Hp as [H1 H2].
    unfold has_id, has_slug in H1, H2. apply value_eqb_neq in H1.
    apply String.eqb_neq in H2. auto.
Qed.

(** X19: the first sync of an indexable document, into a store where no row
    has its slug as slug or as id, makes it readable when the step
    completes: the detail query of the record's type, asked for the slug,
    answers with a row that carries the record's type, status and mirror
    key, and the record's id, title, dates and enacting proposal as [bind]
    sends them (a string as text, a blank value as the empty blob, an
    absent one as NULL), together with every known domain the record
    declares; the mirror holds the content under that key. *)
Theorem first_sync_is_served sha t path content parsed env env' :
  parseGovernanceDocument path content = Ok (Some parsed) ->
  sync_file sha t path content env = (env', Ok tt) ->
  List.find (fun r => has_id (Text (p_slug parsed)) r || has_slug (p_slug parsed) r)
            (documents (GOVERNANCE_DB env)) = None ->
  exists det,
    queryDetail (p_type parsed) (GOVERNANCE_DB env') (p_slug parsed) = Some det /\
    doc_slug (det_doc det) = Parser.pathToSlug path /\
    bind_value (p_id parsed) = Ok (doc_id (det_doc det)) /\
    doc_type (det_doc det) = p_type parsed /\
    doc_status (det_doc det) = p_status parsed /\
    bind_value (p_title parsed) = Ok (doc_title (det_doc det)) /\
    bind_nullable (p_effectiveFrom parsed) = Ok (doc_effective_from (det_doc det)) /\
    bind_nullable (p_effectiveTo parsed) = Ok (doc_effective_to (det_doc det)) /\
    bind_nullable (p_enactedBy parsed) = Ok (doc_enacted_by (det_doc det)) /\
    doc_r2_key (det_doc det) = Some ("governance/" ++ path) /\
    doc_created_at (det_doc det) = datetime_now t /\
    (forall s d, In s (p_domains parsed) ->
       select_domain s (GOVERNANCE_DB env) = Some d -> In d (det_domains det)) /\
    GOVERNANCE_CONTENT env' !! ("governance/" ++ path)
    = Some (mkR2Object content sha (toISOString t)).
Proof.
  intros Hparse Hsync Hnone.
  assert (p_slug parsed = Parser.pathToSlug path) as Hslug.
  { unfold parseGovernanceDocument in Hparse. destruct (excluded path); [discriminate |].
    destruct (extractFrontmatter content) as [[fm|]|]; cbn [obind] in Hparse;
      try discriminate.
    injection Hparse as <-. reflexivity. }
  rewrite (sync_file_parsed _ _ _ _ _ _ Hparse) in Hsync.
  destruct (upsertDocument (datetime_now t) (GOVERNANCE_DB env) (Some parsed)
              ("governance/" ++ path)) as [db' r] eqn:Eu.
  cbn [fst snd] in Hsync. injection Hsync as <- ->.
  cbn [GOVERNANCE_DB GOVERNANCE_CONTENT]. rewrite lookup_insert_eq.
  destruct (upsertDocument_ok_inv _ _ _ _ _ Eu)
    as (id & title & ef & et & eb & db1 & db2 & Hb & H1 & H2 & H3).
  pose proof (upsertDocument_documents _ _ _ _ _ _ _ _ _ _ Hb H1) as Hdocs.
  rewrite Eu in Hdocs. cbn [fst] in Hdocs.
  assert (existsb (has_slug (p_slug parsed)) (documents (GOVERNANCE_DB env)) = false) as Es.
  { destruct (existsb _ _) eqn:E; [| reflexivity].
    apply existsb_exists in E as (r & Hr & Hs).
    pose proof (find_none _ _ Hnone r Hr) as Hf. cbn beta in Hf. rewrite Hs in Hf.
    rewrite orb_true_r in Hf. discriminate. }
  pose proof H1 as H1'. unfold upsert_documents in H1'. rewrite Es in H1'.
  destruct (existsb (has_id id) (documents (GOVERNANCE_DB env))); [discriminate |].
  injection H1' as <-. cbn [documents] in Hdocs.
  set (row := {| doc_id := id |}) in *.
  assert (List.find (fun r => (has_id (Text (p_slug parsed)) r
                               || has_slug (p_slug parsed) r)
                              && is_type (p_type parsed) r) (documents db') = Some row) as Hf.
  { rewrite Hdocs, find_app_singleton.
    assert (List.find (fun r => (has_id (Text (p_slug parsed)) r
                                 || has_slug (p_slug parsed) r)
                                && is_type (p_type parsed) r)
                      (documents (GOVERNANCE_DB env)) = None) as ->.
    { destruct (List.find (fun r => (_ || _) && _) (documents (GOVERNANCE_DB env)))
        as [r|] eqn:E; [| reflexivity].
      apply find_some in E as [Hr Hp]. apply andb_true_iff in Hp as [Hp _].
      pose proof (find_none _ _ Hnone r Hr) as Hq. cbn beta in Hq. congruence. }
    assert (has_slug (p_slug parsed) row = true) as ->
      by (unfold has_slug, row; cbn; apply String.eqb_refl).
    assert (is_type (p_type parsed) row = true) as ->
      by (unfold is_type, row; cbn; destruct (p_type parsed); reflexivity).
    rewrite orb_true_r. reflexivity. }
  unfold queryDetail. rewrite Hf. eexists. split; [reflexivity |].
  cbn [det_doc det_domains]. unfold row at 1 2 3 4 5 6 7 8 9 10. cbn.
  pose proof (bind_document_inv _ _ _ _ _ _ Hb) as (Bid & Btitle & Bef & Bet & Beb).
  split; [exact Hslug |]. split; [exact Bid |].
  split; [reflexivity |]. split; [reflexivity |]. split; [exact Btitle |].
  split; [exact Bef |]. split; [exact Bet |]. split; [exact Beb |].
  split; [reflexivity |]. split; [reflexivity |]. split; [| reflexivity].
  intros s d Hs Hd.
  pose proof (link_domains_linked _ _ _ _ H2) as Hlinked.
  pose proof (link_relationships_frame (datetime_now t) id (p_relationships parsed) db2)
    as (_ & Hdom3 & Hdd3 & _).
  rewrite H3 in Hdom3, Hdd3. cbn [fst] in Hdom3, Hdd3.
  pose proof (link_domains_frame id (p_domains parsed)
                {| documents := (documents (GOVERNANCE_DB env) ++ [row])%list;
                   domains := domains (GOVERNANCE_DB env);
                   document_domains := document_domains (GOVERNANCE_DB env);
                   document_relationships := document_relationships (GOVERNANCE_DB env) |})
    as (_ & Hdom2 & _).
  rewrite H2 in Hdom2. cbn [fst domains] in Hdom2.
  unfold domains_linked in Hlinked. rewrite List.Forall_forall in Hlinked.
  assert (select_domain s db2 = Some d) as Hd2.
  { rewrite <- Hd. apply select_domain_same. exact Hdom2. }
  specialize (Hlinked s Hs d Hd2).
  unfold queryDocumentDomains. apply filter_In. split.
  - rewrite Hdom3, Hdom2. unfold select_domain in Hd. apply find_some in Hd. apply Hd.
  - rewrite Hdd3. apply existsb_exists in Hlinked as (l & Hl & Hm).
    apply existsb_exists. exists l. split; [exact Hl |]. unfold same_link in Hm.
    apply andb_true_iff in Hm as [Ha Hb']. rewrite Ha, Hb'. reflexivity.
Qed.

End Detail.

Lemma first_sync_is_served_witness :
  exists det,
    queryAgreementDetail (GOVERNANCE_DB Scenario.with_charter) "charter" = Some det /\
    doc_title (det_doc det) = Text "Charter" /\ doc_status (det_doc det) = active.
Proof.
  destruct (first_sync_is_served "c0" Scenario.t0 "agreements/charter.md" Scenario.charter_md
              Scenario.charter Scenario.fresh Scenario.with_charter)
    as (det & Hq & _ & _ & _ & Hst & Ht & _).
  - vm_compute. reflexivity.
  - vm_compute. reflexivity.
  - reflexivity.
  - exists det. split; [exact Hq |]. split; [| exact Hst].
    cbn in Ht. injection Ht as Ht. symmetry. exact Ht.
Defined.

(** ** Refresh cycles *)

Section Cycles.

Import Cache CacheReads.

Local Open Scope Z_scope.

Lemma not_due_ext ns ns' key ttl now force :
  ns' !! ("lastrun:" ++ key)%string = ns !! ("lastrun:" ++ key)%string ->
  not_due ns' key ttl now force = not_due ns key ttl now force.
Proof.
  intros H. unfold not_due, KV.get. rewrite H. reflexivity.
Qed.

Lemma refreshIfDue_other ns key ttl now force fetcher k :
  k <> key -> k <> ("lastrun:" ++ key)%string ->
  fst (refreshIfDue ns key ttl now force fetcher) !! k = ns !! k.
Proof.
  intros H1 H2. unfold refreshIfDue.
  destruct (not_due ns key ttl now force); [reflexivity |].
  destruct fetcher; [| reflexivity]. cbn [fst]. unfold KV.put.
  rewrite lookup_insert_ne; [| congruence]. rewrite lookup_insert_ne; [| congruence].
  reflexivity.
Qed.

Lemma refreshIfDue_own ns key ttl now force fetcher :
  key <> ("lastrun:" ++ key)%string ->
  let ns' := fst (refreshIfDue ns key ttl now force fetcher) in
  match fetcher with
  | Ok v =>
      if not_due ns key ttl now force
      then ns' !! key = ns !! key /\
           ns' !! ("lastrun:" ++ key)%string = ns !! ("lastrun:" ++ key)%string
      else ns' !! key = Some (KV.mkEntry v (now + ttl * 2 * 1000)) /\
           recorded ns' key ttl now
  | Throw _ =>
      ns' !! key = ns !! key /\
      ns' !! ("lastrun:" ++ key)%string = ns !! ("lastrun:" ++ key)%string
  end.
Proof.
  intros Hne. cbn zeta. unfold refreshIfDue, recorded.
  destruct fetcher as [v|e]; destruct (not_due ns key ttl now force); cbn [fst]; auto.
  unfold KV.put. rewrite lookup_insert_ne; [| congruence].
  rewrite !lookup_insert_eq. auto.
Qed.

Lemma store_other now key text ttl ns k :
  k <> key -> store now key text ttl ns !! k = ns !! k.
Proof.
  intros H. unfold store. destruct text; [| reflexivity].
  unfold KV.put. apply lookup_insert_ne. congruence.
Qed.

Lemma members_profiles_other ns now force src k :
  k <> "ens:profiles"%string -> members_profiles ns now force src !! k = ns !! k.
Proof.
  intros H. unfold members_profiles.
  destruct (not_due ns "daoip2:members" TTL_members now force); [reflexivity |].
  destruct (members src); [apply store_other, H | reflexivity].
Qed.

Lemma cycle_unfold settle ns now force src :
  let r1 := refreshIfDue (members_profiles ns now force src) "daoip2:members" TTL_members
              now force (members src) in
  let r2 := refreshIfDue (fst r1) "daoip2:proposals" TTL_proposals now force (proposals src) in
  let r3 := refreshIfDue (fst r2) "daoip2:activity" TTL_activity now force (activity src) in
  let r4 := refreshIfDue (fst r3) "sb:roles" TTL_roles now force (roles src) in
  let r5 := refreshIfDue (fst r4) "sb:groups" TTL_groups now force (groups src) in
  runCacheRefresh settle ns now force src
  = (if force then delete "daoip2:dao"%string (fst r5) else fst r5,
     call_order settle force
       ((if snd r1 then ["daoip2:members"%string] else []) ++
        (if snd r2 then ["daoip2:proposals"%string] else []) ++
        (if snd r3 then ["daoip2:activity"%string] else []) ++
        (if snd r4 then ["sb:roles"%string] else []) ++
        (if snd r5 then ["sb:groups"%string] else []))%list).
Proof.
  cbn zeta. unfold runCacheRefresh. cbn [fst snd].
  destruct (refreshIfDue _ "daoip2:members" _ _ _ _) as [n1 [|]]; cbn [fst snd];
  destruct (refreshIfDue n1 "daoip2:proposals" _ _ _ _) as [n2 [|]]; cbn [fst snd];
  destruct (refreshIfDue n2 "daoip2:activity" _ _ _ _) as [n3 [|]]; cbn [fst snd];
  destruct (refreshIfDue n3 "sb:roles" _ _ _ _) as [n4 [|]]; cbn [fst snd];
  destruct (refreshIfDue n4 "sb:groups" _ _ _ _) as [n5 [|]]; cbn [fst snd];
  reflexivity.
Qed.

Ltac key_ne := let H := fresh in intros H; vm_compute in H; discriminate H.

Ltac skip_steps :=
  repeat (rewrite refreshIfDue_other; [| key_ne | key_ne]);
  try (rewrite members_profiles_other; [| key_ne]).

Ltac skip_key k :=
  repeat first
    [ rewrite (refreshIfDue_other _ "sb:groups" _ _ _ _ k); [| key_ne | key_ne]
    | rewrite (refreshIfDue_other _ "sb:roles" _ _ _ _ k); [| key_ne | key_ne]
    | rewrite (refreshIfDue_other _ "daoip2:activity" _ _ _ _ k); [| key_ne | key_ne]
    | rewrite (refreshIfDue_other _ "daoip2:proposals" _ _ _ _ k); [| key_ne | key_ne]
    | rewrite (refreshIfDue_other _ "daoip2:members" _ _ _ _ k); [| key_ne | key_ne]
    | rewrite (members_profiles_other _ _ _ _ k); [| key_ne] ].

Lemma insert_by_In {A} (leb : A -> A -> bool) (x y : A) (l : list A) :
  In y (insert_by leb x l) <-> y = x \/ In y l.
Proof.
  induction l as [|z l IH]; cbn; [intuition congruence |].
  destruct (leb x z); cbn; [intuition congruence |]. rewrite IH. intuition congruence.
Qed.

Lemma order_by_In {A} (leb : A -> A -> bool) (y : A) (l : list A) :
  In y (order_by leb l) <-> In y l.
Proof.
  induction l as [|x l IH]; cbn; [reflexivity |].
  rewrite insert_by_In, IH. intuition congruence.
Qed.

Lemma call_order_In settle force keys key :
  In key (call_order settle force keys) <-> In key keys.
Proof.
  unfold call_order. destruct force; [reflexivity | apply order_by_In].
Qed.

(** The keys fetched by a cycle are those that are due in the namespace
    the cycle starts from, in the order of the calls. *)
Lemma cycle_fetched settle ns now force src :
  snd (runCacheRefresh settle ns now force src)
  = call_order settle force
      (List.map fst
         (List.filter (fun kt => negb (not_due ns (fst kt) (snd kt) now force)) schedule)).
Proof.
  rewrite cycle_unfold. cbn [snd]. rewrite !fetched_iff_due. f_equal.
  rewrite (not_due_ext ns _ "daoip2:members"); [| skip_steps; reflexivity].
  rewrite (not_due_ext ns _ "daoip2:proposals"); [| skip_steps; reflexivity].
  rewrite (not_due_ext ns _ "daoip2:activity"); [| skip_steps; reflexivity].
  rewrite (not_due_ext ns _ "sb:roles"); [| skip_steps; reflexivity].
  rewrite (not_due_ext ns _ "sb:groups"); [| skip_steps; reflexivity].
  unfold schedule. cbn [List.filter fst snd].
  destruct (not_due ns "daoip2:members" _ _ _), (not_due ns "daoip2:proposals" _ _ _),
    (not_due ns "daoip2:activity" _ _ _), (not_due ns "sb:roles" _ _ _),
    (not_due ns "sb:groups" _ _ _); reflexivity.
Qed.

(** What a cycle leaves under a key of the schedule and under its
    [lastrun:] key. *)
Lemma cycle_lookup settle ns now force src key ttl o :
  In (key, ttl) schedule ->
  source_of src key = Some o ->
  let ns' := fst (runCacheRefresh settle ns now force src) in
  match o with
  | Ok v =>
      if not_due ns key ttl now force
      then ns' !! key = ns !! key /\
           ns' !! ("lastrun:" ++ key)%string = ns !! ("lastrun:" ++ key)%string
      else ns' !! key = Some (KV.mkEntry v (now + ttl * 2 * 1000)) /\
           recorded ns' key ttl now
  | Throw _ =>
      ns' !! key = ns !! key /\
      ns' !! ("lastrun:" ++ key)%string = ns !! ("lastrun:" ++ key)%string
  end.
Proof.
  intros Hin Hsrc. cbn zeta. rewrite cycle_unfold. cbn [fst]. unfold recorded.
  set (ns0 := members_profiles ns now force src).
  assert (forall (m : gmap string KV.Entry) k,
            k <> "daoip2:dao"%string ->
            (if force then delete "daoip2:dao"%string m else m) !! k = m !! k) as Hdrop.
  { intros m k Hk. destruct force; [| reflexivity]. apply lookup_delete_ne. congruence. }
  unfold schedule in Hin. cbn [In] in Hin.
  destruct Hin as [H | [H | [H | [H | [H | []]]]]]; injection H as <- <-;
    cbn in Hsrc; injection Hsrc as <-;
    (rewrite !Hdrop; [| key_ne | key_ne]).
  - pose proof (refreshIfDue_own ns0 "daoip2:members" TTL_members now force (members src))
      as H.
    cbn zeta in H. unfold recorded in H.
    rewrite (not_due_ext ns _ "daoip2:members") in H;
      [| unfold ns0; skip_steps; reflexivity].
    revert H. unfold ns0.
    skip_key "daoip2:members"%string. skip_key ("lastrun:" ++ "daoip2:members")%string.
    intros H. apply H. key_ne.
  - pose proof (refreshIfDue_own
                  (fst (refreshIfDue ns0 "daoip2:members" TTL_members now force (members src)))
                  "daoip2:proposals" TTL_proposals now force (proposals src)) as H.
    cbn zeta in H. unfold recorded in H.
    rewrite (not_due_ext ns _ "daoip2:proposals") in H; [| unfold ns0; skip_steps; reflexivity].
    revert H. unfold ns0.
    skip_key "daoip2:proposals"%string. skip_key ("lastrun:" ++ "daoip2:proposals")%string.
    intros H. apply H. key_ne.
  - pose proof (refreshIfDue_own
                  (fst (refreshIfDue
                     (fst (refreshIfDue ns0 "daoip2:members" TTL_members now force (members src)))
                     "daoip2:proposals" TTL_proposals now force (proposals src)))
                  "daoip2:activity" TTL_activity now force (activity src)) as H.
    cbn zeta in H. unfold recorded in H.
    rewrite (not_due_ext ns _ "daoip2:activity") in H; [| unfold ns0; skip_steps; reflexivity].
    revert H. unfold ns0.
    skip_key "daoip2:activity"%string. skip_key ("lastrun:" ++ "daoip2:activity")%string.
    intros H. apply H. key_ne.
  - pose proof (refreshIfDue_own
                  (fst (refreshIfDue
                     (fst (refreshIfDue
                        (fst (refreshIfDue ns0 "daoip2:members" TTL_members now force
                                (members src)))
                        "daoip2:proposals" TTL_proposals now force (proposals src)))
                     "daoip2:activity" TTL_activity now force (activity src)))
                  "sb:roles" TTL_roles now force (roles src)) as H.
    cbn zeta in H. unfold recorded in H.
    rewrite (not_due_ext ns _ "sb:roles") in H; [| unfold ns0; skip_steps; reflexivity].
    revert H. unfold ns0.
    skip_key "sb:roles"%string. skip_key ("lastrun:" ++ "sb:roles")%string.
    intros H. apply H. key_ne.
  - pose proof (refreshIfDue_own
                  (fst (refreshIfDue
                     (fst (refreshIfDue
                        (fst (refreshIfDue
                           (fst (refreshIfDue ns0 "daoip2:members" TTL_members now force
                                   (members src)))
                           "daoip2:proposals" TTL_proposals now force (proposals src)))
                        "daoip2:activity" TTL_activity now force (activity src)))
                     "sb:roles" TTL_roles now force (roles src)))
                  "sb:groups" TTL_groups now force (groups src)) as H.
    cbn zeta in H. unfold recorded in H.
    rewrite (not_due_ext ns _ "sb:groups") in H; [| unfold ns0; skip_steps; reflexivity].
    revert H. unfold ns0.
    skip_key "sb:groups"%string. skip_key ("lastrun:" ++ "sb:groups")%string.
    intros H. apply H. key_ne.
Qed.

(** X20: a cycle calls exactly the fetchers of the keys that are due in the
    namespace it starts from: in the order of the array when it is forced,
    and otherwise in the order in which the reads of the [lastrun:] keys
    settle, which the code does not fix.  Under a key whose fetcher was
    called and answered, it leaves the answer and the time of the cycle,
    both kept for twice the TTL; under a key that was not due, or whose
    fetcher failed, it leaves what was there. *)
Theorem cycle_outcome settle ns now force src :
  snd (runCacheRefresh settle ns now force src)
  = call_order settle force
      (List.map fst
         (List.filter (fun kt => negb (not_due ns (fst kt) (snd kt) now force)) schedule)) /\
  (forall key,
     In key (snd (runCacheRefresh settle ns now force src)) <->
     exists ttl, In (key, ttl) schedule /\ not_due ns key ttl now force = false) /\
  forall key ttl o,
    In (key, ttl) schedule ->
    source_of src key = Some o ->
    let ns' := fst (runCacheRefresh settle ns now force src) in
    match o with
    | Ok v =>
        if not_due ns key ttl now force
        then ns' !! key = ns !! key /\
             ns' !! ("lastrun:" ++ key)%string = ns !! ("lastrun:" ++ key)%string
        else ns' !! key = Some (KV.mkEntry v (now + ttl * 2 * 1000)) /\
             recorded ns' key ttl now
    | Throw _ =>
        ns' !! key = ns !! key /\
        ns' !! ("lastrun:" ++ key)%string = ns !! ("lastrun:" ++ key)%string
    end.
Proof.
  split; [apply cycle_fetched |]. split; [| apply cycle_lookup].
  intros key. rewrite cycle_fetched, call_order_In, in_map_iff. split.
  - intros ([k ttl] & <- & Hin). apply filter_In in Hin as [Hin Hdue].
    exists ttl. cbn [fst snd] in Hdue |- *. split; [exact Hin |].
    destruct (not_due ns k ttl now force); [discriminate | reflexivity].
  - intros (ttl & Hin & Hdue). exists (key, ttl). split; [reflexivity |].
    apply filter_In. split; [exact Hin |]. cbn [fst snd]. rewrite Hdue. reflexivity.
Qed.

Lemma filter_ext_in_schedule (f g : string * Z -> bool) :
  (forall kt, In kt schedule -> f kt = g kt) ->
  List.filter f schedule = List.filter g schedule.
Proof.
  intros H. apply List.filter_ext_in. exact H.
Qed.

(** X21: after a forced cycle in which every source answered, the cycle of the
    cron trigger that runs [d] milliseconds later calls exactly the
    fetchers whose TTL has elapsed by then. *)
Theorem next_cycle_fetches_elapsed settle settle' ns now d src src' :
  Forall (fun kt => exists v, source_of src (fst kt) = Some (Ok v)) schedule ->
  snd (scheduled settle' (now + d) src' (fst (runCacheRefresh settle ns now true src)))
  = call_order settle' false
      (List.map fst (List.filter (fun kt => snd kt * 1000 <=? d) schedule)).
Proof.
  intros Hok. unfold scheduled. rewrite cycle_fetched. f_equal. f_equal.
  apply filter_ext_in_schedule. intros [key ttl] Hin. cbn [fst snd].
  rewrite List.Forall_forall in Hok. destruct (Hok _ Hin) as [v Hv]. cbn [fst] in Hv.
  pose proof (cycle_lookup settle ns now true src key ttl (Ok v) Hin Hv) as H.
  cbn zeta in H. change (not_due ns key ttl now true) with false in H.
  destruct H as [_ Hrec].
  rewrite (not_due_recorded _ key ttl now (now + d) false); [| | exact Hrec].
  - cbn [negb andb]. replace (now + d - now) with d by lia.
    rewrite Z.ltb_antisym, negb_involutive. reflexivity.
  - unfold schedule in Hin. cbn [In] in Hin.
    destruct Hin as [H | [H | [H | [H | [H | []]]]]]; injection H as <- <-;
      vm_compute; discriminate.
Qed.

(** X22: the refresh endpoint answers 403 and changes nothing unless the header
    carries the configured secret; with it, every fetcher of the schedule
    is called whatever the [lastrun:] keys say, and the assembled
    descriptor is dropped. *)
Theorem internal_refresh_guard configured header settle now iso src ns :
  (header <> Some configured ->
   handleInternalRefresh configured header settle now iso src ns = (ns, [], Forbidden)) /\
  (header = Some configured ->
   exists ns',
     handleInternalRefresh configured header settle now iso src ns
     = (ns', List.map fst schedule, Refreshed iso) /\
     ns' !! "daoip2:dao"%string = None).
Proof.
  unfold handleInternalRefresh. split.
  - destruct header as [secret|]; [| reflexivity]. intros H.
    destruct (String.eqb_spec secret configured) as [-> | Hne]; [contradiction | reflexivity].
  - intros ->. rewrite String.eqb_refl. cbn [negb].
    pose proof (cycle_fetched settle ns now true src) as Hk.
    pose proof (cycle_unfold settle ns now true src) as Hu. cbn zeta in Hu.
    destruct (runCacheRefresh settle ns now true src) as [ns' keys]. cbn [snd] in Hk.
    exists ns'. split.
    + rewrite Hk. reflexivity.
    + injection Hu as -> _. apply lookup_delete_eq.
Qed.

Section Descriptor.

Variable Descriptor : Type.
Variable JSON_stringify : Descriptor -> string.
Variable JSON_parse : string -> outcome Descriptor.

Local Abbreviation getDao := (getDaoDescriptor Descriptor JSON_stringify JSON_parse).

(** X23: the descriptor is built on a miss and then served from the cache for
    1800 seconds without being built again; a forced cycle makes the next
    read build it again, a cycle of the cron trigger leaves the cached
    copy where it is. *)
Theorem descriptor_read_through ns now now' d profiles members proposals :
  KV.get now ns "daoip2:dao" = None ->
  truthy (JSON_stringify d) = true ->
  now' < now + 1800 * 1000 ->
  let '(ns1, r1, built1) :=
    getDao now ns (mkBuild Descriptor profiles members proposals (Ok d)) in
  r1 = Ok d /\ built1 = true /\
  (forall again, getDao now' ns1 again = (ns1, JSON_parse (JSON_stringify d), false)) /\
  (forall settle t t' src again,
     snd (getDao t' (fst (runCacheRefresh settle ns1 t true src)) again) = true) /\
  (forall settle t src, fst (scheduled settle t src ns1) !! "daoip2:dao"%string
                        = ns1 !! "daoip2:dao"%string).
Proof.
  intros Hmiss Htruthy Hlt. unfold getDaoDescriptor at 1. rewrite Hmiss.
  cbn [built].
  split; [reflexivity |]. split; [reflexivity |]. split; [| split].
  - intros again. unfold getDaoDescriptor, KV.get, KV.put. rewrite lookup_insert_eq.
    cbn [KV.expiration KV.value]. change (TTL_members * 1000) with (1800 * 1000).
    destruct (Z.ltb_spec now' (now + 1800 * 1000)); [| lia]. rewrite Htruthy. reflexivity.
  - intros settle t t' src again. rewrite cycle_unfold. cbn [fst].
    unfold getDaoDescriptor, KV.get. rewrite lookup_delete_eq.
    destruct (built Descriptor again); reflexivity.
  - intros settle t src. unfold scheduled. rewrite cycle_unfold. cbn [fst].
    skip_key "daoip2:dao"%string. reflexivity.
Qed.

End Descriptor.

End Cycles.

Lemma cycle_outcome_witness :
  let ns' := fst (Cache.runCacheRefresh Examples.last_first ∅ Scenario.noon false
                    Examples.answering) in
  ns' !! "sb:roles"
  = Some (KV.mkEntry "[]" (Scenario.noon + Cache.TTL_roles * 2 * 1000)) /\
  Cache.recorded ns' "sb:roles" Cache.TTL_roles Scenario.noon.
Proof.
  pose proof (proj2 (proj2 (cycle_outcome Examples.last_first ∅ Scenario.noon false
                              Examples.answering))
                "sb:roles" Cache.TTL_roles (Ok "[]")) as H.
  cbn zeta in H.
  assert (Cache.not_due ∅ "sb:roles" Cache.TTL_roles Scenario.noon false = false) as E
    by (vm_compute; reflexivity).
  rewrite E in H. apply H.
  - simpl. right. right. right. left. reflexivity.
  - reflexivity.
Defined.

Lemma next_cycle_fetches_elapsed_witness :
  snd (CacheReads.scheduled Examples.last_first (Scenario.noon + 900000)%Z Examples.failing
         (fst (Cache.runCacheRefresh Examples.in_turn ∅ Scenario.noon true
                 Examples.answering)))
  = ["daoip2:activity"; "daoip2:proposals"].
Proof.
  apply (next_cycle_fetches_elapsed Examples.in_turn Examples.last_first ∅ Scenario.noon
           900000 Examples.answering Examples.failing).
  repeat constructor; eexists; reflexivity.
Defined.

Lemma internal_refresh_guard_witness :
  CacheReads.handleInternalRefresh "r3fresh" (Some "guess") Examples.in_turn Scenario.noon
    "2026-01-05T12:00:00.000Z" Examples.answering ∅
  = (∅, [], CacheReads.Forbidden).
Proof.
  apply (proj1 (internal_refresh_guard "r3fresh" (Some "guess") Examples.in_turn
                  Scenario.noon "2026-01-05T12:00:00.000Z" Examples.answering ∅)).
  discriminate.
Defined.

Lemma descriptor_read_through_witness :
  let first := CacheReads.mkBuild string (Some "{}") (Some "{members:[]}") None
                 (Ok "{name:SuperBenefit}") in
  let get := CacheReads.getDaoDescriptor string (fun d => d) (fun s => Ok s) in
  get (Scenario.noon + Scenario.hour / 4)%Z (fst (fst (get Scenario.noon ∅ first)))
    (CacheReads.mkBuild string None None None (Throw TypeError))
  = (fst (fst (get Scenario.noon ∅ first)), Ok "{name:SuperBenefit}", false).
Proof.
  intros first get.
  pose proof (descriptor_read_through string (fun d => d) (fun s => Ok s) ∅ Scenario.noon
                (Scenario.noon + Scenario.hour / 4)%Z "{name:SuperBenefit}"
                (Some "{}") (Some "{members:[]}") None) as H.
  fold first in H. fold get in H.
  destruct (get Scenario.noon ∅ first) as [[ns1 r1] built1].
  destruct H as (_ & _ & H & _).
  - reflexivity.
  - reflexivity.
  - vm_compute. reflexivity.
  - apply H.
Defined.

(** ** Access tiers *)

(** X24: access follows a total order on the four tiers: every context passes
    [open], an [internal] context passes everything, a context that
    passes a tier passes every lower one, of two tiers one gives access to
    the other, and two tiers that give access to each other are the same.
    [requireTier] raises exactly when the check fails. *)
Theorem tier_access_order context required :
  Auth.checkTierAccess context Auth.open = true /\
  (Auth.tier context = Auth.internal -> Auth.checkTierAccess context required = true) /\
  (forall lower,
     Auth.checkTierAccess context required = true ->
     Auth.TIER_RANK lower <= Auth.TIER_RANK required ->
     Auth.checkTierAccess context lower = true) /\
  (Auth.checkTierAccess context required = true \/
   Auth.checkTierAccess (Auth.mkAuth required None None) (Auth.tier context) = true) /\
  (Auth.checkTierAccess context required = true ->
   Auth.checkTierAccess (Auth.mkAuth required None None) (Auth.tier context) = true ->
   Auth.tier context = required) /\
  (Auth.requireTier context required = inr tt <->
   Auth.checkTierAccess context required = true).
Proof.
  unfold Auth.requireTier, Auth.checkTierAccess. cbn [Auth.tier].
  split; [reflexivity |]. split; [| split; [| split; [| split]]].
  - intros ->. destruct required; reflexivity.
  - intros lower H Hle. apply Nat.leb_le in H. apply Nat.leb_le. lia.
  - destruct (Auth.tier context), required; cbn; auto.
  - destruct (Auth.tier context), required; cbn; intros H1 H2;
      first [reflexivity | discriminate H1 | discriminate H2].
  - destruct (Nat.leb _ _); cbn [negb]; split; intros H;
      try reflexivity; discriminate.
Qed.

Lemma tier_access_order_witness :
  Auth.checkTierAccess (Auth.mkAuth Auth.members (Some "0xabc") None) Auth.public = true.
Proof.
  apply (proj1 (proj2 (proj2 (tier_access_order
           (Auth.mkAuth Auth.members (Some "0xabc") None) Auth.members))) Auth.public).
  - reflexivity.
  - simpl. lia.
Defined.

(** ** The tree of hats *)

Section Tree.

Import Hats.

Lemma find_app_or {A} (p : A -> bool) (l1 l2 : list A) :
  List.find p (l1 ++ l2)
  = match List.find p l1 with
    | Some x => Some x
    | None => List.find p l2
    end.
Proof.
  induction l1 as [|x l1 IH]; cbn; [reflexivity |]. destruct (p x); [reflexivity | exact IH].
Qed.

Lemma find_at_flatten hatId :
  forall h, find_at hatId h = List.find (matches hatId) (flatten_at h).
Proof.
  fix IH 1. intros [id prettyId details imageUri maxSupply currentSupply wearers subHats].
  cbn [find_at flatten_at hat_subHats List.find].
  destruct (matches hatId _); [reflexivity |].
  destruct subHats as [subs|]; [| reflexivity].
  induction subs as [|h' rest IHrest]; [reflexivity |].
  rewrite find_app_or, <- (IH h'), <- IHrest. reflexivity.
Qed.

Lemma findHat_flatten hats hatId :
  findHat hats hatId = List.find (matches hatId) (flatten hats).
Proof.
  induction hats as [|h rest IH]; cbn [findHat flatten]; [reflexivity |].
  rewrite find_app_or, <- find_at_flatten, IH. reflexivity.
Qed.

(** X25: [findHat] answers with the first hat, in the order that lists each hat
    before its sub-hats and these before its next sibling, whose id or
    pretty id is the argument; it answers nothing exactly when no hat of
    the forest, at any depth, carries it. *)
Theorem findHat_is_preorder_search hats hatId :
  findHat hats hatId = List.find (matches hatId) (flatten hats) /\
  (findHat hats hatId = None <->
   forall h, In h (flatten hats) -> hat_id h <> hatId /\ hat_prettyId h <> hatId).
Proof.
  split; [apply findHat_flatten |]. rewrite findHat_flatten. split.
  - intros H h Hin. pose proof (find_none _ _ H h Hin) as Hm. unfold matches in Hm.
    apply orb_false_iff in Hm as [H1 H2]. apply String.eqb_neq in H1, H2. auto.
  - intros H. destruct (List.find (matches hatId) (flatten hats)) as [h|] eqn:E;
      [| reflexivity].
    apply find_some in E as [Hin Hm]. destruct (H h Hin) as [H1 H2].
    unfold matches in Hm. apply orb_true_iff in Hm as [Hm | Hm];
      apply String.eqb_eq in Hm; contradiction.
Qed.

End Tree.

(** ** Listings *)

Section Listings.

Import Listing.

Lemma insert_by_in_order {A} (leb : A -> A -> bool) (x : A) (l : list A) :
  (forall a b, leb a b = false -> leb b a = true) ->
  in_order leb l -> in_order leb (insert_by leb x l).
Proof.
  intros Htotal. induction l as [|z l IH]; intros Hl; [exact I |].
  cbn [insert_by]. destruct (leb x z) eqn:Exz.
  - split; [exact Exz | exact Hl].
  - destruct l as [|y l'].
    + cbn. split; [apply Htotal, Exz | exact I].
    + destruct Hl as [Hzy Hl]. specialize (IH Hl). cbn [insert_by] in IH |- *.
      destruct (leb x y) eqn:Exy.
      * split; [apply Htotal, Exz | exact IH].
      * split; [exact Hzy | exact IH].
Qed.

Lemma order_by_in_order {A} (leb : A -> A -> bool) (l : list A) :
  (forall a b, leb a b = false -> leb b a = true) ->
  in_order leb (order_by leb l).
Proof.
  intros Htotal. induction l as [|x l IH]; [exact I |].
  cbn [order_by]. apply insert_by_in_order; assumption.
Qed.

Lemma text_leb_total a b : text_leb a b = false -> text_leb b a = true.
Proof.
  destruct a as [x|], b as [y|]; cbn; try congruence.
  intros H. destruct (String.leb_total x y) as [H' | H']; congruence.
Qed.

Lemma desc_leb_total a b : desc_leb a b = false -> desc_leb b a = true.
Proof.
  destruct a as [x|], b as [y|]; cbn; try congruence. apply text_leb_total.
Qed.

Lemma is_type_eq t r : is_type t r = true <-> doc_type r = t.
Proof.
  unfold is_type. destruct t, (doc_type r); split; intros H;
    first [reflexivity | discriminate H].
Qed.

Lemma is_active_eq r : is_active r = true <-> doc_status r = active.
Proof.
  unfold is_active. destruct (doc_status r); split; intros H;
    first [reflexivity | discriminate H].
Qed.

Lemma join_domain_In db slug d r :
  In r (join_domain db slug d) <->
  r = d /\ exists dom, In dom (domains db) /\ dom_slug dom = slug /\
                       In (mkDocumentDomain (doc_id d) (dom_id dom)) (document_domains db).
Proof.
  unfold join_domain. rewrite in_flat_map. split.
  - intros (dd & Hdd & Hin).
    destruct (value_eqb (dd_document_id dd) (doc_id d)) eqn:Hid; [| destruct Hin].
    apply value_eqb_eq in Hid.
    apply in_flat_map in Hin as (dom & Hdom & Hin).
    destruct (String.eqb_spec (dom_id dom) (dd_domain_id dd)) as [Hd | _]; [| destruct Hin].
    destruct (String.eqb_spec (dom_slug dom) slug) as [Hs | _]; [| destruct Hin].
    destruct Hin as [<- | []]. split; [reflexivity |]. exists dom.
    split; [exact Hdom |]. split; [exact Hs |]. destruct dd as [a b]. cbn in *. subst.
    exact Hdd.
  - intros [-> (dom & Hdom & Hs & Hl)]. eexists. split; [exact Hl |].
    cbn [dd_document_id dd_domain_id]. rewrite value_eqb_refl. apply in_flat_map.
    exists dom. split; [exact Hdom |]. rewrite String.eqb_refl, Hs, String.eqb_refl.
    left. reflexivity.
Qed.

Lemma join_agreement_In db a d r :
  In r (join_agreement db a d) <->
  r = d /\ exists e t, In e (document_relationships db) /\ dr_from_id e = doc_id d /\
                       dr_relationship_type e = "authorized_by" /\
                       In t (documents db) /\ doc_id t = dr_to_id e /\
                       (doc_id t = Text a \/ doc_slug t = a).
Proof.
  unfold join_agreement. rewrite in_flat_map. split.
  - intros (e & He & Hin).
    destruct (value_eqb (dr_from_id e) (doc_id d)) eqn:Hf; [| destruct Hin].
    apply value_eqb_eq in Hf.
    destruct (String.eqb_spec (dr_relationship_type e) "authorized_by") as [Ht | _];
      [| destruct Hin].
    apply in_flat_map in Hin as (t & Hin_t & Hin).
    destruct (value_eqb (doc_id t) (dr_to_id e)) eqn:Hto; [| destruct Hin].
    apply value_eqb_eq in Hto.
    destruct (has_id (Text a) t || has_slug a t) eqn:Ha; [| destruct Hin].
    destruct Hin as [<- | []]. split; [reflexivity |]. exists e, t.
    repeat (split; [assumption |]).
    apply orb_true_iff in Ha as [Ha | Ha];
      [apply value_eqb_eq in Ha | apply String.eqb_eq in Ha]; auto.
  - intros [-> (e & t & He & Hf & Hty & Ht & Hto & Ha)]. exists e. split; [exact He |].
    rewrite Hf, Hty, value_eqb_refl, String.eqb_refl. cbn [andb]. apply in_flat_map.
    exists t. split; [exact Ht |]. rewrite Hto, value_eqb_refl. cbn [andb].
    assert (has_id (Text a) t || has_slug a t = true) as ->.
    { apply orb_true_iff. unfold has_id, has_slug.
      destruct Ha as [Ha | Ha]; [left; apply value_eqb_eq | right; apply String.eqb_eq];
        exact Ha. }
    left. reflexivity.
Qed.

(** X26: the listing of agreements never fails.  It holds the rows of type
    [agreement] and status [active], and with a non-empty domain filter
    those among them linked to the domain of that slug; the rows come by
    descending [effective_from], the ones without a date last.  An empty
    domain filter is no filter. *)
Theorem agreements_listing db domain :
  exists rows,
    queryAgreements db domain = inr rows /\
    in_order (fun a b => desc_leb (doc_effective_from a) (doc_effective_from b)) rows /\
    forall r,
      In r rows <->
      In r (documents db) /\ doc_type r = agreement /\ doc_status r = active /\
      match given domain with
      | Some s =>
          exists dom, In dom (domains db) /\ dom_slug dom = s /\
                      In (mkDocumentDomain (doc_id r) (dom_id dom)) (document_domains db)
      | None => True
      end.
Proof.
  unfold queryAgreements. destruct (given domain) as [s|]; cbn [q_rows q_placeholders q_bindings];
    unfold all; cbn [length Nat.eqb]; eexists; (split; [reflexivity |]);
    (split; [apply order_by_in_order; intros a b; apply desc_leb_total |]); intros r;
    rewrite order_by_In.
  - rewrite in_flat_map. split.
    + intros (d & Hd & Hr). apply join_domain_In in Hr as [-> Hdom].
      apply filter_In in Hd as [Hd Hp]. apply andb_true_iff in Hp as [Ht Ha].
      apply is_type_eq in Ht. apply is_active_eq in Ha. auto.
    + intros (Hd & Ht & Ha & Hdom). exists r. split.
      * apply filter_In. split; [exact Hd |]. apply andb_true_iff.
        split; [apply is_type_eq, Ht | apply is_active_eq, Ha].
      * apply join_domain_In. auto.
  - rewrite filter_In, andb_true_iff, is_type_eq, is_active_eq. tauto.
Qed.

(** X27: the listing of policies fails when both filters are given: the
    statement on the agreement has two placeholders and is sent with three
    values.  Otherwise it holds the active policies, narrowed by the one
    filter given: the policies linked to the domain, or those with an
    [authorized_by] edge to a row whose id or slug is the argument (a row
    of any type); the rows come by ascending title. *)
Theorem policies_listing db domain agreementId :
  match given domain, given agreementId with
  | Some _, Some _ => queryPolicies db domain agreementId = inl D1Error
  | d, a =>
      exists rows,
        queryPolicies db domain agreementId = inr rows /\
        in_order (fun x y => text_leb (doc_title x) (doc_title y)) rows /\
        forall r,
          In r rows <->
          In r (documents db) /\ doc_type r = policy /\ doc_status r = active /\
          match a, d with
          | Some a, _ =>
              exists e t, In e (document_relationships db) /\ dr_from_id e = doc_id r /\
                          dr_relationship_type e = "authorized_by" /\
                          In t (documents db) /\ doc_id t = dr_to_id e /\
                          (doc_id t = Text a \/ doc_slug t = a)
          | None, Some s =>
              exists dom, In dom (domains db) /\ dom_slug dom = s /\
                          In (mkDocumentDomain (doc_id r) (dom_id dom)) (document_domains db)
          | None, None => True
          end
  end.
Proof.
  unfold queryPolicies.
  destruct (given domain) as [s|], (given agreementId) as [a|];
    cbn [q_rows q_placeholders q_bindings]; unfold all; cbn [length app Nat.eqb];
    [reflexivity | | |];
    eexists; (split; [reflexivity |]);
    (split; [apply order_by_in_order; intros x y; apply text_leb_total |]); intros r;
    rewrite order_by_In.
  - rewrite in_flat_map. split.
    + intros (d & Hd & Hr). apply join_domain_In in Hr as [-> Hdom].
      apply filter_In in Hd as [Hd Hp]. apply andb_true_iff in Hp as [Ht Ha].
      apply is_type_eq in Ht. apply is_active_eq in Ha. auto.
    + intros (Hd & Ht & Ha & Hdom). exists r. split.
      * apply filter_In. split; [exact Hd |]. apply andb_true_iff.
        split; [apply is_type_eq, Ht | apply is_active_eq, Ha].
      * apply join_domain_In. auto.
  - rewrite in_flat_map. split.
    + intros (d & Hd & Hr). apply join_agreement_In in Hr as [-> Hagr].
      apply filter_In in Hd as [Hd Hp]. apply andb_true_iff in Hp as [Ht Ha].
      apply is_type_eq in Ht. apply is_active_eq in Ha. auto.
    + intros (Hd & Ht & Ha & Hagr). exists r. split.
      * apply filter_In. split; [exact Hd |]. apply andb_true_iff.
        split; [apply is_type_eq, Ht | apply is_active_eq, Ha].
      * apply join_agreement_In. auto.
  - rewrite filter_In, andb_true_iff, is_type_eq, is_active_eq. tauto.
Qed.

Lemma join_domain_same db slug d r : In r (join_domain db slug d) -> r = d.
Proof.
  intros H. apply join_domain_In in H. apply H.
Qed.

Lemma join_agreement_same db a d r : In r (join_agreement db a d) -> r = d.
Proof.
  intros H. apply join_agreement_In in H. apply H.
Qed.

Lemma listed_agreements_active db domain rows r :
  queryAgreements db domain = inr rows -> In r rows ->
  In r (documents db) /\ doc_status r = active.
Proof.
  unfold queryAgreements, all. destruct (Nat.eqb _ _); [| discriminate].
  intros H Hr. injection H as <-. apply order_by_In in Hr.
  assert (In r (List.filter (fun d => is_type agreement d && is_active d) (documents db)))
    as Hf.
  { destruct (given domain); cbn [q_rows] in Hr; [| exact Hr].
    apply in_flat_map in Hr as (d & Hd & Hr). apply join_domain_same in Hr. subst. exact Hd. }
  apply filter_In in Hf as [Hd Hp]. apply andb_true_iff in Hp as [_ Ha].
  apply is_active_eq in Ha. auto.
Qed.

Lemma listed_policies_active db domain agreementId rows r :
  queryPolicies db domain agreementId = inr rows -> In r rows ->
  In r (documents db) /\ doc_status r = active.
Proof.
  unfold queryPolicies, all. destruct (Nat.eqb _ _); [| discriminate].
  intros H Hr. injection H as <-. apply order_by_In in Hr.
  assert (In r (List.filter (fun d => is_type policy d && is_active d) (documents db)))
    as Hf.
  { destruct (given agreementId); cbn [q_rows] in Hr.
    - apply in_flat_map in Hr as (d & Hd & Hr). apply join_agreement_same in Hr. subst.
      exact Hd.
    - destruct (given domain); cbn [q_rows] in Hr; [| exact Hr].
      apply in_flat_map in Hr as (d & Hd & Hr). apply join_domain_same in Hr. subst.
      exact Hd. }
  apply filter_In in Hf as [Hd Hp]. apply andb_true_iff in Hp as [_ Ha].
  apply is_active_eq in Ha. auto.
Qed.

Lemma deleted_rows_retired now db path r :
  In r (documents (deleteDocument now db path)) ->
  doc_slug r = Workflow.pathToSlug path -> doc_status r = retired.
Proof.
  unfold deleteDocument, update_retired. cbn [documents]. intros Hr Hs.
  apply in_map_iff in Hr as (r0 & <- & _).
  destruct (has_slug (Workflow.pathToSlug path) r0) eqn:E; [reflexivity |].
  unfold has_slug in E. rewrite Hs, String.eqb_refl in E. discriminate.
Qed.

(** X28: a deleted document leaves the listings and stays in the detail query:
    no row of the slug computed from the deleted path is listed any more,
    whatever the filters, while the detail query answers as before the
    deletion, with the same domains and edges, the row now flagged
    retired.  The RPC methods fail when called without an argument. *)
Theorem deletion_unlists_but_detail_serves now db path :
  (forall domain rows r,
     queryAgreements (deleteDocument now db path) domain = inr rows ->
     In r rows -> doc_slug r <> Workflow.pathToSlug path) /\
  (forall domain agreementId rows r,
     queryPolicies (deleteDocument now db path) domain agreementId = inr rows ->
     In r rows -> doc_slug r <> Workflow.pathToSlug path) /\
  (forall t q,
     queryDetail t (deleteDocument now db path) q
     = option_map (fun det =>
           mkDetail (if has_slug (Workflow.pathToSlug path) (det_doc det)
                     then retire now (det_doc det) else det_doc det)
                    (det_domains det) (det_relationships det))
         (queryDetail t db q)) /\
  getAgreements db None = inl JsTypeError /\
  getPolicies db None = inl JsTypeError.
Proof.
  assert (forall r, In r (documents (deleteDocument now db path)) ->
            doc_status r = active -> doc_slug r <> Workflow.pathToSlug path) as Hgone.
  { intros r Hr Ha Hs. pose proof (deleted_rows_retired now db path r Hr Hs). congruence. }
  split; [| split; [| split; [| split; reflexivity]]].
  - intros domain rows r Hq Hr.
    destruct (listed_agreements_active _ _ _ _ Hq Hr) as [Hd Ha]. apply Hgone; assumption.
  - intros domain agreementId rows r Hq Hr.
    destruct (listed_policies_active _ _ _ _ _ Hq Hr) as [Hd Ha]. apply Hgone; assumption.
  - intros t q. unfold queryDetail, deleteDocument, update_retired. cbn [documents].
    rewrite find_map_preserving.
    2:{ intros r. destruct (has_slug (Workflow.pathToSlug path) r); reflexivity. }
    destruct (List.find _ (documents db)) as [doc|]; [| reflexivity].
    cbn [option_map det_doc det_domains det_relationships]. f_equal.
    destruct (has_slug (Workflow.pathToSlug path) doc); reflexivity.
Qed.

End Listings.

(** ** Refreshing the proposals *)

Section Stale.

Import Snapshot.

Variable Proposal : Type.
Variable status_of : Proposal -> string.
Variable proposalType_of : Proposal -> option string.
Variable JSON_stringify : list Proposal -> string.
Variable JSON_parse : string -> outcome (list Proposal).

Local Abbreviation fetch :=
  (fetchProposals Proposal status_of proposalType_of JSON_stringify JSON_parse).
Local Abbreviation refresh :=
  (refreshProposals Proposal status_of proposalType_of JSON_stringify JSON_parse).
Local Abbreviation run :=
  (refreshes Proposal status_of proposalType_of JSON_stringify JSON_parse).
Local Abbreviation stored := (frozen Proposal JSON_stringify).

Local Open Scope Z_scope.

Lemma stored_after_put ns now ps :
  stored
    (KV.put now "lastrun:daoip2:proposals" (Number_toString now) (Cache.TTL_proposals * 2)
       (KV.put now "daoip2:proposals" (JSON_stringify ps) (Cache.TTL_proposals * 2) ns))
    ps now.
Proof.
  unfold frozen, Cache.recorded, KV.put. split.
  - rewrite lookup_insert_ne; [| discriminate]. rewrite lookup_insert_eq. reflexivity.
  - change ("lastrun:" ++ "daoip2:proposals")%string with "lastrun:daoip2:proposals"%string.
    rewrite lookup_insert_eq. reflexivity.
Qed.

Lemma refresh_hit ns now force snapshot v ps :
  KV.get now ns "daoip2:proposals" = Some v ->
  truthy v = true ->
  JSON_parse v = Ok ps ->
  Cache.not_due ns "daoip2:proposals" Cache.TTL_proposals now force = false ->
  refresh ns now force snapshot
  = (KV.put now "lastrun:daoip2:proposals" (Number_toString now) (Cache.TTL_proposals * 2)
       (KV.put now "daoip2:proposals" (JSON_stringify ps) (Cache.TTL_proposals * 2) ns),
     false).
Proof.
  intros Hget Ht Hp Hdue. unfold refreshProposals, fetchProposals.
  rewrite Hdue, Hget, Ht, Hp. reflexivity.
Qed.

Lemma refresh_stored ns ps last prev now force snapshot :
  stored ns ps last ->
  JSON_parse (JSON_stringify ps) = Ok ps ->
  truthy (JSON_stringify ps) = true ->
  last <= prev < last + 900 * 1000 ->
  prev <= now <= prev + 900 * 1000 ->
  snd (refresh ns now force snapshot) = false /\
  exists last',
    stored (fst (refresh ns now force snapshot)) ps last' /\
    last' <= now < last' + 900 * 1000.
Proof.
  intros [Hkey Hrec] Hrt Ht Hprev Hnow.
  assert (KV.get now ns "daoip2:proposals" = Some (JSON_stringify ps)) as Hget.
  { unfold KV.get. rewrite Hkey. cbn [KV.expiration KV.value].
    change (Cache.TTL_proposals * 2 * 1000) with 1800000.
    destruct (Z.ltb_spec now (last + 1800000)); [reflexivity | lia]. }
  pose proof (not_due_recorded ns "daoip2:proposals" Cache.TTL_proposals last now force)
    as Hgate.
  specialize (Hgate ltac:(vm_compute; discriminate) Hrec).
  destruct (Cache.not_due ns "daoip2:proposals" Cache.TTL_proposals now force) eqn:Hdue.
  - unfold refreshProposals. rewrite Hdue. cbn [fst snd]. split; [reflexivity |].
    exists last. split; [split; assumption |]. symmetry in Hgate.
    apply andb_true_iff in Hgate as [_ Hlt]. apply Z.ltb_lt in Hlt.
    change (Cache.TTL_proposals * 1000) with 900000 in Hlt. lia.
  - rewrite (refresh_hit ns now force snapshot _ ps Hget Ht Hrt Hdue). cbn [fst snd].
    split; [reflexivity |]. exists now. split; [apply stored_after_put | lia].
Qed.

Lemma refreshes_stored ticks :
  forall ns ps last prev,
    stored ns ps last ->
    JSON_parse (JSON_stringify ps) = Ok ps ->
    truthy (JSON_stringify ps) = true ->
    last <= prev < last + 900 * 1000 ->
    paced prev ticks ->
    Forall (fun contacted => contacted = false) (snd (run ticks ns)) /\
    exists last', stored (fst (run ticks ns)) ps last'.
Proof.
  induction ticks as [|[[now force] snapshot] ticks IH];
    intros ns ps last prev Hst Hrt Ht Hprev Hpaced; cbn [refreshes].
  - split; [constructor | exists last; exact Hst].
  - destruct Hpaced as [Hnow Hpaced].
    destruct (refresh_stored ns ps last prev now force snapshot Hst Hrt Ht Hprev Hnow)
      as (Hc & last' & Hst' & Hlast').
    destruct (refresh ns now force snapshot) as [ns1 contacted]. cbn [fst snd] in *.
    destruct (IH ns1 ps last' now Hst' Hrt Ht Hlast' Hpaced) as (Hall & Hex).
    destruct (run ticks ns1) as [ns2 more]. cbn [fst snd] in *.
    split; [constructor; assumption | exact Hex].
Qed.

(** C6: the key of the proposals, whose TTL is 900 seconds, is fetched from
    Snapshot by a cycle at [T] that finds it empty and due.  The cycle 500
    seconds later finds the gate closed and changes nothing.  The cycle 901
    seconds later finds the gate open and calls the fetcher; the fetcher is
    [fetchProposals], which reads the key it is asked to refresh, finds the
    copy of [T] (kept for 1800 seconds) and answers with it: Snapshot is
    not contacted, and the key holds the proposals of [T] again, with a
    new expiry and a new last-run time, whatever Snapshot would answer.
    The key is not fetched again. *)
Theorem C6_due_refresh_reads_the_cache ns T ps later :
  KV.get T ns "daoip2:proposals" = None ->
  Cache.not_due ns "daoip2:proposals" Cache.TTL_proposals T false = false ->
  JSON_parse (JSON_stringify ps) = Ok ps ->
  truthy (JSON_stringify ps) = true ->
  let ns1 := fst (refreshProposals Proposal status_of proposalType_of JSON_stringify
                    JSON_parse ns T false (Ok ps)) in
  let ns2 := fst (refreshProposals Proposal status_of proposalType_of JSON_stringify
                    JSON_parse ns1 (T + 901 * 1000) false later) in
  snd (refresh ns T false (Ok ps)) = true /\
  stored ns1 ps T /\
  refresh ns1 (T + 500 * 1000) false later = (ns1, false) /\
  Cache.not_due ns1 "daoip2:proposals" Cache.TTL_proposals (T + 901 * 1000) false = false /\
  snd (refresh ns1 (T + 901 * 1000) false later) = false /\
  ns2 = fst (Cache.refreshIfDue ns1 "daoip2:proposals" Cache.TTL_proposals
               (T + 901 * 1000) false (Ok (JSON_stringify ps))) /\
  stored ns2 ps (T + 901 * 1000) /\
  KV.get (T + 901 * 1000) ns2 "daoip2:proposals" = Some (JSON_stringify ps).
Proof.
  intros Hmiss Hdue Hrt Ht ns1 ns2.
  assert (refresh ns T false (Ok ps)
          = (KV.put T "lastrun:daoip2:proposals" (Number_toString T)
               (Cache.TTL_proposals * 2)
               (KV.put T "daoip2:proposals" (JSON_stringify ps) (Cache.TTL_proposals * 2)
                  (KV.put T "daoip2:proposals" (JSON_stringify ps) (15 * 60) ns)),
             true)) as Hfirst.
  { unfold refreshProposals, fetchProposals. rewrite Hdue, Hmiss. reflexivity. }
  assert (stored ns1 ps T) as Hst.
  { subst ns1. rewrite Hfirst. cbn [fst]. apply stored_after_put. }
  pose proof Hst as [Hkey Hrec].
  assert (forall d, 0 <= d ->
            Cache.not_due ns1 "daoip2:proposals" Cache.TTL_proposals (T + d) false
            = (d <? 900 * 1000)) as Hgate.
  { intros d Hd.
    rewrite (not_due_recorded ns1 "daoip2:proposals" Cache.TTL_proposals T (T + d) false);
      [| vm_compute; discriminate | exact Hrec].
    cbn [negb andb]. replace (T + d - T) with d by lia. reflexivity. }
  assert (KV.get (T + 901 * 1000) ns1 "daoip2:proposals" = Some (JSON_stringify ps)) as Hget.
  { unfold KV.get. rewrite Hkey. cbn [KV.expiration KV.value].
    change (Cache.TTL_proposals * 2 * 1000) with 1800000.
    destruct (Z.ltb_spec (T + 901 * 1000) (T + 1800000)); [reflexivity | lia]. }
  assert (Cache.not_due ns1 "daoip2:proposals" Cache.TTL_proposals (T + 901 * 1000) false
          = false) as Hopen by (rewrite Hgate; [reflexivity | lia]).
  pose proof (refresh_hit ns1 (T + 901 * 1000) false later _ ps Hget Ht Hrt Hopen) as Hsecond.
  split; [rewrite Hfirst; reflexivity |]. split; [exact Hst |]. split.
  { unfold refreshProposals. rewrite Hgate; [reflexivity | lia]. }
  split; [exact Hopen |]. split; [rewrite Hsecond; reflexivity |].
  subst ns2. rewrite Hsecond. cbn [fst]. split; [| split].
  - unfold Cache.refreshIfDue. rewrite Hopen. reflexivity.
  - apply stored_after_put.
  - unfold KV.get, KV.put. rewrite lookup_insert_ne; [| discriminate].
    rewrite lookup_insert_eq. cbn [KV.expiration KV.value].
    change (Cache.TTL_proposals * 2 * 1000) with 1800000.
    destruct (Z.ltb_spec (T + 901 * 1000) (T + 901 * 1000 + 1800000)); [reflexivity | lia].
Qed.

(** X29: a refresh of the proposals asks [fetchProposals], which answers from
    the cache while the key holds a value: the refresh, forced or not,
    then writes the cached proposals back with a new expiry and does not
    contact Snapshot. *)
Theorem forced_refresh_reuses_cached_proposals ns now snapshot v ps :
  KV.get now ns "daoip2:proposals" = Some v ->
  truthy v = true ->
  JSON_parse v = Ok ps ->
  snd (refresh ns now true snapshot) = false /\
  KV.get now (fst (refresh ns now true snapshot)) "daoip2:proposals"
  = Some (JSON_stringify ps).
Proof.
  intros Hget Ht Hp. rewrite (refresh_hit ns now true snapshot v ps Hget Ht Hp eq_refl).
  cbn [fst snd]. split; [reflexivity |].
  unfold KV.get, KV.put. rewrite lookup_insert_ne; [| discriminate].
  rewrite lookup_insert_eq. cbn [KV.expiration KV.value].
  change (Cache.TTL_proposals * 2 * 1000) with 1800000.
  destruct (Z.ltb_spec now (now + 1800000)); [reflexivity | lia].
Qed.

(** X30: once a refresh at [t0] has fetched the proposals [ps] on an empty key,
    no later refresh contacts Snapshot as long as the refreshes follow one
    another by at most 900 seconds, forced or not: each one that is due
    finds the copy still in the cache and stores it again for 1800 seconds.
    Whatever Snapshot would answer, the key keeps the proposals of [t0]. *)
Theorem proposals_are_fetched_once ns t0 force ps ticks :
  KV.get t0 ns "daoip2:proposals" = None ->
  Cache.not_due ns "daoip2:proposals" Cache.TTL_proposals t0 force = false ->
  JSON_parse (JSON_stringify ps) = Ok ps ->
  truthy (JSON_stringify ps) = true ->
  paced t0 ticks ->
  snd (refresh ns t0 force (Ok ps)) = true /\
  Forall (fun contacted => contacted = false)
         (snd (run ticks (fst (refresh ns t0 force (Ok ps))))) /\
  exists last,
    stored (fst (run ticks (fst (refresh ns t0 force (Ok ps))))) ps last.
Proof.
  intros Hmiss Hdue Hrt Ht Hpaced.
  assert (refresh ns t0 force (Ok ps)
          = (KV.put t0 "lastrun:daoip2:proposals" (Number_toString t0)
               (Cache.TTL_proposals * 2)
               (KV.put t0 "daoip2:proposals" (JSON_stringify ps) (Cache.TTL_proposals * 2)
                  (KV.put t0 "daoip2:proposals" (JSON_stringify ps) (15 * 60) ns)),
             true)) as Hfirst.
  { unfold refreshProposals, fetchProposals. rewrite Hdue, Hmiss. reflexivity. }
  rewrite Hfirst. cbn [fst snd]. split; [reflexivity |].
  apply (refreshes_stored ticks _ ps t0 t0); try assumption; [| lia].
  apply stored_after_put.
Qed.

End Stale.

Lemma C6_witness :
  let refresh := Snapshot.refreshProposals string (fun _ => "active") (fun _ => None)
                   Examples.titles_stringify Examples.titles_parse in
  let ns1 := fst (refresh ∅ Scenario.noon false (Ok ["Fund the commons"])) in
  let later := Ok ["Fund the commons"; "Elect stewards"] in
  snd (refresh ∅ Scenario.noon false (Ok ["Fund the commons"])) = true /\
  refresh ns1 (Scenario.noon + 500 * 1000)%Z false later = (ns1, false) /\
  Cache.not_due ns1 "daoip2:proposals" Cache.TTL_proposals (Scenario.noon + 901 * 1000)%Z
    false = false /\
  snd (refresh ns1 (Scenario.noon + 901 * 1000)%Z false later) = false /\
  KV.get (Scenario.noon + 901 * 1000)%Z
    (fst (refresh ns1 (Scenario.noon + 901 * 1000)%Z false later)) "daoip2:proposals"
  = Some "Fund the commons".
Proof.
  intros refresh ns1 later.
  destruct (C6_due_refresh_reads_the_cache string (fun _ => "active") (fun _ => None)
              Examples.titles_stringify Examples.titles_parse ∅ Scenario.noon
              ["Fund the commons"] later)
    as (H1 & _ & H2 & H3 & H4 & _ & _ & H5).
  - vm_compute. reflexivity.
  - vm_compute. reflexivity.
  - reflexivity.
  - reflexivity.
  - repeat split; assumption.
Defined.

Lemma forced_refresh_reuses_cached_proposals_witness :
  let refresh := Snapshot.refreshProposals string (fun _ => "active") (fun _ => None)
                   Examples.titles_stringify Examples.titles_parse in
  let ns := fst (refresh ∅ Scenario.noon false (Ok ["Fund the commons"])) in
  snd (refresh ns (Scenario.noon + 60000)%Z true (Ok ["Fund the commons"; "Elect stewards"]))
  = false /\
  KV.get (Scenario.noon + 60000)%Z
    (fst (refresh ns (Scenario.noon + 60000)%Z true
            (Ok ["Fund the commons"; "Elect stewards"])))
    "daoip2:proposals"
  = Some "Fund the commons".
Proof.
  intros refresh ns.
  apply (forced_refresh_reuses_cached_proposals string (fun _ => "active") (fun _ => None)
           Examples.titles_stringify Examples.titles_parse ns (Scenario.noon + 60000)%Z
           (Ok ["Fund the commons"; "Elect stewards"]) "Fund the commons"
           ["Fund the commons"]).
  - vm_compute. reflexivity.
  - reflexivity.
  - reflexivity.
Defined.

Lemma proposals_are_fetched_once_witness :
  let refresh := Snapshot.refreshProposals string (fun _ => "active") (fun _ => None)
                   Examples.titles_stringify Examples.titles_parse in
  let run := Snapshot.refreshes string (fun _ => "active") (fun _ => None)
               Examples.titles_stringify Examples.titles_parse in
  let later := Ok ["Fund the commons"; "Elect stewards"] in
  snd (refresh ∅ Scenario.noon false (Ok ["Fund the commons"])) = true /\
  Forall (fun contacted => contacted = false)
    (snd (run [ ((Scenario.noon + 900000)%Z, false, later);
                ((Scenario.noon + 1800000)%Z, false, later);
                ((Scenario.noon + 1860000)%Z, true, later) ]
            (fst (refresh ∅ Scenario.noon false (Ok ["Fund the commons"]))))) /\
  exists last,
    Snapshot.frozen string Examples.titles_stringify
      (fst (run [ ((Scenario.noon + 900000)%Z, false, later);
                  ((Scenario.noon + 1800000)%Z, false, later);
                  ((Scenario.noon + 1860000)%Z, true, later) ]
              (fst (refresh ∅ Scenario.noon false (Ok ["Fund the commons"])))))
      ["Fund the commons"] last.
Proof.
  intros refresh run later.
  apply (proposals_are_fetched_once string (fun _ => "active") (fun _ => None)
           Examples.titles_stringify Examples.titles_parse ∅ Scenario.noon false
           ["Fund the commons"]).
  - vm_compute. reflexivity.
  - vm_compute. reflexivity.
  - reflexivity.
  - reflexivity.
  - simpl. unfold Scenario.noon. lia.
Defined.
